(** * manga-pipeline: chapter ordering, batching and process orchestration

    A shallow embedding of [manga-pipeline.py].  Directory names are
    strings over the code points U+0000..U+00FF (one [ascii] per code
    point); on that range the regular-expression class [\d] is exactly
    ['0'..'9'] and the only characters that fold to ['c'] under
    [re.IGNORECASE] or [str.lower] are ['c'] and ['C'].  Python integers
    are [Z]; Python floats are IEEE binary64 values, modelled exactly by an
    integer mantissa and a binary exponent, and [float] of a decimal
    numeral is the correctly rounded value (to nearest, ties to even).
    The operating system is a parameter: the script runs in a monad that
    threads the state of the environment, records what the script does and
    propagates exceptions, [sys.exit] included. *)

From Stdlib Require Import ZArith List String Ascii Bool Lia Sorted Permutation.
From Stdlib Require Import DecimalString.
From Corelib Require SpecFloat.
Import ListNotations.

Local Open Scope string_scope.
Local Open Scope list_scope.
Local Open Scope Z_scope.

(** ** Exceptions and results *)

(** What a child process wrote to a captured stream: [bytes], or [str]
    when [subprocess.run] was called with [text=True]. *)
Inductive captured : Type :=
| Bytes (b : string)
| Text (s : string).

(** The exception classes that the program raises or catches. *)
Inductive exn : Type :=
| ValueError
| OverflowError
| AttributeError
| IndexError
| EOFError
| FileNotFoundError (msg : string)
| CalledProcessError (returncode : Z) (cmd : list string)
                     (stdout stderr : option captured)
| SystemExit (code : Z).

(** The result of evaluating an expression: a value, a raised exception,
    or [Diverge] when a bounded unfolding of a [while] loop has not reached
    the loop's exit. *)
Inductive res (A : Type) : Type :=
| Val (a : A)
| Raise (e : exn)
| Diverge.
Arguments Val {A} a.
Arguments Raise {A} e.
Arguments Diverge {A}.

Definition res_bind {A B : Type} (r : res A) (f : A -> res B) : res B :=
  match r with
  | Val a => f a
  | Raise e => Raise e
  | Diverge => Diverge
  end.

(** [try: r except ValueError: h] *)
Definition except_ValueError {A : Type} (r : res A) (h : res A) : res A :=
  match r with
  | Raise ValueError => h
  | _ => r
  end.

(** ** Characters *)

Definition is_digit (c : ascii) : bool :=
  ((48 <=? N_of_ascii c) && (N_of_ascii c <=? 57))%N.

Definition digit_value (c : ascii) : Z := Z.of_N (N_of_ascii c) - 48.

(** ['c'] under [re.IGNORECASE]. *)
Definition is_c (c : ascii) : bool :=
  (Ascii.eqb c "c" || Ascii.eqb c "C")%char.

(** [str.lower] on one code point below U+0100. *)
Definition lower_char (c : ascii) : ascii :=
  let n := N_of_ascii c in
  if ((65 <=? n) && (n <=? 90))%N then ascii_of_N (n + 32)
  else if ((192 <=? n) && (n <=? 222) && negb (n =? 215))%N
       then ascii_of_N (n + 32)
       else c.

Definition lower (s : string) : string :=
  string_of_list_ascii (map lower_char (list_ascii_of_string s)).

(** [s.startswith(p)] *)
Definition startswith (s p : string) : bool := prefix p s.

(** ** The chapter pattern [c(\d+(?:\.\d+)?)] *)

Module Re.

(** Greedy [\d*]: the longest run of digits and what follows it. *)
Fixpoint span_digits (s : list ascii) : list ascii * list ascii :=
  match s with
  | c :: t =>
      if is_digit c
      then let (d, r) := span_digits t in (c :: d, r)
      else ([], s)
  | [] => ([], [])
  end.

(** [(\d+(?:\.\d+)?)] at the head of [s]: the text of the group.  Both
    quantifiers are greedy and nothing follows the group, so the first
    alternative the backtracking matcher tries is the one it keeps. *)
Definition group_at (s : list ascii) : option (list ascii) :=
  match span_digits s with
  | ([], _) => None
  | (ds, c :: r) =>
      if Ascii.eqb c "."
      then match span_digits r with
           | ([], _) => Some ds
           | (fs, _) => Some (ds ++ c :: fs)
           end
      else Some ds
  | (ds, []) => Some ds
  end.

(** The pattern anchored at the head of [s]. *)
Definition match_at (s : list ascii) : option (list ascii) :=
  match s with
  | c :: t => if is_c c then group_at t else None
  | [] => None
  end.

(** The pattern at the first position of [s] where it matches. *)
Fixpoint search_at (s : list ascii) : option (list ascii) :=
  match match_at s with
  | Some g => Some g
  | None => match s with
            | _ :: t => search_at t
            | [] => None
            end
  end.

(** [re.match(r"c(\d+(?:\.\d+)?)", name, re.IGNORECASE)], as the text
    of group 1 when there is a match. *)
Definition re_match (name : string) : option string :=
  option_map string_of_list_ascii (match_at (list_ascii_of_string name)).

(** [re.search(r"c(\d+(?:\.\d+)?)", name, re.I)], likewise. *)
Definition re_search (name : string) : option string :=
  option_map string_of_list_ascii (search_at (list_ascii_of_string name)).

End Re.

(** ** [float] and [int] *)

Module PyFloat.

(** A non-negative binary64 value: [Finite m e] is [m * 2^e]. *)
Inductive float : Type :=
| Finite (m e : Z)
| Inf.

(** Base-10 value of a digit string. *)
Definition digits_value (ds : list ascii) : Z :=
  fold_left (fun acc c => 10 * acc + digit_value c) ds 0.

(** The fraction [p/q] divided by [2^s], as a fraction. *)
Definition scale (p q s : Z) : Z * Z :=
  if 0 <=? s then (p, q * 2 ^ s) else (p * 2 ^ (- s), q).

(** Nearest integer to [num/den], ties to the even one. *)
Definition round_half_even (num den : Z) : Z :=
  let q := num / den in
  let r := num mod den in
  if 2 * r <? den then q
  else if den <? 2 * r then q + 1
  else if Z.even q then q else q + 1.

(** [floor (log2 (p/q))] for [0 < p], [0 < q]. *)
Definition ilog2 (p q : Z) : Z :=
  let e0 := Z.log2 p - Z.log2 q in
  let (a, b) := scale p q e0 in
  if a <? b then e0 - 1 else e0.

(** The binary64 value nearest to [p/q] ([0 <= p], [0 < q]), rounding
    to nearest, ties to even: 53 bits of precision, least exponent
    -1074, overflow to infinity from [2^1024]. *)
Definition nearest (p q : Z) : float :=
  if p =? 0 then Finite 0 0
  else
    let e := ilog2 p q in
    if 1024 <=? e then Inf
    else
      let s := Z.max (e - 52) (-1074) in
      let (a, b) := scale p q s in
      let m := round_half_even a b in
      if (0 <=? s) && (2 ^ 1024 <=? m * 2 ^ s) then Inf else Finite m s.

(** Splits [digits] or [digits.digits]. *)
Definition parse_numeral (s : list ascii)
  : option (list ascii * list ascii) :=
  match Re.span_digits s with
  | ([], _) => None
  | (ds, []) => Some (ds, [])
  | (ds, c :: r) =>
      if Ascii.eqb c "."
      then match Re.span_digits r with
           | ([], _) => None
           | (fs, []) => Some (ds, fs)
           | (_, _ :: _) => None
           end
      else None
  end.

(** [float(s)] for the strings the chapter pattern can capture: a
    decimal numeral [digits] or [digits.digits] is converted with
    correct rounding; [ValueError] is what [float] raises on a string
    it cannot parse. *)
Definition float_of_string (s : string) : res float :=
  match parse_numeral (list_ascii_of_string s) with
  | Some (ds, fs) =>
      Val (nearest (digits_value (ds ++ fs))
                   (10 ^ Z.of_nat (List.length fs)))
  | None => Raise ValueError
  end.

(** [int(x)] for a float [x]: truncation; [OverflowError] on an
    infinity. *)
Definition int_of_float (x : float) : res Z :=
  match x with
  | Finite m e => Val (if 0 <=? e then m * 2 ^ e else m / 2 ^ (- e))
  | Inf => Raise OverflowError
  end.

End PyFloat.

(** ** [chapter_sort_key] *)

(** [sys.maxsize] of a 64-bit CPython. *)
Definition maxsize : Z := 2 ^ 63 - 1.

(** ** Paths *)

(** A [pathlib.Path], as its components. *)
Definition Path : Type := list string.

(** [p.name] *)
Definition name (p : Path) : string := last p "".

(** [p / c] *)
Definition joinpath (p : Path) (c : string) : Path := p ++ [c].
Infix "//" := joinpath (at level 40, left associativity).

(** [str(p)] *)
Definition str (p : Path) : string := String.concat "/" p.

(** Lines 22-29. *)
Definition chapter_sort_key (dir_path : Path) : res Z :=
  match Re.re_match (name dir_path) with
  | Some g =>
      except_ValueError
        (res_bind (PyFloat.float_of_string g) PyFloat.int_of_float)
        (Val maxsize)
  | None => Val maxsize
  end.


(** ** Lists *)

(** [mapM] in [res]: the results in order, or the first failure. *)
Fixpoint res_map {A B : Type} (f : A -> res B) (l : list A) : res (list B) :=
  match l with
  | [] => Val []
  | a :: t =>
      res_bind (f a) (fun b =>
      res_bind (res_map f t) (fun bs => Val (b :: bs)))
  end.

(** Insertion of a keyed element before the first element whose key is
    not smaller. *)
Fixpoint insert_keyed {A : Type} (x : Z * A) (l : list (Z * A))
  : list (Z * A) :=
  match l with
  | [] => [x]
  | y :: t => if fst x <=? fst y then x :: y :: t else y :: insert_keyed x t
  end.

(** [sorted(l, key=key)]: the key of every element is computed once, in
    order, and the elements are returned in ascending key order, elements
    with equal keys in their original order. *)
Definition sorted {A : Type} (key : A -> res Z) (l : list A) : res (list A) :=
  res_bind (res_map key l) (fun ks =>
  Val (map snd (fold_right insert_keyed [] (combine ks l)))).

(** [l[i]] for a Python list. *)
Definition getitem {A : Type} (l : list A) (i : Z) : res A :=
  let n := Z.of_nat (List.length l) in
  let j := if i <? 0 then i + n else i in
  if (0 <=? j) && (j <? n)
  then match nth_error l (Z.to_nat j) with
       | Some a => Val a
       | None => Raise IndexError
       end
  else Raise IndexError.

(** [range(a, b)] *)
Definition range (a b : Z) : list Z :=
  map (fun k => a + Z.of_nat k) (seq 0 (Z.to_nat (b - a))).

(** [str(n)] for an integer. *)
Definition str_int (n : Z) : string := NilZero.string_of_int (Z.to_int n).

(** A newline. *)
Definition nl : string := String (ascii_of_nat 10) "".

(** Truth value of an optional string argument. *)
Definition truthy (o : option string) : bool :=
  match o with
  | Some s => negb (s =? "")%string
  | None => false
  end.

(** Truth value of a captured stream. *)
Definition nonempty (o : option captured) : bool :=
  match o with
  | Some (Bytes b) => negb (b =? "")%string
  | Some (Text s) => negb (s =? "")%string
  | None => false
  end.

(** ** The environment *)

(** Where a child's output stream goes. *)
Inductive redirect : Type := Inherit | Pipe | Devnull.

(** What launching a child process comes to: it ran and exited with a
    return code, having written [out] and [err], or the executable was
    not found.  Other failures of a launch (a file that may not be
    executed) are outside the model. *)
Inductive proc : Type :=
| Ran (returncode : Z) (out err : string)
| NoSuchFile (msg : string).

(** The operating system as the script sees it: queries on a state [W]
    and operations that change it.  [iterdir] lists the entry names of a
    directory; [input] answers [None] at end of input.  The operations on
    the file system are taken to succeed: what is proved of a run holds as
    long as none of them raises. *)
Record OS (W : Type) : Type := {
  which : W -> string -> bool;
  exists_ : W -> Path -> bool;
  is_file : W -> Path -> bool;
  is_dir : W -> Path -> bool;
  iterdir : W -> Path -> list string;
  resolve : W -> Path -> Path;
  rmtree : W -> Path -> W;
  mkdir : W -> Path -> W;
  move : W -> string -> string -> W;
  input : W -> string -> W * option string;
  spawn : W -> list string -> list (string * string) -> W * proc
}.
Arguments which {W}. Arguments exists_ {W}. Arguments is_file {W}.
Arguments is_dir {W}. Arguments iterdir {W}. Arguments resolve {W}.
Arguments rmtree {W}. Arguments mkdir {W}. Arguments move {W}.
Arguments input {W}. Arguments spawn {W}.

(** What the script does that can be observed from outside. *)
Inductive event : Type :=
| Stdout (s : string)
| Stderr (s : string)
| Input (prompt : string)
| Rmtree (p : Path)
| Mkdir (p : Path)
| Move (src dst : string)
| Run (command : list string) (stdout stderr : redirect)
      (env : list (string * string)).

(** The command line, as [argparse] returns it. *)
Record Args : Type := {
  manga_url : string;
  kcc : Path;
  wine : bool;
  batch_size : Z;
  min_chapter : option string;
  max_chapter : option string;
  custom_width : Z;
  custom_height : Z
}.

(** How the process ends: with an exit status ([sys.exit] or falling off
    the end of [main]), with the traceback of an exception nothing caught,
    or not at all. *)
Inductive outcome : Type :=
| Exited (code : Z)
| Traceback (e : exn)
| Hung.

Definition DOWNLOAD_DIR : Path := ["manga_downloads"].
Definition EPUB_DIR : Path := ["epubs"].

(** ** The script's monad: state, trace and exceptions *)

Section Monad.
Context {W : Type}.

(** A statement run from a state of the environment gives the events it
    caused, the state it left, and its result. *)
Definition M (A : Type) : Type := W -> list event * W * res A.

Definition ret {A : Type} (a : A) : M A := fun w => ([], w, Val a).

Definition bind {A B : Type} (m : M A) (f : A -> M B) : M B :=
  fun w =>
    let '(t1, w1, r) := m w in
    match r with
    | Val a => let '(t2, w2, r2) := f a w1 in (t1 ++ t2, w2, r2)
    | Raise e => (t1, w1, Raise e)
    | Diverge => (t1, w1, Diverge)
    end.

Definition lift {A : Type} (r : res A) : M A := fun w => ([], w, r).

Definition raise {A : Type} (e : exn) : M A := lift (Raise e).

(** A query on the environment. *)
Definition ask {A : Type} (q : W -> A) : M A := fun w => ([], w, Val (q w)).

(** An operation on the environment, recorded in the trace. *)
Definition act (ev : event) (f : W -> W) : M unit :=
  fun w => ([ev], f w, Val tt).

(** [try: m except ...: h], where [h e] is the handler of the first
    [except] clause that matches [e], if there is one. *)
Definition try {A : Type} (m : M A) (h : exn -> option (M A)) : M A :=
  fun w =>
    let '(t1, w1, r) := m w in
    match r with
    | Raise e =>
        match h e with
        | Some k => let '(t2, w2, r2) := k w1 in (t1 ++ t2, w2, r2)
        | None => (t1, w1, r)
        end
    | _ => (t1, w1, r)
    end.

(** [if c: m] *)
Definition when (c : bool) (m : M unit) : M unit :=
  if c then m else ret tt.

(** [for a in l: body] *)
Fixpoint for_each {A : Type} (l : list A) (body : A -> M unit) : M unit :=
  match l with
  | [] => ret tt
  | a :: t => bind (body a) (fun _ => for_each t body)
  end.

Definition print (s : string) : M unit := act (Stdout s) (fun w => w).
Definition eprint (s : string) : M unit := act (Stderr s) (fun w => w).
Definition sys_exit {A : Type} (code : Z) : M A := raise (SystemExit code).

End Monad.
Arguments M : clear implicits.

Declare Scope py_scope.
Delimit Scope py_scope with py.
Notation "x <- m ;; k" := (bind m (fun x => k))
  (at level 61, m at next level, right associativity) : py_scope.
Notation "m ;; k" := (bind m (fun _ => k))
  (at level 61, right associativity) : py_scope.
Local Open Scope py_scope.

(** ** The script *)

Section Script.
Context {W : Type} (os : OS W).
Local Abbreviation Py := (M W).

(** Built-ins whose output text is left open: [repr] of a list of
    strings, [bytes.decode(errors='ignore')] and [str.strip]. *)
Variable repr : list string -> string.
Variable decode : string -> string.
Variable strip : string -> string.

(** Lines 18-19. *)
Definition command_exists (cmd : string) : Py bool :=
  ask (fun w => which os w cmd).

Definition do_rmtree (p : Path) : Py unit :=
  act (Rmtree p) (fun w => rmtree os w p).

Definition do_mkdir (p : Path) : Py unit :=
  act (Mkdir p) (fun w => mkdir os w p).

Definition do_move (src dst : string) : Py unit :=
  act (Move src dst) (fun w => move os w src dst).

(** [input(prompt)] *)
Definition py_input (prompt : string) : Py string :=
  fun w =>
    let (w1, a) := input os w prompt in
    ([Input prompt], w1,
     match a with
     | Some s => Val s
     | None => Raise EOFError
     end).

(** What the exception carries for a stream of the child. *)
Definition capture (r : redirect) (text : bool) (s : string)
  : option captured :=
  match r with
  | Pipe => Some (if text then Text s else Bytes s)
  | _ => None
  end.

(** [subprocess.run(command, check=True, stdout=.., stderr=.., text=..,
    env=..)]; [env] lists the variables set on top of the inherited
    environment. *)
Definition subprocess_run (command : list string)
           (stdout stderr : redirect) (text : bool)
           (env : list (string * string)) : Py unit :=
  fun w =>
    let (w1, p) := spawn os w command env in
    ([Run command stdout stderr env], w1,
     match p with
     | NoSuchFile msg => Raise (FileNotFoundError msg)
     | Ran rc out err =>
         if rc =? 0 then Val tt
         else Raise (CalledProcessError rc command
                       (capture stdout text out) (capture stderr text err))
     end).

(** [o.decode(errors='ignore')]: [bytes] have the method, [str] and
    [None] do not. *)
Definition decode_ignore (o : option captured) : Py string :=
  match o with
  | Some (Bytes b) => ret (decode b)
  | _ => raise AttributeError
  end.

(** Lines 32-47. *)
Definition run_command (command : list string)
           (capture_output text : bool) : Py unit :=
  print ("Running: " ++ String.concat " " command) ;;
  try (subprocess_run command
         (if capture_output then Pipe else Inherit)
         (if capture_output then Pipe else Inherit) text [])
      (fun e =>
         match e with
         | FileNotFoundError msg => Some (
             c0 <- lift (getitem command 0) ;;
             eprint ("Error: Command '" ++ c0 ++ "' not found. " ++ msg) ;;
             sys_exit 1)
         | CalledProcessError rc cmd out err => Some (
             eprint ("Error: Command failed with exit code "
                       ++ str_int rc ++ ".") ;;
             eprint ("Command: " ++ repr cmd) ;;
             when (nonempty out)
                  (s <- decode_ignore out ;; eprint ("Stdout: " ++ s)) ;;
             when (nonempty err)
                  (s <- decode_ignore err ;; eprint ("Stderr: " ++ s)) ;;
             sys_exit 1)
         | _ => None
         end).

(** *** [main], stage by stage *)

(** Lines 112-137: validation of the arguments and of the tools. *)
Definition preflight (args : Args) : Py unit :=
  when (batch_size args <=? 0)
       (eprint "Error: Batch size must be a positive number." ;;
        sys_exit 1) ;;
  when (custom_width args <=? 0)
       (eprint "Error: Custom width must be a positive number." ;;
        sys_exit 1) ;;
  when (custom_height args <=? 0)
       (eprint "Error: Custom height must be a positive number." ;;
        sys_exit 1) ;;
  kcc_is_file <- ask (fun w => is_file os w (kcc args)) ;;
  when (negb kcc_is_file)
       (eprint ("Error: KCC executable not found at " ++ str (kcc args)
                  ++ ". Please provide a valid path.") ;;
        sys_exit 1) ;;
  have_gallery_dl <- command_exists "gallery-dl" ;;
  when (negb have_gallery_dl)
       (eprint "Error: gallery-dl command not found. Please install it." ;;
        sys_exit 1) ;;
  no_wine <- (if wine args
              then (have_wine <- command_exists "wine" ;;
                    ret (negb have_wine))
              else ret false) ;;
  when no_wine
       (eprint "Error: Wine command not found. Please install it." ;;
        sys_exit 1).

(** Lines 146-148: the question asked before the output root is
    removed. *)
Definition confirm_prompt : string :=
  "The directory " ++ str EPUB_DIR
    ++ " already exists. Do you want to delete it? (y/n): ".

(** Lines 139-163: removal of what a previous run left. *)
Definition cleanup : Py unit :=
  print "--- Starting Cleanup ---" ;;
  print ("Removing previous " ++ str DOWNLOAD_DIR
           ++ " directory (if it exists)...") ;;
  download_exists <- ask (fun w => exists_ os w DOWNLOAD_DIR) ;;
  when download_exists (do_rmtree DOWNLOAD_DIR) ;;
  epub_exists <- ask (fun w => exists_ os w EPUB_DIR) ;;
  (if epub_exists
   then
     try (confirm <- py_input confirm_prompt ;;
          if (lower confirm =? "y")%string
          then do_rmtree EPUB_DIR ;;
               print ("Removed " ++ str EPUB_DIR ++ " directory.")
          else print "Exiting without cleanup." ;;
               sys_exit 0)
         (fun e =>
            match e with
            | EOFError => Some (
                eprint ("Warning: " ++ str EPUB_DIR
                  ++ " exists and cannot confirm deletion. Exiting.") ;;
                sys_exit 1)
            | _ => None
            end)
   else print (str EPUB_DIR
                 ++ " directory does not exist, no need to remove.")) ;;
  print ("Cleanup finished." ++ nl).

(** [f"{o}"] for an optional string. *)
Definition fmt (o : option string) : string :=
  match o with
  | Some s => s
  | None => "None"
  end.

(** Lines 165-187: the download. *)
Definition download (args : Args) : Py unit :=
  print "--- Starting Download ---" ;;
  do_mkdir DOWNLOAD_DIR ;;
  let gallery_dl_command := ["gallery-dl"; "-d"; str DOWNLOAD_DIR] in
  let lo := min_chapter args in
  let hi := max_chapter args in
  gallery_dl_command <-
    (if truthy lo && truthy hi
     then print ("Attempting to download chapters from " ++ fmt lo
                   ++ " to " ++ fmt hi ++ ".") ;;
          ret (gallery_dl_command
                 ++ ["--chapter-range"; (fmt lo ++ "-" ++ fmt hi)%string])
     else if truthy lo
     then print ("Attempting to download chapters from " ++ fmt lo
                   ++ " onwards.") ;;
          ret (gallery_dl_command ++ ["--chapter-range"; (fmt lo ++ "-")%string])
     else if truthy hi
     then print ("Attempting to download chapters up to " ++ fmt hi
                   ++ ".") ;;
          ret (gallery_dl_command ++ ["--chapter-range"; ("-" ++ fmt hi)%string])
     else ret gallery_dl_command) ;;
  let gallery_dl_command := gallery_dl_command ++ [manga_url args] in
  run_command gallery_dl_command false true ;;
  print ("Download process finished." ++ nl).

(** Lines 235-240: [re.search(...).group(1)]; [None] has no [group]. *)
Definition search_group1 (p : Path) : Py string :=
  match Re.re_search (name p) with
  | Some g => ret g
  | None => raise AttributeError
  end.

(** Lines 250-252: one chapter is moved into the folder of its batch. *)
Definition move_chapter (batch_folder_name : Path) (src : Path) : Py unit :=
  let dst := batch_folder_name // name src in
  print ("  Moving " ++ name src ++ " to "
           ++ name batch_folder_name ++ "/") ;;
  do_move (str src) (str dst).

(** Lines 248-252: the members of a batch are moved into its folder. *)
Definition move_range (chapter_dirs : list Path) (batch_folder_name : Path)
           (start_index end_index : Z) : Py unit :=
  for_each (range start_index (end_index + 1))
    (fun i =>
       src <- lift (getitem chapter_dirs i) ;;
       move_chapter batch_folder_name src).

(** Lines 231-254: the [while] loop, unfolded at most [fuel] times. *)
Fixpoint batch_loop (fuel : nat) (bsize : Z) (manga_name_dir : Path)
         (chapter_dirs : list Path) (current_chapter_index : Z)
         (processed_batch_folders : list Path) : Py (list Path) :=
  let manga_name := name manga_name_dir in
  let total_chapters := Z.of_nat (List.length chapter_dirs) in
  if current_chapter_index <? total_chapters
  then
    match fuel with
    | O => lift Diverge
    | S fuel' =>
        let start_index := current_chapter_index in
        let end_index :=
          Z.min (current_chapter_index + bsize - 1) (total_chapters - 1) in
        first <- lift (getitem chapter_dirs start_index) ;;
        start_num <- search_group1 first ;;
        last <- lift (getitem chapter_dirs end_index) ;;
        end_num <- search_group1 last ;;
        let batch_folder_name :=
          manga_name_dir
            // (manga_name ++ "_" ++ start_num ++ "_" ++ end_num)%string in
        do_mkdir batch_folder_name ;;
        let processed_batch_folders :=
          processed_batch_folders ++ [batch_folder_name] in
        print ("Creating batch folder: " ++ name batch_folder_name) ;;
        move_range chapter_dirs batch_folder_name start_index end_index ;;
        batch_loop fuel' bsize manga_name_dir chapter_dirs (end_index + 1)
                   processed_batch_folders
    end
  else ret processed_batch_folders.

(** Lines 228-254: the batch partitioner.  With a positive batch size
    every turn of the loop advances the index, so as many turns as there
    are chapters are enough. *)
Definition partition (bsize : Z) (manga_name_dir : Path)
           (chapter_dirs : list Path) : Py (list Path) :=
  batch_loop (List.length chapter_dirs) bsize manga_name_dir chapter_dirs
             0 [].

(** Lines 189-256: discovery, ordering and batching. *)
Definition rearrange (args : Args) : Py (list Path) :=
  print "--- Starting Rearrangement ---" ;;
  let manga_base_dir := DOWNLOAD_DIR // "weebcentral" in
  base_is_dir <- ask (fun w => is_dir os w manga_base_dir) ;;
  when (negb base_is_dir)
       (eprint ("Error: Expected download directory "
                  ++ str manga_base_dir ++ " not found.") ;;
        sys_exit 1) ;;
  manga_name_dirs <-
    ask (fun w => filter (fun d => is_dir os w d)
                    (map (joinpath manga_base_dir)
                         (iterdir os w manga_base_dir))) ;;
  when (match manga_name_dirs with [] => true | _ => false end)
       (eprint ("Error: Could not find the manga directory in "
                  ++ str manga_base_dir
                  ++ ". No chapters downloaded or unexpected structure.") ;;
        sys_exit 1) ;;
  manga_name_dir <- lift (getitem manga_name_dirs 0) ;;
  let manga_name := name manga_name_dir in
  print ("Found manga: " ++ manga_name ++ " in " ++ str manga_name_dir) ;;
  candidates <-
    ask (fun w => filter (fun d => is_dir os w d
                                && startswith (lower (name d)) "c")
                    (map (joinpath manga_name_dir)
                         (iterdir os w manga_name_dir))) ;;
  chapter_dirs <- lift (sorted chapter_sort_key candidates) ;;
  let total_chapters := Z.of_nat (List.length chapter_dirs) in
  when (total_chapters =? 0)
       (print ("No chapter folders found starting with 'c' in "
                 ++ str manga_name_dir ++ ". No chapters to rearrange.") ;;
        sys_exit 0) ;;
  print ("Found " ++ str_int total_chapters ++ " chapter folders.") ;;
  processed_batch_folders <-
    partition (batch_size args) manga_name_dir chapter_dirs ;;
  print ("Rearranging finished." ++ nl) ;;
  ret processed_batch_folders.

(** Lines 275-288 and 290-291: the converter's command line. *)
Definition convert_cmd (args : Args) (abs_epub_dir abs_folder_path : Path)
  : list string :=
  let convert_cmd :=
    [str (kcc args); "--manga-style"; "--profile=OTHER";
     "--splitter=2"; "--cropping=2";
     ("--customwidth=" ++ str_int (custom_width args))%string;
     ("--customheight=" ++ str_int (custom_height args))%string;
     "--format=EPUB"; "--stretch"; "-o";
     str abs_epub_dir; str abs_folder_path] in
  if wine args then "wine" :: convert_cmd else convert_cmd.

(** Lines 274 and 292: what the converter's environment adds to the
    script's own. *)
Definition convert_env (args : Args) : list (string * string) :=
  if wine args then [("WINEDEBUG", "-all")] else [].

(** Lines 303-312: the handler of a failed conversion. *)
Definition conversion_warning (folder : Path) (err : option captured)
  : Py unit :=
  eprint ("Warning: KCC processing might have failed for "
            ++ name folder ++ ".") ;;
  when (nonempty err)
       (s <- decode_ignore err ;;
        eprint ("  KCC Stderr: " ++ strip s)).

(** Lines 270-312: the body of the conversion loop. *)
Definition convert_folder (args : Args) (abs_epub_dir : Path)
           (folder : Path) : Py unit :=
  folder_is_dir <- ask (fun w => is_dir os w folder) ;;
  when folder_is_dir
    (print ("Processing folder: " ++ name folder) ;;
     abs_folder_path <- ask (fun w => resolve os w folder) ;;
     try (subprocess_run (convert_cmd args abs_epub_dir abs_folder_path)
                         Devnull Pipe false (convert_env args) ;;
          print ("Finished processing " ++ name folder ++ "."))
         (fun e =>
            match e with
            | CalledProcessError _ _ _ err =>
                Some (conversion_warning folder err)
            | _ => None
            end)).

(** Lines 258-314: the conversion. *)
Definition kcc_processing (args : Args)
           (processed_batch_folders : list Path) : Py unit :=
  print "--- Starting KCC Processing ---" ;;
  do_mkdir EPUB_DIR ;;
  abs_epub_dir <- ask (fun w => resolve os w EPUB_DIR) ;;
  when (match processed_batch_folders with [] => true | _ => false end)
       (print "No batch folders were created or found to process." ;;
        sys_exit 0) ;;
  print ("Found "
           ++ str_int (Z.of_nat (List.length processed_batch_folders))
           ++ " batch folders to process.") ;;
  print ("EPUB files will be saved to: " ++ str abs_epub_dir) ;;
  for_each processed_batch_folders (convert_folder args abs_epub_dir) ;;
  print ("KCC processing finished." ++ nl).

(** Lines 316-321. *)
Definition final_cleanup : Py unit :=
  print "--- Starting Final Cleanup ---" ;;
  print ("Removing " ++ str DOWNLOAD_DIR ++ " directory...") ;;
  do_rmtree DOWNLOAD_DIR ;;
  print ("Cleanup finished." ++ nl) ;;
  print ("Script finished successfully. EPUBs are in " ++ str EPUB_DIR).

(** Lines 112-321: [main] from the parsed command line on. *)
Definition main (args : Args) : Py unit :=
  preflight args ;;
  cleanup ;;
  download args ;;
  processed_batch_folders <- rearrange args ;;
  kcc_processing args processed_batch_folders ;;
  final_cleanup.

(** Lines 324-325: the script run as a process. *)
Definition script (args : Args) (w : W) : list event * W * outcome :=
  let '(t, w', r) := main args w in
  (t, w',
   match r with
   | Val _ => Exited 0
   | Raise (SystemExit code) => Exited code
   | Raise e => Traceback e
   | Diverge => Hung
   end).

End Script.

(** ** The partition as the specification words it *)

Module Spec.

(** [ceil(n / b)] *)
Definition ceil_div (n b : Z) : Z := (n + b - 1) / b.

(** Group [k] covers the ordered indices
    [k*batch_size .. min((k+1)*batch_size, N) - 1]. *)
Definition group {A : Type} (bsize : Z) (l : list A) (k : Z) : list A :=
  let n := Z.of_nat (List.length l) in
  let lo := k * bsize in
  let hi := Z.min ((k + 1) * bsize) n in
  firstn (Z.to_nat (hi - lo)) (skipn (Z.to_nat lo) l).

(** The [ceil(N / batch_size)] groups, in order. *)
Definition groups {A : Type} (bsize : Z) (l : list A) : list (list A) :=
  map (group bsize l) (range 0 (ceil_div (Z.of_nat (List.length l)) bsize)).

(** The folder of a group: [{manga_name}_{start}_{end}] under the manga
    directory, with the numerals that the pattern extracts from the names
    of the first and of the last chapter of the group; none when one of
    the two names has no numeral. *)
Definition folder_of (manga_name_dir : Path) (g : list Path)
  : option Path :=
  match g with
  | [] => None
  | first :: _ =>
      match Re.re_search (name first), Re.re_search (name (last g first)) with
      | Some start_num, Some end_num =>
          Some (manga_name_dir
                  // (name manga_name_dir ++ "_" ++ start_num
                        ++ "_" ++ end_num)%string)
      | _, _ => None
      end
  end.

End Spec.

Section Reference.
Context {W : Type} (os : OS W).

(** Group by group: the folder is created and the members are moved into
    it; a group without a folder name stops the run. *)
Fixpoint run_groups (manga_name_dir : Path) (gs : list (list Path))
         (processed_batch_folders : list Path) : M W (list Path) :=
  match gs with
  | [] => ret processed_batch_folders
  | g :: gs' =>
      match Spec.folder_of manga_name_dir g with
      | None => raise AttributeError
      | Some folder =>
          do_mkdir os folder ;;
          print ("Creating batch folder: " ++ name folder) ;;
          for_each g (move_chapter os folder) ;;
          run_groups manga_name_dir gs' (processed_batch_folders ++ [folder])
      end
  end.

End Reference.

(** The events of moving the chapters [g] into [folder]. *)
Definition move_trace (folder : Path) (g : list Path) : list event :=
  flat_map (fun src =>
              [Stdout ("  Moving " ++ name src ++ " to "
                        ++ name folder ++ "/");
               Move (str src) (str (folder // name src))]) g.

(** The events of one batch: its folder is made and announced, then each
    member is announced and moved. *)
Definition batch_trace (folder : Path) (g : list Path) : list event :=
  Mkdir folder
  :: Stdout ("Creating batch folder: " ++ name folder)
  :: move_trace folder g.

(** The child processes that a trace launched. *)
Definition runs (t : list event) : list (list string) :=
  flat_map (fun ev => match ev with
                      | Run command _ _ _ => [command]
                      | _ => []
                      end) t.

(** A trace without download, batching or conversion: nothing is launched,
    no directory is made, nothing is moved. *)
Definition idle (t : list event) : bool :=
  forallb (fun ev => match ev with
                     | Run _ _ _ _ | Mkdir _ | Move _ _ => false
                     | _ => true
                     end) t.

(** ** A simulated environment for closed runs *)

Module Sim.

(** Directories and files that exist, tools on the search path, and the
    lines waiting on standard input. *)
Record state : Type := {
  dirs : list Path;
  files : list Path;
  tools : list string;
  stdin : list string
}.

(** What a program does to the directories when it is launched, and how
    it ends. *)
Definition programs : Type := list string -> list Path -> list Path * proc.

Definition path_eqb (p q : Path) : bool :=
  if list_eq_dec string_dec p q then true else false.

Definition mem (p : Path) (ps : list Path) : bool := existsb (path_eqb p) ps.

(** [p] is [q] or lies under [q]. *)
Definition under (q p : Path) : bool :=
  path_eqb (firstn (List.length q) p) q.

Definition with_dirs (w : state) (ds : list Path) : state :=
  {| dirs := ds; files := files w; tools := tools w; stdin := stdin w |}.

(** The components of a path written with [/]. *)
Fixpoint split_path (acc : string) (s : string) : Path :=
  match s with
  | EmptyString => [acc]
  | String c t =>
      if Ascii.eqb c "/" then acc :: split_path "" t
      else split_path (acc ++ String c "")%string t
  end.

Definition sim_move (w : state) (src dst : string) : state :=
  let s := split_path "" src in
  let d := split_path "" dst in
  with_dirs w (map (fun p => if under s p
                             then d ++ skipn (List.length s) p
                             else p) (dirs w)).

Definition os (progs : programs) : OS state := {|
  which := fun w c => existsb (String.eqb c) (tools w);
  exists_ := fun w p => mem p (dirs w) || mem p (files w);
  is_file := fun w p => mem p (files w);
  is_dir := fun w p => mem p (dirs w);
  iterdir := fun w p =>
    map name (filter (fun d => match d with
                               | [] => false
                               | _ => path_eqb (removelast d) p
                               end) (dirs w));
  resolve := fun _ p => "" :: "work" :: p;
  rmtree := fun w p =>
    {| dirs := filter (fun d => negb (under p d)) (dirs w);
       files := filter (fun d => negb (under p d)) (files w);
       tools := tools w; stdin := stdin w |};
  mkdir := fun w p => if mem p (dirs w) then w
                      else with_dirs w (dirs w ++ [p]);
  move := sim_move;
  input := fun w _ =>
    match stdin w with
    | [] => (w, None)
    | a :: rest =>
        ({| dirs := dirs w; files := files w; tools := tools w;
            stdin := rest |}, Some a)
    end;
  spawn := fun w command _ =>
    let (ds, p) := progs command (dirs w) in (with_dirs w ds, p)
|}.

(** [repr] of a list of plain words, as Python prints it. *)
Definition repr (l : list string) : string :=
  ("[" ++ String.concat ", " (map (fun s => "'" ++ s ++ "'") l) ++ "]")%string.

Definition decode (b : string) : string := b.
Definition strip (s : string) : string := s.

(** The script in the simulated environment. *)
Definition run (progs : programs) (args : Args) (w : state)
  : list event * state * outcome :=
  script (os progs) repr decode strip args w.

Definition manga_dir : Path := ["manga_downloads"; "weebcentral"; "M"].

(** A downloader that leaves the given chapter directories behind. *)
Definition downloads (names : list string) (ds : list Path)
  : list Path * proc :=
  (ds ++ [["manga_downloads"; "weebcentral"]; manga_dir]
      ++ map (joinpath manga_dir) names,
   Ran 0 "" "").

(** A converter that fails on the folders named in [bad]. *)
Definition converts (bad : list string) (command : list string)
           (ds : list Path) : list Path * proc :=
  if existsb (fun b => existsb (String.eqb b)
                         (map (fun a => name (split_path "" a)) command)) bad
  then (ds, Ran 1 "" "conversion failed")
  else (ds, Ran 0 "" "").

(** The downloader and the converter, both working. *)
Definition installed (names bad : list string) : programs :=
  fun command ds =>
    if (hd "" command =? "gallery-dl")%string
    then downloads names ds
    else converts bad command ds.

(** Programs that all exit with code 2. *)
Definition broken : programs := fun _ ds => (ds, Ran 2 "" "").

(** No program can be launched. *)
Definition missing : programs :=
  fun _ ds => (ds, NoSuchFile "[Errno 2] No such file or directory").

(** A machine with the converter's file and the downloader on the search
    path, and the given lines on standard input. *)
Definition machine (answers : list string) : state := {|
  dirs := [];
  files := [["kcc"]];
  tools := ["gallery-dl"];
  stdin := answers
|}.

Definition args : Args := {|
  manga_url := "https://weebcentral.com/chapters/1";
  kcc := ["kcc"];
  wine := false;
  batch_size := 20;
  min_chapter := None;
  max_chapter := None;
  custom_width := 1264;
  custom_height := 1680
|}.

(** [c1 .. cn], in descending order. *)
Definition chapters (n : nat) : list string :=
  map (fun k => ("c" ++ str_int (Z.of_nat k))%string) (rev (seq 1 n)).




End Sim.

(** ** Vocabulary of the statements *)

Definition all_digits (ds : list ascii) : bool := forallb is_digit ds.

Definition starts_with_digit (s : list ascii) : bool :=
  match s with
  | d :: _ => is_digit d
  | [] => false
  end.

(** The fractional part of a numeral as text: nothing, or a point and
    digits. *)
Definition frac (fs : list ascii) : list ascii :=
  match fs with
  | [] => []
  | _ => "."%char :: fs
  end.

(** The text [rest] after a numeral with fraction digits [fs] does not
    continue the numeral: it does not start with a digit, nor, when the
    numeral has no fraction yet, with a point and a digit. *)
Definition ends_numeral (fs rest : list ascii) : bool :=
  negb (starts_with_digit rest)
  && match fs, rest with
     | [], c :: r => negb (Ascii.eqb c "." && starts_with_digit r)
     | _, _ => true
     end.

(** The folder [folder] carries the numerals of the first and of the last
    chapter of the group [g]. *)
Definition named_after (manga_name_dir folder : Path) (g : list Path) : Prop :=
  exists first start_num end_num,
    hd_error g = Some first /\
    Re.re_search (name first) = Some start_num /\
    Re.re_search (name (last g first)) = Some end_num /\
    folder = manga_name_dir
               // (name manga_name_dir ++ "_" ++ start_num
                     ++ "_" ++ end_num)%string.

(** The moves of a trace, as (source, destination). *)
Definition moves (t : list event) : list (string * string) :=
  flat_map (fun ev => match ev with
                      | Move src dst => [(src, dst)]
                      | _ => []
                      end) t.

(** The state that the file operations of a trace leave when they are
    done in order from [w]: what is made, moved and removed.  Output,
    questions and launches are passed over. *)
Definition replay {W : Type} (os : OS W) (t : list event) (w : W) : W :=
  fold_left (fun w ev => match ev with
                         | Mkdir p => mkdir os w p
                         | Move src dst => move os w src dst
                         | Rmtree p => rmtree os w p
                         | _ => w
                         end) t w.

(** The trace moved the chapter [src] into [folder], under its own name. *)
Definition moved (src folder : Path) (ev : event) : bool :=
  match ev with
  | Move s d =>
      ((s =? str src) && (d =? str (folder // name src)))%string
  | _ => false
  end.

(** The chapters of [l] that the trace moved into [folder]. *)
Definition moved_into (t : list event) (l : list Path) (folder : Path)
  : list Path :=
  filter (fun src => existsb (moved src folder) t) l.

(** The partitioner, run on the ordered chapters [l], makes one batch per
    group of the specification, in order: the folders it makes are named
    after their groups and are pairwise distinct, the state it leaves is
    the one that its makes and moves leave, every chapter is moved exactly
    once, in order, and the chapters moved into the folder of group [k] are
    exactly the members of group [k]; there are [ceil(N/B)] groups, group
    [k] holds the chapters at the indices [k*B .. min((k+1)*B, N) - 1],
    every group has between one and [B] members, and the groups in order
    make up [l]. *)
Definition partitions_into_batches {W : Type} (os : OS W) (bsize : Z)
           (manga_name_dir : Path) (l : list Path) (w : W) : Prop :=
  let N := Z.of_nat (List.length l) in
  let gs := Spec.groups bsize l in
  exists folders,
    let t := flat_map (fun fg => batch_trace (fst fg) (snd fg))
                      (combine folders gs) in
    partition os bsize manga_name_dir l w = (t, replay os t w, Val folders) /\
    Forall2 (named_after manga_name_dir) folders gs /\
    NoDup folders /\
    map fst (moves t) = map str l /\
    Z.of_nat (List.length folders) = Spec.ceil_div N bsize /\
    Z.of_nat (List.length gs) = Spec.ceil_div N bsize /\
    (forall k, 0 <= k < Spec.ceil_div N bsize ->
       let g := nth (Z.to_nat k) gs [] in
       moved_into t l (nth (Z.to_nat k) folders []) = g /\
       Z.of_nat (List.length g) = Z.min ((k + 1) * bsize) N - k * bsize /\
       forall i, k * bsize <= i < Z.min ((k + 1) * bsize) N ->
         nth_error g (Z.to_nat (i - k * bsize)) = nth_error l (Z.to_nat i)) /\
    (forall g, In g gs -> 1 <= Z.of_nat (List.length g) <= bsize) /\
    List.concat gs = l.

(** The state in which the cleanup stage asks its question: the stale
    download root, if there was one, is gone. *)
Definition after_stale_removal {W : Type} (os : OS W) (w : W) : W :=
  if exists_ os w DOWNLOAD_DIR then rmtree os w DOWNLOAD_DIR else w.

(** The events of the cleanup stage up to and including the question. *)
Definition cleanup_prefix {W : Type} (os : OS W) (w : W) : list event :=
  [Stdout "--- Starting Cleanup ---";
   Stdout "Removing previous manga_downloads directory (if it exists)..."]
  ++ (if exists_ os w DOWNLOAD_DIR then [Rmtree DOWNLOAD_DIR] else [])
  ++ [Input confirm_prompt].

(** The events of the final cleanup. *)
Definition final_cleanup_trace : list event :=
  [Stdout "--- Starting Final Cleanup ---";
   Stdout "Removing manga_downloads directory...";
   Rmtree DOWNLOAD_DIR;
   Stdout ("Cleanup finished." ++ nl);
   Stdout "Script finished successfully. EPUBs are in epubs"].



(** The child [p] did not succeed. *)
Definition failed (p : proc) : bool :=
  match p with
  | Ran 0 _ _ => false
  | _ => true
  end.


(** A chapter name whose numeral is [10^309]. *)
Definition overflow_name : string :=
  String "c" (String "1" (string_of_list_ascii (repeat "0"%char 309))).

(** The elements of [l] at the indices [a .. b-1]. *)
Definition slice {A : Type} (a b : nat) (l : list A) : list A :=
  firstn (b - a) (skipn a l).

(** The directories that a trace made. *)
Definition mkdirs (t : list event) : list Path :=
  flat_map (fun ev => match ev with
                      | Mkdir p => [p]
                      | _ => []
                      end) t.

(** The order of keyed elements by their keys. *)
Definition key_le {A : Type} (x y : Z * A) : Prop := fst x <= fst y.

(** The binary64 quotient of two positive integers as the Standard
    Library's specification of floating-point division computes it. *)
Definition spec_nearest (p q : Z) : SpecFloat.spec_float :=
  SpecFloat.SFdiv 53 1024
    (SpecFloat.S754_finite false (Z.to_pos p) 0)
    (SpecFloat.S754_finite false (Z.to_pos q) 0).

(** The same value in the two representations. *)
Definition same_float (x : PyFloat.float) (y : SpecFloat.spec_float) : bool :=
  match x, y with
  | PyFloat.Finite m e, SpecFloat.S754_finite false m' e' =>
      let k := Z.min e e' in
      m * 2 ^ (e - k) =? Z.pos m' * 2 ^ (e' - k)
  | PyFloat.Finite 0 _, SpecFloat.S754_zero _ => true
  | PyFloat.Inf, SpecFloat.S754_infinity false => true
  | _, _ => false
  end.

(** ** Vocabulary of the further properties *)

(** All the preflight checks of lines 112-137 pass. *)
Definition preflight_ok {W : Type} (os : OS W) (args : Args) (w : W) : bool :=
  (0 <? batch_size args) && (0 <? custom_width args)
  && (0 <? custom_height args) && is_file os w (kcc args)
  && which os w "gallery-dl" && (negb (wine args) || which os w "wine").

(** The downloader's chapter-range option for the two optional bounds:
    [start-end], [start-], [-end], or nothing; an empty bound is no
    bound. *)
Definition chapter_range_option (lo hi : option string) : list string :=
  match truthy lo, truthy hi with
  | true, true => ["--chapter-range"; (fmt lo ++ "-" ++ fmt hi)%string]
  | true, false => ["--chapter-range"; (fmt lo ++ "-")%string]
  | false, true => ["--chapter-range"; ("-" ++ fmt hi)%string]
  | false, false => []
  end.

(** Line 190: where the downloader leaves the manga. *)
Definition manga_base_dir : Path := DOWNLOAD_DIR // "weebcentral".

(** Line 198: the directories under the downloader's root. *)
Definition manga_dirs {W : Type} (os : OS W) (w : W) : list Path :=
  filter (fun d => is_dir os w d)
         (map (joinpath manga_base_dir) (iterdir os w manga_base_dir)).

(** Lines 211-215: the entries of the manga directory that are directories
    and whose name starts with [c] or [C], in listing order. *)
Definition discovered {W : Type} (os : OS W) (w : W) (manga_name_dir : Path)
  : list Path :=
  filter (fun d => is_dir os w d && startswith (lower (name d)) "c")
         (map (joinpath manga_name_dir) (iterdir os w manga_name_dir)).

(** The first lines of the rearrangement stage. *)
Definition rearrange_banner : event := Stdout "--- Starting Rearrangement ---".

Definition found_manga (manga_name_dir : Path) : event :=
  Stdout ("Found manga: " ++ name manga_name_dir ++ " in "
            ++ str manga_name_dir).

(** An event of the conversion loop: a line of output, or a launch of the
    converter with its output discarded and its error output captured. *)
Definition conversion_event (args : Args) (abs_epub_dir : Path) (ev : event)
  : Prop :=
  match ev with
  | Stdout _ | Stderr _ => True
  | Run command out err env =>
      (exists p, command = convert_cmd args abs_epub_dir p) /\
      out = Devnull /\ err = Pipe /\ env = convert_env args
  | _ => False
  end.

(** The events of the conversion stage before its loop, for a list of
    folders that is not empty. *)
Definition conversion_header {W : Type} (os : OS W) (w : W)
           (folders : list Path) : list event :=
  [Stdout "--- Starting KCC Processing ---";
   Mkdir EPUB_DIR;
   Stdout ("Found " ++ str_int (Z.of_nat (List.length folders))
             ++ " batch folders to process.");
   Stdout ("EPUB files will be saved to: "
             ++ str (resolve os (mkdir os w EPUB_DIR) EPUB_DIR))].

(** What [run_command] prints first when the child exits with the code
    [rc], after the launch with both streams captured. *)
Definition captured_failure (repr : list string -> string)
           (command : list string) (rc : Z) : list event :=
  [Stdout ("Running: " ++ String.concat " " command);
   Run command Pipe Pipe [];
   Stderr ("Error: Command failed with exit code " ++ str_int rc ++ ".");
   Stderr ("Command: " ++ repr command)].

(** The trees that a trace removed. *)
Definition rmtrees (t : list event) : list Path :=
  flat_map (fun ev => match ev with
                      | Rmtree p => [p]
                      | _ => []
                      end) t.

(** The questions that a trace asked on standard input. *)
Definition inputs (t : list event) : list string :=
  flat_map (fun ev => match ev with
                      | Input prompt => [prompt]
                      | _ => []
                      end) t.

(** The events of a run. *)
Definition trace {W A : Type} (x : list event * W * A) : list event :=
  fst (fst x).

(** Lines 169-183: the downloader's command line. *)
Definition gallery_dl_command (args : Args) : list string :=
  ["gallery-dl"; "-d"; "manga_downloads"]
    ++ chapter_range_option (min_chapter args) (max_chapter args)
    ++ [manga_url args].

(** A command line of the converter. *)
Definition converter_command (args : Args) (command : list string) : Prop :=
  exists abs_epub_dir abs_folder_path,
    command = convert_cmd args abs_epub_dir abs_folder_path.

(** The user answered [y] or [Y] to the question of the cleanup stage. *)
Definition confirmed {W : Type} (os : OS W) (w : W) : Prop :=
  exists w2 answer,
    input os (after_stale_removal os w) confirm_prompt = (w2, Some answer) /\
    lower answer = "y".

(** The directory [d] has the key [k]. *)
Definition has_key (k : Z) (d : Path) : bool :=
  match chapter_sort_key d with
  | Val k' => k' =? k
  | _ => false
  end.

(** ** Tactics *)

Ltac step := cbv beta iota zeta.

(** Unfolds the monad's operations in a run of the script. *)
Ltac open_script :=
  unfold bind, print, eprint, act, ask, when, try, sys_exit, raise, lift, ret;
  step.


(** * Properties *)

(** ** The pattern *)

Lemma span_digits_app ds rest :
  all_digits ds = true ->
  Re.span_digits (ds ++ rest) =
    (ds ++ fst (Re.span_digits rest), snd (Re.span_digits rest)).
Proof.
  induction ds as [|d ds IH]; simpl; intros H.
  - destruct (Re.span_digits rest); reflexivity.
  - apply andb_prop in H as [Hd Hds]. rewrite Hd, (IH Hds). reflexivity.
Qed.

Lemma span_digits_stop rest :
  starts_with_digit rest = false -> Re.span_digits rest = ([], rest).
Proof.
  destruct rest as [|d r]; simpl; [reflexivity|].
  intros H. rewrite H. reflexivity.
Qed.

Lemma span_digits_app_stop ds rest :
  all_digits ds = true -> starts_with_digit rest = false ->
  Re.span_digits (ds ++ rest) = (ds, rest).
Proof.
  intros Hds Hr. rewrite (span_digits_app _ _ Hds), (span_digits_stop _ Hr).
  simpl. rewrite app_nil_r. reflexivity.
Qed.

Lemma span_digits_spec s :
  s = fst (Re.span_digits s) ++ snd (Re.span_digits s) /\
  all_digits (fst (Re.span_digits s)) = true /\
  starts_with_digit (snd (Re.span_digits s)) = false.
Proof.
  induction s as [|c t IH]; simpl; [auto|].
  destruct (is_digit c) eqn:Hc.
  - destruct (Re.span_digits t) as [d r]. simpl in *.
    destruct IH as (-> & Hd & Hr). rewrite Hc, Hd. auto.
  - simpl. rewrite Hc. auto.
Qed.

(** The group captured at the head of a numeral followed by text that does
    not continue it. *)
Lemma group_at_numeral ds fs rest :
  ds <> [] -> all_digits ds = true -> all_digits fs = true ->
  ends_numeral fs rest = true ->
  Re.group_at (ds ++ frac fs ++ rest) = Some (ds ++ frac fs).
Proof.
  intros Hne Hds Hfs Hend. unfold Re.group_at.
  apply andb_prop in Hend as [Hstop Hfr]. apply negb_true_iff in Hstop.
  destruct ds as [|d0 ds0]; [contradiction|].
  destruct fs as [|f fs]; simpl frac.
  - simpl app at 2. rewrite (span_digits_app_stop _ _ Hds Hstop).
    rewrite app_nil_r. destruct rest as [|c r]; [reflexivity|].
    destruct (Ascii.eqb c ".") eqn:Hc; [|reflexivity].
    simpl in Hfr. apply negb_true_iff in Hfr.
    rewrite (span_digits_stop r Hfr). reflexivity.
  - rewrite (span_digits_app_stop (d0 :: ds0) _ Hds) by reflexivity.
    change (("."%char :: f :: fs) ++ rest)
      with ("."%char :: (f :: fs) ++ rest).
    cbv iota. rewrite Ascii.eqb_refl.
    rewrite (span_digits_app_stop _ _ Hfs Hstop). reflexivity.
Qed.

(** ** Rounding *)

Lemma pow2_pos k : 0 <= k -> 0 < 2 ^ k.
Proof. intros. apply Z.pow_pos_nonneg; lia. Qed.

Lemma pow2_split a b : 0 <= a -> 0 <= b -> 2 ^ (a + b) = 2 ^ a * 2 ^ b.
Proof. intros. apply Z.pow_add_r; assumption. Qed.

(** [ilog2 p q] is the exponent of the binade of [p/q]. *)
Lemma ilog2_spec p q :
  0 < p -> 0 < q ->
  let e := PyFloat.ilog2 p q in
  q * 2 ^ Z.max e 0 <= p * 2 ^ Z.max (- e) 0 /\
  p * 2 ^ Z.max (- (e + 1)) 0 < q * 2 ^ Z.max (e + 1) 0.
Proof.
  intros Hp Hq. unfold PyFloat.ilog2, PyFloat.scale.
  destruct (Z.log2_spec p Hp) as [Hp1 Hp2].
  destruct (Z.log2_spec q Hq) as [Hq1 Hq2].
  pose proof (Z.log2_nonneg p) as Hlp. pose proof (Z.log2_nonneg q) as Hlq.
  set (lp := Z.log2 p) in *. set (lq := Z.log2 q) in *.
  rewrite Z.pow_succ_r in Hp2, Hq2 by assumption.
  pose proof (pow2_pos lp Hlp) as Pp. pose proof (pow2_pos lq Hlq) as Pq.
  destruct (Z.leb_spec 0 (lp - lq)) as [He0|He0].
  - assert (E : 2 ^ lp = 2 ^ lq * 2 ^ (lp - lq)).
    { rewrite <- pow2_split by lia. f_equal. lia. }
    pose proof (pow2_pos (lp - lq) He0) as Pe.
    destruct (Z.ltb_spec p (q * 2 ^ (lp - lq))) as [Hlt|Hge]; cbv zeta.
    + destruct (Z.eq_dec (lp - lq) 0) as [Hz|Hz].
      * rewrite Hz in *. simpl Z.max. simpl Z.pow in *. lia.
      * replace (Z.max (lp - lq - 1) 0) with (lp - lq - 1) by lia.
        replace (Z.max (- (lp - lq - 1)) 0) with 0 by lia.
        replace (Z.max (- (lp - lq - 1 + 1)) 0) with 0 by lia.
        replace (Z.max (lp - lq - 1 + 1) 0) with (lp - lq) by lia.
        assert (E2 : 2 ^ (lp - lq) = 2 * 2 ^ (lp - lq - 1)).
        { rewrite <- Z.pow_succ_r by lia. f_equal. lia. }
        pose proof (pow2_pos (lp - lq - 1) ltac:(lia)) as Pe1.
        simpl Z.pow at 2 3. split; [|lia]. nia.
    + replace (Z.max (lp - lq) 0) with (lp - lq) by lia.
      replace (Z.max (- (lp - lq)) 0) with 0 by lia.
      replace (Z.max (- (lp - lq + 1)) 0) with 0 by lia.
      replace (Z.max (lp - lq + 1) 0) with (lp - lq + 1) by lia.
      rewrite (Z.pow_add_r 2 (lp - lq) 1) by lia.
      simpl Z.pow at 2 3 5. split; [lia|]. nia.
  - assert (E : 2 ^ lq = 2 ^ lp * 2 ^ (- (lp - lq))).
    { rewrite <- pow2_split by lia. f_equal. lia. }
    pose proof (pow2_pos (- (lp - lq)) ltac:(lia)) as Pe.
    destruct (Z.ltb_spec (p * 2 ^ (- (lp - lq))) q) as [Hlt|Hge]; cbv zeta.
    + replace (Z.max (lp - lq - 1) 0) with 0 by lia.
      replace (Z.max (- (lp - lq - 1)) 0) with (- (lp - lq) + 1) by lia.
      replace (Z.max (- (lp - lq - 1 + 1)) 0) with (- (lp - lq)) by lia.
      replace (Z.max (lp - lq - 1 + 1) 0) with 0 by lia.
      rewrite (Z.pow_add_r 2 (- (lp - lq)) 1) by lia.
      simpl Z.pow at 1 3 5. split; [nia|lia].
    + replace (Z.max (lp - lq) 0) with 0 by lia.
      replace (Z.max (- (lp - lq)) 0) with (- (lp - lq)) by lia.
      replace (Z.max (lp - lq + 1) 0) with 0 by lia.
      replace (Z.max (- (lp - lq + 1)) 0) with (- (lp - lq) - 1) by lia.
      assert (E2 : 2 ^ (- (lp - lq)) = 2 * 2 ^ (- (lp - lq) - 1)).
      { rewrite <- Z.pow_succ_r by lia. f_equal. lia. }
      pose proof (pow2_pos (- (lp - lq) - 1) ltac:(lia)) as Pe1.
      simpl Z.pow at 1 4. split; [lia|]. nia.
Qed.

Lemma round_half_even_bounds num den :
  0 < den ->
  let m := PyFloat.round_half_even num den in
  num / den <= m <= num / den + 1 /\
  (m = num / den + 1 -> den <= 2 * (num mod den)).
Proof.
  intros Hden. unfold PyFloat.round_half_even.
  destruct (Z.ltb_spec (2 * (num mod den)) den);
    [|destruct (Z.ltb_spec den (2 * (num mod den)));
      [|destruct (Z.even (num / den))]]; cbv zeta; lia.
Qed.

(** A decimal of at most fifteen significant digits keeps its integer
    part when it is rounded to binary64 and truncated. *)
Lemma int_nearest_trunc D q :
  0 <= D < 10 ^ 15 -> 0 < q ->
  PyFloat.int_of_float (PyFloat.nearest D q) = Val (D / q).
Proof.
  intros [HD0 HD] Hq. unfold PyFloat.nearest.
  destruct (Z.eqb_spec D 0) as [->|HDnz].
  { simpl. rewrite Z.div_0_l by lia. reflexivity. }
  destruct (ilog2_spec D q ltac:(lia) Hq) as [L U].
  set (e := PyFloat.ilog2 D q) in *.
  assert (H1015 : 10 ^ 15 < 2 ^ 50) by reflexivity.
  assert (He : e <= 49).
  { destruct (Z_le_gt_dec e 49) as [|Hbig]; [assumption|exfalso].
    replace (Z.max e 0) with e in L by lia.
    replace (Z.max (- e) 0) with 0 in L by lia.
    assert (2 ^ 50 <= 2 ^ e) by (apply Z.pow_le_mono_r; lia).
    simpl (2 ^ 0) in L. nia. }
  destruct (Z.leb_spec 1024 e) as [|_]; [lia|].
  set (s := Z.max (e - 52) (-1074)).
  assert (Hs : s < 0) by (unfold s; lia).
  unfold PyFloat.scale.
  destruct (Z.leb_spec 0 s) as [|_]; [lia|].
  cbv zeta. rewrite andb_false_l. unfold PyFloat.int_of_float.
  destruct (Z.leb_spec 0 s) as [|_]; [lia|].
  f_equal.
  set (T := 2 ^ (- s)).
  assert (HT : 0 < T) by (apply pow2_pos; lia).
  destruct (round_half_even_bounds (D * T) q Hq) as [[Hlo Hhi] Hup].
  set (m := PyFloat.round_half_even (D * T) q) in *.
  pose proof (Z.div_mod D q ltac:(lia)) as HDq.
  pose proof (Z.mod_pos_bound D q Hq) as HDr.
  pose proof (Z.div_mod (D * T) q ltac:(lia)) as HNq.
  pose proof (Z.mod_pos_bound (D * T) q Hq) as HNr.
  set (n := D / q) in *. set (r0 := D mod q) in *.
  set (m0 := (D * T) / q) in *. set (r := (D * T) mod q) in *.
  assert (Hn0 : 0 <= n) by (apply Z.div_pos; lia).
  assert (Hlower : n * T <= m0) by nia.
  assert (Hm0 : m0 < (n + 1) * T) by nia.
  assert (Hupper : m < (n + 1) * T).
  { destruct (Z_le_gt_dec (- 1074) (e - 52)) as [Hnorm|Hsub].
    - (* normal range: the spacing [1/T] is below [2/q] *)
      assert (Hq2T : q < 2 * T).
      { unfold T, s. replace (Z.max (e - 52) (-1074)) with (e - 52) by lia.
        destruct (Z_le_gt_dec 0 e) as [He0|He0].
        - replace (Z.max e 0) with e in L by lia.
          replace (Z.max (- e) 0) with 0 in L by lia.
          simpl (2 ^ 0) in L.
          assert (E : 2 * 2 ^ (- (e - 52)) * 2 ^ e = 2 ^ 53).
          { rewrite <- Z.pow_succ_r by lia. rewrite <- pow2_split by lia.
            f_equal. lia. }
          pose proof (pow2_pos e He0).
          assert (2 ^ 50 < 2 ^ 53) by reflexivity. nia.
        - replace (Z.max e 0) with 0 in L by lia.
          replace (Z.max (- e) 0) with (- e) in L by lia.
          simpl (2 ^ 0) in L.
          assert (E : 2 ^ (- (e - 52)) = 2 ^ 52 * 2 ^ (- e)).
          { rewrite <- pow2_split by lia. f_equal. lia. }
          pose proof (pow2_pos (- e) ltac:(lia)).
          assert (2 ^ 50 < 2 ^ 52) by reflexivity. nia. }
      destruct (Z.eq_dec m (m0 + 1)) as [Hm|Hm]; [|lia].
      specialize (Hup Hm). nia.
    - (* subnormal range: the value is below 1 *)
      assert (Ts : T = 2 ^ 1074).
      { unfold T, s. replace (Z.max (e - 52) (-1074)) with (-1074) by lia.
        reflexivity. }
      replace (Z.max (e + 1) 0) with 0 in U by lia.
      replace (Z.max (- (e + 1)) 0) with (- (e + 1)) in U by lia.
      simpl (2 ^ 0) in U.
      assert (2 ^ 1022 <= 2 ^ (- (e + 1)))
        by (apply Z.pow_le_mono_r; lia).
      assert (E : 2 ^ 1074 = 2 ^ 1022 * 2 ^ 52) by reflexivity.
      assert (P52 : 0 < 2 ^ 52) by reflexivity.
      assert (P1022 : 0 < 2 ^ 1022) by reflexivity.
      assert (HDq' : D * 2 ^ 1022 < q) by nia.
      assert (m0 < 2 ^ 52) by nia.
      assert (2 ^ 52 + 1 < 2 ^ 1074) by reflexivity.
      nia. }
  symmetry. apply (Z.div_unique m T n (m - T * n)); lia.
Qed.

(** The rounding agrees with the Standard Library's specification of
    binary64 division on numerals around the precision, the overflow and
    the underflow thresholds. *)
Example nearest_agrees_with_spec :
  forallb (fun pq => same_float (PyFloat.nearest (fst pq) (snd pq))
                                (spec_nearest (fst pq) (snd pq)))
          [(79, 10); (125, 10); (9007199254740993, 1);
           (9007199254740995, 1); (18014398509481985, 1);
           (99999999999999999999, 10 ^ 20); (45035996273704975, 10);
           (10 ^ 20 + 1, 1); (10 ^ 308, 1); (10 ^ 309, 1);
           (2 ^ 1024 - 2 ^ 970, 1); (2 ^ 1024 - 2 ^ 970 - 1, 1);
           (1, 10 ^ 320); (3, 10 ^ 310); (1, 10 ^ 400);
           (12345678901234567890123, 10 ^ 7)]
  = true.
Proof. vm_compute. reflexivity. Qed.

(** ** Decimal numerals *)

Lemma is_digit_value c : is_digit c = true -> 0 <= digit_value c <= 9.
Proof.
  unfold is_digit, digit_value. intros H.
  apply andb_prop in H as [H1 H2].
  apply N.leb_le in H1, H2. lia.
Qed.

Lemma fold_digits ds acc :
  fold_left (fun a c => 10 * a + digit_value c) ds acc =
  acc * 10 ^ Z.of_nat (List.length ds) + PyFloat.digits_value ds.
Proof.
  unfold PyFloat.digits_value. revert acc.
  induction ds as [|d ds IH]; intros acc.
  - simpl. lia.
  - cbn [fold_left]. rewrite IH, (IH (10 * 0 + digit_value d)).
    change (List.length (d :: ds)) with (S (List.length ds)).
    rewrite Nat2Z.inj_succ, Z.pow_succ_r by lia. ring.
Qed.

Lemma digits_value_app ds fs :
  PyFloat.digits_value (ds ++ fs) =
  PyFloat.digits_value ds * 10 ^ Z.of_nat (List.length fs)
  + PyFloat.digits_value fs.
Proof.
  unfold PyFloat.digits_value at 1. rewrite fold_left_app.
  fold (PyFloat.digits_value ds). apply fold_digits.
Qed.

Lemma digits_value_bound ds :
  all_digits ds = true ->
  0 <= PyFloat.digits_value ds < 10 ^ Z.of_nat (List.length ds).
Proof.
  induction ds as [|d ds IH] using rev_ind; intros H.
  - simpl. unfold PyFloat.digits_value. simpl. lia.
  - unfold all_digits in H. rewrite forallb_app in H.
    apply andb_prop in H as [Hds Hd]. simpl in Hd.
    rewrite andb_true_r in Hd. apply is_digit_value in Hd.
    specialize (IH Hds). rewrite digits_value_app, length_app.
    cbn [List.length]. rewrite Nat2Z.inj_add.
    change (Z.of_nat 1) with 1. rewrite Z.pow_add_r by lia.
    change (10 ^ 1) with 10.
    change (PyFloat.digits_value [d]) with (10 * 0 + digit_value d).
    nia.
Qed.

(** The quotient that [float] rounds has the numeral's integer part as its
    integer part. *)
Lemma digits_value_div ds fs :
  all_digits fs = true ->
  PyFloat.digits_value (ds ++ fs) / 10 ^ Z.of_nat (List.length fs)
  = PyFloat.digits_value ds.
Proof.
  intros Hfs. rewrite digits_value_app.
  pose proof (digits_value_bound fs Hfs).
  assert (0 < 10 ^ Z.of_nat (List.length fs))
    by (apply Z.pow_pos_nonneg; lia).
  rewrite Z.div_add_l by lia. rewrite Z.div_small by lia. lia.
Qed.

Lemma parse_numeral_text ds fs :
  ds <> [] -> all_digits ds = true -> all_digits fs = true ->
  PyFloat.parse_numeral (ds ++ frac fs) = Some (ds, fs).
Proof.
  intros Hne Hds Hfs. unfold PyFloat.parse_numeral.
  destruct ds as [|d0 ds0]; [contradiction|].
  destruct fs as [|f fs]; simpl frac.
  - rewrite (span_digits_app_stop _ [] Hds) by reflexivity. reflexivity.
  - rewrite (span_digits_app_stop (d0 :: ds0) _ Hds) by reflexivity.
    cbv iota. rewrite Ascii.eqb_refl.
    rewrite <- (app_nil_r (f :: fs)) at 1.
    rewrite (span_digits_app_stop _ [] Hfs) by reflexivity. reflexivity.
Qed.

(** [int(float(g))] on the text of a numeral of at most fifteen digits. *)
Lemma int_float_numeral ds fs :
  ds <> [] -> all_digits ds = true -> all_digits fs = true ->
  (List.length ds + List.length fs <= 15)%nat ->
  res_bind (PyFloat.float_of_string (string_of_list_ascii (ds ++ frac fs)))
           PyFloat.int_of_float
  = Val (PyFloat.digits_value ds).
Proof.
  intros Hne Hds Hfs Hlen. unfold PyFloat.float_of_string.
  rewrite list_ascii_of_string_of_list_ascii.
  rewrite (parse_numeral_text ds fs Hne Hds Hfs). simpl res_bind.
  rewrite int_nearest_trunc.
  - rewrite (digits_value_div ds fs Hfs). reflexivity.
  - assert (Hall : all_digits (ds ++ fs) = true).
    { unfold all_digits. rewrite forallb_app. apply andb_true_intro; auto. }
    pose proof (digits_value_bound _ Hall) as B.
    rewrite length_app in B.
    assert (10 ^ Z.of_nat (List.length ds + List.length fs) <= 10 ^ 15)
      by (apply Z.pow_le_mono_r; lia).
    lia.
  - apply Z.pow_pos_nonneg; lia.
Qed.

Lemma name_joinpath dir n : name (dir // n) = n.
Proof. unfold name, joinpath. apply last_last. Qed.

(** The key of a name that starts with [c], a numeral of at most fifteen
    digits, and text that does not continue the numeral. *)
Lemma key_of_numeral dir c ds fs rest :
  is_c c = true -> ds <> [] ->
  all_digits ds = true -> all_digits fs = true ->
  ends_numeral fs rest = true ->
  (List.length ds + List.length fs <= 15)%nat ->
  chapter_sort_key (dir // string_of_list_ascii (c :: ds ++ frac fs ++ rest))
  = Val (PyFloat.digits_value ds).
Proof.
  intros Hc Hne Hds Hfs Hend Hlen. unfold chapter_sort_key, Re.re_match.
  rewrite name_joinpath, list_ascii_of_string_of_list_ascii.
  unfold Re.match_at. rewrite Hc.
  rewrite (group_at_numeral ds fs rest Hne Hds Hfs Hend). cbn [option_map].
  rewrite (int_float_numeral ds fs Hne Hds Hfs Hlen). reflexivity.
Qed.

(** Every text that starts with a digit splits into a numeral and text that
    does not continue it; the integer digits are the longest run of
    digits. *)
Lemma numeral_decompose s :
  starts_with_digit s = true ->
  exists ds fs rest,
    s = ds ++ frac fs ++ rest /\ ds = fst (Re.span_digits s) /\ ds <> [] /\
    all_digits ds = true /\ all_digits fs = true /\
    ends_numeral fs rest = true.
Proof.
  intros Hs. destruct (span_digits_spec s) as (Es & Hds & Hstop).
  destruct (Re.span_digits s) as [ds r] eqn:Hsp. simpl in Es, Hds, Hstop.
  assert (Hne : ds <> []).
  { intros ->. simpl in Es. subst r. congruence. }
  destruct r as [|c r'].
  { exists ds, [], []. simpl. rewrite app_nil_r in *. auto 10. }
  destruct (Ascii.eqb_spec c "."%char) as [->|Hc].
  - destruct (span_digits_spec r') as (Er & Hfs & Hstop').
    destruct (Re.span_digits r') as [fs r''] eqn:Hsp'.
    simpl in Er, Hfs, Hstop'. destruct fs as [|f fs].
    + exists ds, [], ("."%char :: r'). simpl in Er. subst r''.
      unfold ends_numeral. simpl. rewrite Hstop'. auto 10.
    + exists ds, (f :: fs), r''. subst r'. unfold ends_numeral.
      rewrite Hstop'. simpl. auto 10.
  - exists ds, [], (c :: r'). unfold ends_numeral. rewrite Hstop.
    apply Ascii.eqb_neq in Hc. simpl. rewrite Hc. auto 10.
Qed.

(** What the anchored pattern captures, whenever it matches. *)
Lemma match_at_inv s g :
  Re.match_at s = Some g ->
  exists c ds fs rest,
    s = c :: ds ++ frac fs ++ rest /\ g = ds ++ frac fs /\
    is_c c = true /\ ds <> [] /\
    all_digits ds = true /\ all_digits fs = true /\
    ends_numeral fs rest = true.
Proof.
  destruct s as [|c t]; simpl; [discriminate|].
  destruct (is_c c) eqn:Hc; [|discriminate]. intros Hg.
  assert (Hd : starts_with_digit t = true).
  { unfold Re.group_at in Hg. destruct t as [|d t']; [discriminate|].
    simpl. simpl in Hg. destruct (is_digit d); [reflexivity|discriminate]. }
  destruct (numeral_decompose t Hd)
    as (ds & fs & rest & Et & _ & Hne & Hds & Hfs & Hend).
  exists c, ds, fs, rest. subst t.
  rewrite (group_at_numeral ds fs rest Hne Hds Hfs Hend) in Hg.
  injection Hg as <-. auto 10.
Qed.

Lemma digit_not_c d : is_digit d = true -> is_c d = false.
Proof.
  unfold is_digit, is_c. intros H. apply andb_prop in H as [H1 H2].
  apply N.leb_le in H1, H2.
  destruct (Ascii.eqb_spec d "c"%char) as [->|_]; [simpl in H2; lia|].
  destruct (Ascii.eqb_spec d "C"%char) as [->|_]; [simpl in H2; lia|].
  reflexivity.
Qed.

(** ** Sorting *)

Lemma insert_keyed_perm {A : Type} (x : Z * A) l :
  Permutation (insert_keyed x l) (x :: l).
Proof.
  induction l as [|y t IH]; simpl; [reflexivity|].
  destruct (fst x <=? fst y); [reflexivity|].
  rewrite IH. apply perm_swap.
Qed.

Lemma insert_keyed_sorted {A : Type} (x : Z * A) l :
  StronglySorted key_le l -> StronglySorted key_le (insert_keyed x l).
Proof.
  induction 1 as [|y t Hs IH Hall]; simpl.
  - constructor; constructor.
  - destruct (Z.leb_spec (fst x) (fst y)) as [Hle|Hgt].
    + constructor; [constructor; assumption|].
      constructor; [exact Hle|].
      eapply Forall_impl; [|exact Hall]. unfold key_le. intros; lia.
    + constructor; [exact IH|].
      rewrite (insert_keyed_perm x t). constructor; [|exact Hall].
      unfold key_le. lia.
Qed.

Lemma sort_keyed_sorted {A : Type} (l : list (Z * A)) :
  StronglySorted key_le (fold_right insert_keyed [] l).
Proof.
  induction l; simpl; [constructor|]. apply insert_keyed_sorted, IHl.
Qed.

Lemma sort_keyed_perm {A : Type} (l : list (Z * A)) :
  Permutation (fold_right insert_keyed [] l) l.
Proof.
  induction l; simpl; [reflexivity|].
  rewrite insert_keyed_perm. constructor. exact IHl.
Qed.

Lemma res_map_Forall2 {A B : Type} (f : A -> res B) l bs :
  res_map f l = Val bs -> Forall2 (fun a b => f a = Val b) l bs.
Proof.
  revert bs. induction l as [|a t IH]; simpl; intros bs H.
  - injection H as <-. constructor.
  - destruct (f a) as [b| |] eqn:Hfa; try discriminate. simpl in H.
    destruct (res_map f t) as [bs'| |]; try discriminate. simpl in H.
    injection H as <-. constructor; auto.
Qed.

Lemma Forall2_combine {A B : Type} (P : A -> B -> Prop) l bs :
  Forall2 P l bs -> forall b a, In (b, a) (combine bs l) -> P a b.
Proof.
  induction 1; simpl; intros b a Hin; [contradiction|].
  destruct Hin as [E|Hin].
  - injection E as <- <-. assumption.
  - eauto.
Qed.

Lemma strongly_sorted_nth {A : Type} (R : A -> A -> Prop) l :
  StronglySorted R l ->
  forall i j x y, (i < j)%nat ->
    nth_error l i = Some x -> nth_error l j = Some y -> R x y.
Proof.
  induction 1 as [|a t Hs IH Hall]; intros i j x y Hij Hi Hj.
  - destruct i; discriminate.
  - destruct j as [|j]; [lia|]. simpl in Hj. destruct i as [|i].
    + injection Hi as <-. rewrite Forall_forall in Hall.
      apply Hall. eapply nth_error_In; eassumption.
    + simpl in Hi. eapply IH; [|eassumption..]. lia.
Qed.

(** [sorted] rearranges its input, and an element with a smaller key
    comes out before one with a larger key. *)
Lemma sorted_spec {A : Type} (key : A -> res Z) l l' :
  sorted key l = Val l' ->
  Permutation l l' /\
  forall i j a b ka kb,
    nth_error l' i = Some a -> nth_error l' j = Some b ->
    key a = Val ka -> key b = Val kb -> ka < kb -> (i < j)%nat.
Proof.
  unfold sorted. destruct (res_map key l) as [ks| |] eqn:Hks; try discriminate.
  simpl. intros H. injection H as <-.
  apply res_map_Forall2 in Hks.
  assert (Hlen : List.length ks = List.length l).
  { symmetry. eapply Forall2_length; eassumption. }
  set (S := fold_right insert_keyed [] (combine ks l)).
  assert (HP : Permutation S (combine ks l)) by apply sort_keyed_perm.
  assert (HS : StronglySorted key_le S) by apply sort_keyed_sorted.
  split.
  - rewrite HP. clear -Hlen. revert ks Hlen.
    induction l as [|a t IH]; intros [|k ks] Hlen; simpl in *;
      try discriminate; [reflexivity|].
    constructor. apply IH. lia.
  - intros i j a b ka kb Hi Hj Ka Kb Hlt.
    rewrite nth_error_map in Hi, Hj.
    destruct (nth_error S i) as [[ka' a']|] eqn:Si; [|discriminate].
    destruct (nth_error S j) as [[kb' b']|] eqn:Sj; [|discriminate].
    simpl in Hi, Hj. injection Hi as ->. injection Hj as ->.
    assert (Ea : key a = Val ka').
    { apply (Forall2_combine _ _ _ Hks).
      eapply Permutation_in; [exact HP|]. eapply nth_error_In; eassumption. }
    assert (Eb : key b = Val kb').
    { apply (Forall2_combine _ _ _ Hks).
      eapply Permutation_in; [exact HP|]. eapply nth_error_In; eassumption. }
    assert (ka' = ka) by congruence. assert (kb' = kb) by congruence.
    subst ka' kb'.
    destruct (Nat.lt_trichotomy i j) as [Hij|[Hij|Hij]]; [assumption|..].
    + subst j. rewrite Si in Sj. injection Sj as E _. lia.
    + pose proof (strongly_sorted_nth _ _ HS j i _ _ Hij Sj Si) as Hle.
      unfold key_le in Hle. simpl in Hle. lia.
Qed.


(** ** The monad *)

Section MonadFacts.
Context {W : Type}.

Lemma bind_val {A B : Type} (m : M W A) (f : A -> M W B) w t1 w1 a :
  m w = (t1, w1, Val a) ->
  bind m f w = (let '(t2, w2, r2) := f a w1 in (t1 ++ t2, w2, r2)).
Proof. intros H. unfold bind. rewrite H. reflexivity. Qed.

Lemma bind_raise {A B : Type} (m : M W A) (f : A -> M W B) w t1 w1 e :
  m w = (t1, w1, Raise e) -> bind m f w = (t1, w1, Raise e).
Proof. intros H. unfold bind. rewrite H. reflexivity. Qed.

Lemma bind_congr {A B : Type} (m m' : M W A) (f f' : A -> M W B) w :
  m w = m' w -> (forall a w', f a w' = f' a w') ->
  bind m f w = bind m' f' w.
Proof.
  intros Hm Hf. unfold bind. rewrite Hm.
  destruct (m' w) as [[t1 w1] [a| |]]; try reflexivity.
  rewrite Hf. reflexivity.
Qed.

Lemma bind_ret {A B : Type} (a : A) (f : A -> M W B) w :
  bind (ret a) f w = f a w.
Proof.
  unfold bind, ret. destruct (f a w) as [[t2 w2] r2]. reflexivity.
Qed.

Lemma bind_lift_val {A B : Type} (a : A) (f : A -> M W B) w :
  bind (lift (Val a)) f w = f a w.
Proof.
  unfold bind, lift. destruct (f a w) as [[t2 w2] r2]. reflexivity.
Qed.

Lemma for_each_congr {A : Type} (l : list A) (f g : A -> M W unit) :
  (forall a w, f a w = g a w) -> forall w, for_each l f w = for_each l g w.
Proof.
  intros H. induction l as [|a t IH]; intros w; simpl; [reflexivity|].
  apply bind_congr; [apply H|]. intros _ w'. apply IH.
Qed.

Lemma for_each_app {A : Type} (l1 l2 : list A) (f : A -> M W unit) w :
  for_each (l1 ++ l2) f w = bind (for_each l1 f) (fun _ => for_each l2 f) w.
Proof.
  revert w. induction l1 as [|a t IH]; intros w; simpl.
  - unfold bind, ret. destruct (for_each l2 f w) as [[t2 w2] r2].
    reflexivity.
  - unfold bind in *. destruct (f a w) as [[t1 w1] [[]| |]]; try reflexivity.
    rewrite IH. destruct (for_each t f w1) as [[t2 w2] [[]| |]];
      try (rewrite ?app_assoc; reflexivity).
    destruct (for_each l2 f w2) as [[t3 w3] r3].
    rewrite app_assoc. reflexivity.
Qed.

End MonadFacts.

(** ** Lists and indices *)

Lemma getitem_nth {A : Type} (l : list A) i d :
  0 <= i < Z.of_nat (List.length l) ->
  getitem l i = Val (nth (Z.to_nat i) l d).
Proof.
  intros H. unfold getitem.
  destruct (Z.ltb_spec i 0) as [|_]; [lia|].
  destruct (Z.leb_spec 0 i) as [_|]; [|lia].
  destruct (Z.ltb_spec i (Z.of_nat (List.length l))) as [_|]; [|lia].
  simpl. rewrite (nth_error_nth' l d) by lia. reflexivity.
Qed.

Lemma range_nil a b : b <= a -> range a b = [].
Proof.
  intros H. unfold range. replace (Z.to_nat (b - a)) with O by lia.
  reflexivity.
Qed.

Lemma range_cons a b : a < b -> range a b = a :: range (a + 1) b.
Proof.
  intros H. unfold range.
  replace (Z.to_nat (b - a)) with (S (Z.to_nat (b - (a + 1)))) by lia.
  simpl. f_equal; [lia|]. rewrite <- seq_shift, map_map.
  apply map_ext. intros k. lia.
Qed.

Lemma firstn_plus {A : Type} n m (l : list A) :
  firstn (n + m) l = firstn n l ++ firstn m (skipn n l).
Proof.
  revert l. induction n as [|n IH]; intros [|x l]; simpl;
    rewrite ?firstn_nil; try reflexivity.
  f_equal. apply IH.
Qed.

Lemma skipn_nth_cons {A : Type} a (l : list A) d :
  (a < List.length l)%nat -> skipn a l = nth a l d :: skipn (S a) l.
Proof.
  revert l. induction a as [|a IH]; intros [|x l] H; simpl in *; try lia.
  - reflexivity.
  - apply IH. lia.
Qed.

Lemma slice_app {A : Type} a b c (l : list A) :
  (a <= b <= c)%nat -> slice a b l ++ slice b c l = slice a c l.
Proof.
  intros H. unfold slice.
  replace (c - a)%nat with ((b - a) + (c - b))%nat by lia.
  rewrite firstn_plus, skipn_skipn. do 3 f_equal. lia.
Qed.

Lemma slice_cons {A : Type} a b (l : list A) d :
  (a < b)%nat -> (a < List.length l)%nat ->
  slice a b l = nth a l d :: slice (S a) b l.
Proof.
  intros H Hl. unfold slice. rewrite (skipn_nth_cons a l d Hl).
  replace (b - a)%nat with (S (b - S a)) by lia. reflexivity.
Qed.

Lemma slice_empty {A : Type} a b (l : list A) :
  (b <= a)%nat -> slice a b l = [].
Proof.
  intros H. unfold slice. replace (b - a)%nat with O by lia. reflexivity.
Qed.

Lemma slice_all {A : Type} (l : list A) : slice 0 (List.length l) l = l.
Proof. unfold slice. rewrite Nat.sub_0_r. apply firstn_all. Qed.

Lemma slice_length {A : Type} a b (l : list A) :
  (b <= List.length l)%nat -> List.length (slice a b l) = (b - a)%nat.
Proof.
  intros H. unfold slice. rewrite length_firstn, length_skipn. lia.
Qed.

Lemma slice_last {A : Type} a b (l : list A) d :
  (a < b)%nat -> (b <= List.length l)%nat ->
  last (slice a b l) d = nth (b - 1) l d.
Proof.
  intros H Hl. rewrite <- (slice_app a (b - 1) b l) by lia.
  rewrite (slice_cons (b - 1) b l d) by lia.
  rewrite (slice_empty (S (b - 1)) b) by lia. apply last_last.
Qed.

(** ** The partition *)

Lemma ceil_div_bounds n b :
  1 <= b ->
  (Spec.ceil_div n b - 1) * b < n <= Spec.ceil_div n b * b.
Proof.
  intros Hb. unfold Spec.ceil_div.
  pose proof (Z.div_mod (n + b - 1) b ltac:(lia)).
  pose proof (Z.mod_pos_bound (n + b - 1) b ltac:(lia)). nia.
Qed.

Lemma group_slice {A : Type} bsize (l : list A) k :
  0 <= k -> 0 <= bsize ->
  Spec.group bsize l k =
  slice (Z.to_nat (k * bsize))
        (Z.to_nat (Z.min ((k + 1) * bsize) (Z.of_nat (List.length l)))) l.
Proof.
  intros Hk Hb. unfold Spec.group, slice. cbv zeta. f_equal.
  assert (0 <= k * bsize) by nia. lia.
Qed.

Lemma folder_of_slice dir (l : list Path) lo hi :
  (lo < hi)%nat -> (hi <= List.length l)%nat ->
  Spec.folder_of dir (slice lo hi l) =
  match Re.re_search (name (nth lo l [])),
        Re.re_search (name (nth (hi - 1) l [])) with
  | Some start_num, Some end_num =>
      Some (dir // (name dir ++ "_" ++ start_num ++ "_" ++ end_num)%string)
  | _, _ => None
  end.
Proof.
  intros H Hl. pose proof (slice_last lo hi l (nth lo l []) H Hl) as HL.
  pose proof (slice_cons lo hi l [] H ltac:(lia)) as HC.
  destruct (slice lo hi l) as [|first rest]; [discriminate|].
  injection HC as -> _. unfold Spec.folder_of. rewrite HL.
  rewrite (nth_indep l (nth lo l []) []) by lia. reflexivity.
Qed.

Section PartitionFacts.
Context {W : Type} (os : OS W).

Lemma move_range_slice (l : list Path) folder n :
  forall a b w,
    0 <= a -> b <= Z.of_nat (List.length l) -> Z.to_nat (b - a) = n ->
    for_each (range a b)
             (fun i => src <- lift (getitem l i) ;; move_chapter os folder src) w
    = for_each (slice (Z.to_nat a) (Z.to_nat b) l) (move_chapter os folder) w.
Proof.
  induction n as [|n IH]; intros a b w Ha Hb Hn.
  - rewrite range_nil by lia. rewrite slice_empty by lia. reflexivity.
  - rewrite range_cons by lia.
    rewrite (slice_cons (Z.to_nat a) (Z.to_nat b) l []) by lia.
    cbn [for_each]. apply bind_congr.
    + rewrite (getitem_nth l a []) by lia. apply bind_lift_val.
    + intros _ w'. rewrite (IH (a + 1) b w') by lia.
      replace (Z.to_nat (a + 1)) with (S (Z.to_nat a)) by lia. reflexivity.
Qed.

Lemma search_group1_some p g :
  Re.re_search (name p) = Some g -> search_group1 (W := W) p = ret g.
Proof. intros H. unfold search_group1. rewrite H. reflexivity. Qed.

Lemma search_group1_none p :
  Re.re_search (name p) = None ->
  search_group1 (W := W) p = raise AttributeError.
Proof. intros H. unfold search_group1. rewrite H. reflexivity. Qed.

(** The loop over indices does what the specification's groups say. *)
Lemma batch_loop_groups bsize dir (l : list Path) :
  1 <= bsize ->
  forall n k fuel processed w,
    0 <= k ->
    k + Z.of_nat n = Spec.ceil_div (Z.of_nat (List.length l)) bsize ->
    (n <= fuel)%nat ->
    batch_loop os fuel bsize dir l
               (Z.min (k * bsize) (Z.of_nat (List.length l))) processed w
    = run_groups os dir
                 (map (Spec.group bsize l) (range k (k + Z.of_nat n)))
                 processed w.
Proof.
  intros HB.
  pose proof (ceil_div_bounds (Z.of_nat (List.length l)) bsize HB) as HC.
  set (N := Z.of_nat (List.length l)) in *.
  induction n as [|n IH]; intros k fuel processed w Hk Hkn Hfuel.
  - rewrite range_nil by lia. cbn [map run_groups].
    replace (Z.min (k * bsize) N) with N by nia.
    destruct fuel; cbn [batch_loop]; fold N; rewrite Z.ltb_irrefl;
      reflexivity.
  - assert (Hlt : k * bsize < N) by nia.
    replace (Z.min (k * bsize) N) with (k * bsize) by lia.
    destruct fuel as [|fuel]; [lia|].
    rewrite range_cons by lia. cbn [map run_groups batch_loop]. fold N.
    rewrite (proj2 (Z.ltb_lt _ _) Hlt).
    rewrite (group_slice bsize l k) by lia. fold N.
    set (lo := Z.to_nat (k * bsize)).
    set (hi := Z.to_nat (Z.min ((k + 1) * bsize) N)).
    assert (Hlo : (lo < hi)%nat) by (unfold lo, hi; nia).
    assert (Hhi : (hi <= List.length l)%nat) by (unfold hi, N; lia).
    rewrite (folder_of_slice dir l lo hi Hlo Hhi).
    rewrite (getitem_nth l (k * bsize) []) by (fold N; lia).
    rewrite bind_lift_val. fold lo.
    destruct (Re.re_search (name (nth lo l []))) as [start_num|] eqn:Es.
    2:{ rewrite (search_group1_none _ Es). reflexivity. }
    rewrite (search_group1_some _ _ Es), bind_ret.
    replace (Z.min (k * bsize + bsize - 1) (N - 1))
      with (Z.of_nat (hi - 1)) by (unfold hi; nia).
    rewrite (getitem_nth l (Z.of_nat (hi - 1)) []) by lia.
    rewrite Nat2Z.id, bind_lift_val.
    destruct (Re.re_search (name (nth (hi - 1) l []))) as [end_num|] eqn:Ee.
    2:{ rewrite (search_group1_none _ Ee). reflexivity. }
    rewrite (search_group1_some _ _ Ee), bind_ret.
    apply bind_congr; [reflexivity|]. intros _ w1.
    apply bind_congr; [reflexivity|]. intros _ w2.
    apply bind_congr.
    + unfold move_range.
      rewrite (move_range_slice l _ (hi - lo) (k * bsize)
                 (Z.of_nat (hi - 1) + 1) w2) by (unfold lo; lia).
      fold lo. replace (Z.to_nat (Z.of_nat (hi - 1) + 1)) with hi by lia.
      reflexivity.
    + intros _ w3.
      replace (Z.of_nat (hi - 1) + 1) with (Z.min ((k + 1) * bsize) N)
        by (unfold hi; lia).
      rewrite (IH (k + 1)) by lia.
      replace (k + 1 + Z.of_nat n) with (k + Z.of_nat (S n)) by lia.
      reflexivity.
Qed.

End PartitionFacts.

Lemma ceil_div_range n b : 1 <= b -> 0 <= n -> 0 <= Spec.ceil_div n b <= n.
Proof.
  intros Hb Hn. pose proof (ceil_div_bounds n b Hb). split; nia.
Qed.

Lemma range_length a b : List.length (range a b) = Z.to_nat (b - a).
Proof. unfold range. rewrite length_map, length_seq. reflexivity. Qed.

Lemma range_nth a b k :
  0 <= k < b - a -> nth (Z.to_nat k) (range a b) 0 = a + k.
Proof.
  intros H. unfold range.
  rewrite (nth_indep _ 0 (a + Z.of_nat 0)) by (rewrite length_map, length_seq; lia).
  rewrite (map_nth (fun k => a + Z.of_nat k)), seq_nth by lia. lia.
Qed.

Lemma range_In a b k : In k (range a b) <-> a <= k < b.
Proof.
  unfold range. rewrite in_map_iff. split.
  - intros (i & <- & Hi). apply in_seq in Hi. lia.
  - intros H. exists (Z.to_nat (k - a)). split; [lia|]. apply in_seq. lia.
Qed.

Lemma slice_In {A : Type} a b (l : list A) x : In x (slice a b l) -> In x l.
Proof.
  unfold slice. intros H.
  rewrite <- (firstn_skipn a l). apply in_or_app. right.
  rewrite <- (firstn_skipn (b - a) (skipn a l)). apply in_or_app. left.
  exact H.
Qed.

Section GroupFacts.
Context {A : Type} (bsize : Z) (l : list A) (Hb : 1 <= bsize).

Local Abbreviation N := (Z.of_nat (List.length l)).
Local Abbreviation lo k := (Z.to_nat (k * bsize)).
Local Abbreviation hi k := (Z.to_nat (Z.min ((k + 1) * bsize) N)).

Lemma groups_length :
  Z.of_nat (List.length (Spec.groups bsize l)) = Spec.ceil_div N bsize.
Proof.
  unfold Spec.groups. rewrite length_map, range_length.
  pose proof (ceil_div_range N bsize Hb ltac:(lia)). lia.
Qed.

Lemma groups_nth k :
  0 <= k < Spec.ceil_div N bsize ->
  nth (Z.to_nat k) (Spec.groups bsize l) [] = slice (lo k) (hi k) l.
Proof.
  intros Hk. unfold Spec.groups.
  rewrite (nth_indep _ [] (Spec.group bsize l 0))
    by (rewrite length_map, range_length; lia).
  rewrite map_nth, range_nth by lia. apply group_slice; lia.
Qed.

Lemma groups_In g :
  In g (Spec.groups bsize l) ->
  exists k, 0 <= k < Spec.ceil_div N bsize /\ g = slice (lo k) (hi k) l /\
            (lo k < hi k)%nat /\ (hi k <= List.length l)%nat.
Proof.
  unfold Spec.groups. rewrite in_map_iff.
  intros (k & <- & Hk). apply range_In in Hk. exists k.
  pose proof (ceil_div_bounds N bsize Hb).
  repeat split; try lia; try nia.
  apply group_slice; lia.
Qed.

Lemma groups_size g :
  In g (Spec.groups bsize l) -> 1 <= Z.of_nat (List.length g) <= bsize.
Proof.
  intros Hg. destruct (groups_In g Hg) as (k & Hk & -> & Hlt & Hle).
  rewrite slice_length by assumption. nia.
Qed.

Lemma groups_incl g x : In g (Spec.groups bsize l) -> In x g -> In x l.
Proof.
  intros Hg Hx. destruct (groups_In g Hg) as (k & _ & -> & _).
  eapply slice_In; eassumption.
Qed.

Lemma groups_concat_upto n k :
  0 <= k -> k + Z.of_nat n <= Spec.ceil_div N bsize ->
  List.concat (map (Spec.group bsize l) (range k (k + Z.of_nat n)))
  = slice (Z.to_nat (Z.min (k * bsize) N))
          (Z.to_nat (Z.min ((k + Z.of_nat n) * bsize) N)) l.
Proof.
  pose proof (ceil_div_bounds N bsize Hb) as HC.
  revert k. induction n as [|n IH]; intros k Hk Hkn.
  - rewrite range_nil by lia. simpl. rewrite slice_empty; [reflexivity|].
    rewrite Z.add_0_r. lia.
  - rewrite range_cons by lia. cbn [map List.concat].
    replace (k + Z.of_nat (S n)) with (k + 1 + Z.of_nat n) by lia.
    rewrite IH by lia. rewrite group_slice by lia.
    replace (Z.min (k * bsize) N) with (k * bsize) by nia.
    apply slice_app. nia.
Qed.

Lemma groups_concat : List.concat (Spec.groups bsize l) = l.
Proof.
  pose proof (ceil_div_bounds N bsize Hb) as HC.
  pose proof (ceil_div_range N bsize Hb ltac:(lia)) as HR.
  unfold Spec.groups.
  replace (Spec.ceil_div N bsize)
    with (0 + Z.of_nat (Z.to_nat (Spec.ceil_div N bsize))) at 1 by lia.
  rewrite groups_concat_upto by lia.
  replace (Z.min (0 * bsize) N) with 0 by lia.
  replace (Z.min _ N) with N by nia.
  rewrite Nat2Z.id. apply slice_all.
Qed.

End GroupFacts.

Lemma slice_nth_error {A : Type} a b (l : list A) i :
  (a + i < b)%nat -> nth_error (slice a b l) i = nth_error l (a + i).
Proof.
  intros H. unfold slice. rewrite nth_error_firstn.
  destruct (Nat.ltb_spec i (b - a)); [|lia]. apply nth_error_skipn.
Qed.

Lemma folder_of_named dir g folder :
  Spec.folder_of dir g = Some folder -> named_after dir folder g.
Proof.
  unfold Spec.folder_of, named_after. destruct g as [|first rest];
    [discriminate|].
  destruct (Re.re_search (name first)) as [s|] eqn:Es; [|discriminate].
  destruct (Re.re_search (name (last (first :: rest) first))) as [e|] eqn:Ee;
    [|discriminate].
  intros H. injection H as <-. exists first, s, e. auto.
Qed.

Lemma mkdirs_app t1 t2 : mkdirs (t1 ++ t2) = mkdirs t1 ++ mkdirs t2.
Proof. unfold mkdirs. apply flat_map_app. Qed.

Section RunGroups.
Context {W : Type} (os : OS W).

Lemma move_chapter_run folder src w :
  move_chapter os folder src w
  = ([Stdout ("  Moving " ++ name src ++ " to " ++ name folder ++ "/");
      Move (str src) (str (folder // name src))],
     move os w (str src) (str (folder // name src)), Val tt).
Proof. reflexivity. Qed.

Lemma for_each_move folder g :
  forall w, exists w',
    for_each g (move_chapter os folder) w = (move_trace folder g, w', Val tt).
Proof.
  induction g as [|src g IH]; intros w.
  - exists w. reflexivity.
  - destruct (IH (move os w (str src) (str (folder // name src))))
      as [w' Hw'].
    exists w'. cbn [for_each].
    rewrite (bind_val _ _ _ _ _ _ (move_chapter_run folder src w)), Hw'.
    reflexivity.
Qed.

Lemma mkdirs_move_trace folder g : mkdirs (move_trace folder g) = [].
Proof. induction g; simpl; auto. Qed.

(** One group with a folder name: the batch is made and the run goes on
    with the next group. *)
Lemma run_groups_step dir g gs folder processed w :
  Spec.folder_of dir g = Some folder ->
  exists w1,
    run_groups os dir (g :: gs) processed w
    = (let '(t2, w2, r2) := run_groups os dir gs (processed ++ [folder]) w1
       in (batch_trace folder g ++ t2, w2, r2)).
Proof.
  intros Hf. cbn [run_groups]. rewrite Hf.
  destruct (for_each_move folder g (mkdir os w folder)) as [w1 Hw1].
  exists w1.
  rewrite (bind_val (do_mkdir os folder) _ w [Mkdir folder]
             (mkdir os w folder) tt eq_refl).
  rewrite (bind_val (print _) _ (mkdir os w folder)
             [Stdout ("Creating batch folder: " ++ name folder)]
             (mkdir os w folder) tt eq_refl).
  rewrite (bind_val _ _ _ _ _ _ Hw1).
  destruct (run_groups os dir gs (processed ++ [folder]) w1)
    as [[t2 w2] r2].
  reflexivity.
Qed.

Lemma run_groups_ok dir gs :
  forall fs processed w,
    Forall2 (fun f g => Spec.folder_of dir g = Some f) fs gs ->
    exists w',
      run_groups os dir gs processed w
      = (flat_map (fun fg => batch_trace (fst fg) (snd fg)) (combine fs gs),
         w', Val (processed ++ fs)).
Proof.
  induction gs as [|g gs IH]; intros fs processed w HF.
  - inversion HF; subst. exists w. simpl. rewrite app_nil_r. reflexivity.
  - inversion HF as [|f g' fs' gs' Hf HF']; subst.
    destruct (run_groups_step dir g gs f processed w Hf) as [w1 E].
    destruct (IH fs' (processed ++ [f]) w1 HF') as [w' E'].
    exists w'. rewrite E, E'. rewrite <- app_assoc. reflexivity.
Qed.

Lemma run_groups_inv dir gs :
  forall processed w t w' r,
    run_groups os dir gs processed w = (t, w', r) ->
    exists j,
      Forall2 (named_after dir) (mkdirs t) (firstn j gs) /\
      forall folders, r = Val folders ->
        folders = processed ++ mkdirs t /\ j = List.length gs.
Proof.
  induction gs as [|g gs IH]; intros processed w t w' r H.
  - simpl in H. injection H as <- <- <-. exists O. split; [constructor|].
    intros folders E. injection E as <-. rewrite app_nil_r. auto.
  - destruct (Spec.folder_of dir g) as [folder|] eqn:Hf.
    + destruct (run_groups_step dir g gs folder processed w Hf) as [w1 E].
      rewrite E in H.
      destruct (run_groups os dir gs (processed ++ [folder]) w1)
        as [[t2 w2] r2] eqn:E2.
      assert (Et : t = batch_trace folder g ++ t2) by congruence.
      assert (Er : r = r2) by congruence. clear H. subst t r.
      destruct (IH _ _ _ _ _ E2) as (j & HF & HV).
      exists (S j).
      assert (Em : mkdirs (batch_trace folder g ++ t2) = folder :: mkdirs t2).
      { rewrite mkdirs_app. unfold batch_trace.
        change (mkdirs (Mkdir folder :: Stdout _ :: move_trace folder g))
          with (folder :: mkdirs (move_trace folder g)).
        rewrite mkdirs_move_trace. reflexivity. }
      rewrite Em. split.
      * cbn [firstn].
        constructor; [apply folder_of_named; assumption|assumption].
      * intros folders Er. destruct (HV folders Er) as [-> ->].
        rewrite <- app_assoc. auto.
    + cbn [run_groups] in H. rewrite Hf in H.
      injection H as <- <- <-. exists O. split; [constructor|].
      intros folders E. discriminate E.
Qed.

(** The run over the groups ends: with a value or with an exception. *)
Lemma run_groups_ends dir gs :
  forall processed w, snd (run_groups os dir gs processed w) <> Diverge.
Proof.
  induction gs as [|g gs IH]; intros processed w.
  - discriminate.
  - destruct (Spec.folder_of dir g) as [folder|] eqn:Hf.
    + destruct (run_groups_step dir g gs folder processed w Hf) as [w1 E].
      rewrite E. specialize (IH (processed ++ [folder]) w1).
      destruct (run_groups os dir gs (processed ++ [folder]) w1)
        as [[t2 w2] r2].
      exact IH.
    + cbn [run_groups]. rewrite Hf. discriminate.
Qed.

Lemma partition_groups bsize dir (l : list Path) w :
  1 <= bsize ->
  partition os bsize dir l w = run_groups os dir (Spec.groups bsize l) [] w.
Proof.
  intros Hb. unfold partition, Spec.groups.
  pose proof (ceil_div_range (Z.of_nat (List.length l)) bsize Hb
                ltac:(lia)) as HR.
  set (c := Spec.ceil_div (Z.of_nat (List.length l)) bsize) in *.
  replace c with (0 + Z.of_nat (Z.to_nat c)) at 1 by lia.
  rewrite <- (batch_loop_groups os bsize dir l Hb (Z.to_nat c) 0
                (List.length l) [] w) by lia.
  f_equal. lia.
Qed.

(** With a positive batch size the [while] loop of the partitioner exits
    within the turns it is given. *)
Lemma partition_ends bsize dir (l : list Path) w :
  1 <= bsize -> snd (partition os bsize dir l w) <> Diverge.
Proof.
  intros Hb. rewrite (partition_groups bsize dir l w Hb).
  apply run_groups_ends.
Qed.

End RunGroups.

(** ** The chapter key *)

Lemma small_numeral_below_maxsize (ds fs : list ascii) :
  all_digits ds = true -> (List.length ds + List.length fs <= 15)%nat ->
  PyFloat.digits_value ds < maxsize.
Proof.
  intros Hds Hlen. pose proof (digits_value_bound ds Hds) as B.
  assert (10 ^ Z.of_nat (List.length ds) <= 10 ^ 15)
    by (apply Z.pow_le_mono_r; lia).
  assert (10 ^ 15 < maxsize) by reflexivity. lia.
Qed.

(** The key of a matching name, from the digits of its numeral. *)
Lemma key_of_match dir_path g ds fs :
  Re.re_match (name dir_path) = Some g ->
  PyFloat.parse_numeral (list_ascii_of_string g) = Some (ds, fs) ->
  (List.length ds + List.length fs <= 15)%nat ->
  chapter_sort_key dir_path = Val (PyFloat.digits_value ds) /\
  PyFloat.digits_value ds < maxsize.
Proof.
  intros Hm Hp Hlen. unfold chapter_sort_key. rewrite Hm.
  unfold Re.re_match in Hm.
  destruct (Re.match_at (list_ascii_of_string (name dir_path)))
    as [g'|] eqn:Hg; [|discriminate].
  simpl in Hm. injection Hm as <-.
  destruct (match_at_inv _ _ Hg)
    as (c & ds0 & fs0 & rest & _ & -> & _ & Hne & Hds & Hfs & _).
  rewrite list_ascii_of_string_of_list_ascii in Hp.
  rewrite (parse_numeral_text ds0 fs0 Hne Hds Hfs) in Hp.
  injection Hp as -> ->.
  rewrite (int_float_numeral ds fs Hne Hds Hfs Hlen).
  split; [reflexivity|]. eapply small_numeral_below_maxsize; eassumption.
Qed.

Lemma match_parses dir_path g :
  Re.re_match (name dir_path) = Some g ->
  exists ds fs,
    PyFloat.parse_numeral (list_ascii_of_string g) = Some (ds, fs).
Proof.
  unfold Re.re_match. intros Hm.
  destruct (Re.match_at (list_ascii_of_string (name dir_path)))
    as [g'|] eqn:Hg; [|discriminate].
  simpl in Hm. injection Hm as <-.
  destruct (match_at_inv _ _ Hg)
    as (c & ds & fs & rest & _ & -> & _ & Hne & Hds & Hfs & _).
  exists ds, fs. rewrite list_ascii_of_string_of_list_ascii.
  apply parse_numeral_text; assumption.
Qed.

(** C2.  The key of a name that matches the chapter pattern is
    the integer part of the matched numeral whenever the numeral has at
    most fifteen digits, integer and fractional digits together (so
    [c7], [c7.9], [C10], [c12.5] and [c12.9] have the keys 7, 7, 10, 12
    and 12); the key of a name that does not match is the sentinel
    [sys.maxsize]; and in the sorted chapter list every entry whose name
    does not match comes strictly after every entry whose key is below the
    sentinel. *)
Theorem chapter_key_integer_part :
  (chapter_sort_key ["c7"] = Val 7 /\
   chapter_sort_key ["c7.9"] = Val 7 /\
   chapter_sort_key ["C10"] = Val 10 /\
   chapter_sort_key ["c12.5"] = Val 12 /\
   chapter_sort_key ["c12.9"] = Val 12) /\
  (forall dir_path g,
     Re.re_match (name dir_path) = Some g ->
     exists ds fs,
       PyFloat.parse_numeral (list_ascii_of_string g) = Some (ds, fs)) /\
  (forall dir_path g ds fs,
     Re.re_match (name dir_path) = Some g ->
     PyFloat.parse_numeral (list_ascii_of_string g) = Some (ds, fs) ->
     (List.length ds + List.length fs <= 15)%nat ->
     chapter_sort_key dir_path = Val (PyFloat.digits_value ds) /\
     PyFloat.digits_value ds < maxsize) /\
  (forall dir_path,
     Re.re_match (name dir_path) = None ->
     chapter_sort_key dir_path = Val maxsize) /\
  (forall l l',
     sorted chapter_sort_key l = Val l' ->
     Permutation l l' /\
     forall i j a b k,
       nth_error l' i = Some a -> nth_error l' j = Some b ->
       chapter_sort_key a = Val k -> k < maxsize ->
       Re.re_match (name b) = None ->
       (i < j)%nat).
Proof.
  split; [repeat split; vm_compute; reflexivity|].
  split; [exact match_parses|].
  split; [exact key_of_match|].
  assert (Hnone : forall dir_path, Re.re_match (name dir_path) = None ->
                                   chapter_sort_key dir_path = Val maxsize).
  { intros dir_path H. unfold chapter_sort_key. rewrite H. reflexivity. }
  split; [exact Hnone|].
  intros l l' Hs. destruct (sorted_spec chapter_sort_key l l' Hs) as [HP Hord].
  split; [exact HP|].
  intros i j a b k Hi Hj Ka Hk Hb.
  exact (Hord i j a b k maxsize Hi Hj Ka (Hnone b Hb) Hk).
Qed.

Lemma chapter_key_integer_part_witness :
  chapter_sort_key ["archive"; "c12.9"] = Val 12 /\
  chapter_sort_key ["archive"; "cover"] = Val maxsize /\
  (2 < 3)%nat.
Proof.
  destruct chapter_key_integer_part as (_ & _ & Hm & Hn & Hs).
  split; [|split].
  - exact (proj1 (Hm ["archive"; "c12.9"] "12.9"
                     ["1"; "2"]%char ["9"]%char eq_refl eq_refl
                     (le_S _ _ (le_S _ _ (le_S _ _ (le_S _ _ (le_S _ _
                      (le_S _ _ (le_S _ _ (le_S _ _ (le_S _ _ (le_S _ _
                      (le_S _ _ (le_S _ _ (le_n 3))))))))))))))).
  - exact (Hn ["archive"; "cover"] eq_refl).
  - exact (proj2 (Hs [["cover"]; ["c3"]; ["c1.5"]; ["c2"]]
                     [["c1.5"]; ["c2"]; ["c3"]; ["cover"]] eq_refl)
                 2%nat 3%nat ["c3"] ["cover"] 3 eq_refl eq_refl eq_refl
                 eq_refl eq_refl).
Defined.

(** A numeral of more than fifteen digits: the key of [c100000000000000000001]
    is not the integer part of the numeral. *)
Lemma chapter_key_rounds_long_numeral :
  Re.re_match "c100000000000000000001" = Some "100000000000000000001" /\
  chapter_sort_key ["c100000000000000000001"] = Val 100000000000000000000 /\
  chapter_sort_key ["c100000000000000000001"] <> Val 100000000000000000001 /\
  chapter_sort_key ["c0.99999999999999999999"] = Val 1.
Proof.
  repeat split; try (vm_compute; reflexivity).
  vm_compute. discriminate.
Qed.

(** C3.  The leading [c] of the pattern is required, in either
    case: a name that begins directly with a digit does not match and has
    the sentinel key, and [C] and [c] give the same key. *)
Theorem chapter_key_requires_c dir d rest :
  is_digit d = true ->
  Re.re_match (String d rest) = None /\
  chapter_sort_key (dir // String d rest) = Val maxsize /\
  forall s,
    chapter_sort_key (dir // String "C" s)
    = chapter_sort_key (dir // String "c" s).
Proof.
  intros Hd. pose proof (digit_not_c d Hd) as Hc.
  assert (Hm : Re.re_match (String d rest) = None).
  { unfold Re.re_match. simpl. rewrite Hc. reflexivity. }
  split; [exact Hm|]. split.
  - unfold chapter_sort_key. rewrite name_joinpath, Hm. reflexivity.
  - intros s. unfold chapter_sort_key. rewrite !name_joinpath. reflexivity.
Qed.

Lemma chapter_key_requires_c_witness :
  is_digit "1" = true /\
  Re.re_match "12.5" = None /\
  chapter_sort_key ([] // "12.5") = Val maxsize.
Proof.
  split; [reflexivity|].
  destruct (chapter_key_requires_c [] "1"%char "2.5" eq_refl) as (H1 & H2 & _).
  split; [exact H1|exact H2].
Defined.

(** Names that begin directly with a number: the pattern does not match
    them, and their key is the sentinel, not the number. *)
Lemma chapter_key_bare_number :
  Re.re_match "12" = None /\
  chapter_sort_key ["12"] = Val maxsize /\
  chapter_sort_key ["12"] <> Val 12 /\
  chapter_sort_key ["12.5"] = Val maxsize.
Proof.
  repeat split; try reflexivity. vm_compute. discriminate.
Qed.

(** C4.  On the name [c1000...0] (a one and 309 zeros) the numeral is
    beyond the largest float, [float] gives infinity and [int] raises
    [OverflowError], which the [except ValueError] clause does not catch;
    [OverflowError] is the only exception the function raises. *)
Theorem chapter_key_overflow :
  chapter_sort_key [overflow_name] = Raise OverflowError /\
  forall dir_path,
    (exists k, chapter_sort_key dir_path = Val k) \/
    chapter_sort_key dir_path = Raise OverflowError.
Proof.
  split; [vm_compute; reflexivity|].
  intros dir_path. unfold chapter_sort_key.
  destruct (Re.re_match (name dir_path)) as [g|]; [|left; eauto].
  unfold PyFloat.float_of_string.
  destruct (PyFloat.parse_numeral (list_ascii_of_string g)) as [[ds fs]|];
    [|left; simpl; eauto].
  simpl res_bind.
  destruct (PyFloat.nearest _ _) as [m e|]; simpl; [left; eauto|right; auto].
Qed.

(** C9.  The pattern is anchored at the start of the name only:
    a name made of [c], digits and any suffix matches, the numeral it
    captures starts with those digits and stops where the suffix no longer
    continues it, and whenever that numeral has at most fifteen digits the
    key is its integer part (12 for [c12abc], [c12.5.7] and [c12 extra]),
    not the sentinel. *)
Theorem chapter_key_ignores_suffix dir c ds suffix :
  is_c c = true -> ds <> [] -> all_digits ds = true ->
  exists more fs rest,
    ds ++ suffix = (ds ++ more) ++ frac fs ++ rest /\
    all_digits more = true /\ all_digits fs = true /\
    ends_numeral fs rest = true /\
    (starts_with_digit suffix = false -> more = []) /\
    Re.re_match (string_of_list_ascii (c :: ds ++ suffix))
    = Some (string_of_list_ascii ((ds ++ more) ++ frac fs)) /\
    ((List.length (ds ++ more) + List.length fs <= 15)%nat ->
     chapter_sort_key (dir // string_of_list_ascii (c :: ds ++ suffix))
     = Val (PyFloat.digits_value (ds ++ more)) /\
     PyFloat.digits_value (ds ++ more) < maxsize).
Proof.
  intros Hc Hne Hds.
  assert (Hd : starts_with_digit (ds ++ suffix) = true).
  { destruct ds as [|d ds0]; [contradiction|]. simpl in *.
    apply andb_prop in Hds as [Hd _]. exact Hd. }
  destruct (numeral_decompose _ Hd)
    as (ds' & fs & rest & E & Eds & Hne' & Hds' & Hfs & Hend).
  rewrite (span_digits_app ds suffix Hds) in Eds. simpl in Eds.
  set (more := fst (Re.span_digits suffix)) in *.
  destruct (span_digits_spec suffix) as (_ & Hmore & _). fold more in Hmore.
  subst ds'. exists more, fs, rest.
  assert (Hm : Re.re_match (string_of_list_ascii (c :: ds ++ suffix))
               = Some (string_of_list_ascii ((ds ++ more) ++ frac fs))).
  { unfold Re.re_match. rewrite list_ascii_of_string_of_list_ascii.
    unfold Re.match_at. rewrite Hc, E.
    rewrite (group_at_numeral _ fs rest Hne' Hds' Hfs Hend). reflexivity. }
  repeat split; try assumption.
  - intros Hs. unfold more. rewrite (span_digits_stop suffix Hs). reflexivity.
  - rewrite E. apply key_of_numeral; assumption.
  - eapply small_numeral_below_maxsize; eassumption.
Qed.

Lemma chapter_key_ignores_suffix_witness :
  chapter_sort_key ["c12abc"] = Val 12 /\
  chapter_sort_key ["c12.5.7"] = Val 12 /\
  chapter_sort_key ["c12 extra"] = Val 12 /\
  exists more fs rest,
    ["1"; "2"]%char ++ ["a"; "b"; "c"]%char
    = (["1"; "2"]%char ++ more) ++ frac fs ++ rest /\
    all_digits more = true /\ all_digits fs = true /\
    ends_numeral fs rest = true /\
    (starts_with_digit ["a"; "b"; "c"]%char = false -> more = []) /\
    Re.re_match (string_of_list_ascii
                   ("c"%char :: ["1"; "2"]%char ++ ["a"; "b"; "c"]%char))
    = Some (string_of_list_ascii ((["1"; "2"]%char ++ more) ++ frac fs)) /\
    ((List.length (["1"; "2"]%char ++ more) + List.length fs <= 15)%nat ->
     chapter_sort_key
       ([] // string_of_list_ascii
               ("c"%char :: ["1"; "2"]%char ++ ["a"; "b"; "c"]%char))
     = Val (PyFloat.digits_value (["1"; "2"]%char ++ more)) /\
     PyFloat.digits_value (["1"; "2"]%char ++ more) < maxsize).
Proof.
  split; [reflexivity|]. split; [reflexivity|]. split; [reflexivity|].
  apply (chapter_key_ignores_suffix [] "c"%char ["1"; "2"]%char
           ["a"; "b"; "c"]%char eq_refl).
  - discriminate.
  - reflexivity.
Defined.

(** A name of the form [c], digits, suffix with a numeral of more than
    fifteen digits: the key is not the integer part of the numeral. *)
Lemma chapter_key_suffix_long_numeral :
  chapter_sort_key ["c100000000000000000001abc"] = Val 100000000000000000000 /\
  chapter_sort_key ["c100000000000000000001abc"]
  <> Val 100000000000000000001 /\
  chapter_sort_key ["c1.99999999999999999999 extra"] = Val 2.
Proof.
  repeat split; try (vm_compute; reflexivity).
  vm_compute. discriminate.
Qed.

(** ** The batches *)

Lemma Forall2_exists {A B : Type} (P : A -> B -> Prop) (bs : list B) :
  (forall b, In b bs -> exists a, P a b) -> exists l, Forall2 P l bs.
Proof.
  induction bs as [|b bs IH]; intros H.
  - exists []. constructor.
  - destruct (H b (or_introl eq_refl)) as [a Ha].
    destruct (IH (fun b' Hb' => H b' (or_intror Hb'))) as [l Hl].
    exists (a :: l). constructor; assumption.
Qed.

Lemma last_In {A : Type} (l : list A) d : l <> [] -> In (last l d) l.
Proof.
  induction l as [|a [|b t] IH]; intros H; [contradiction|left; reflexivity|].
  right. apply IH. discriminate.
Qed.

(** Where every chapter name has a numeral, every group has a folder. *)
Lemma groups_have_folders bsize dir (l : list Path) :
  1 <= bsize ->
  Forall (fun d => Re.re_search (name d) <> None) l ->
  exists folders,
    Forall2 (fun f g => Spec.folder_of dir g = Some f)
            folders (Spec.groups bsize l).
Proof.
  intros Hb Hall. apply Forall2_exists. intros g Hg.
  pose proof (groups_size bsize l Hb g Hg) as Hsize.
  rewrite Forall_forall in Hall.
  destruct g as [|first rest]; [simpl in Hsize; lia|].
  unfold Spec.folder_of.
  assert (H1 : Re.re_search (name first) <> None).
  { apply Hall. eapply groups_incl; [exact Hb|exact Hg|left; reflexivity]. }
  assert (H2 : Re.re_search (name (last (first :: rest) first)) <> None).
  { apply Hall. eapply groups_incl; [exact Hb|exact Hg|].
    apply last_In. discriminate. }
  destruct (Re.re_search (name first)); [|contradiction].
  destruct (Re.re_search (name (last (first :: rest) first)));
    [|contradiction].
  eauto.
Qed.

(** ** Batches and their folders *)

Lemma string_length_append (a b : string) :
  String.length (a ++ b) = (String.length a + String.length b)%nat.
Proof. induction a as [|c a IH]; simpl; [reflexivity|]. rewrite IH. reflexivity. Qed.

Lemma string_append_assoc (a b c : string) :
  ((a ++ b) ++ c = a ++ (b ++ c))%string.
Proof. induction a as [|x a IH]; simpl; [reflexivity|]. rewrite IH. reflexivity. Qed.

Lemma string_append_inv_head (s a b : string) :
  (s ++ a = s ++ b)%string -> a = b.
Proof.
  induction s as [|c s IH]; simpl; intros H; [exact H|].
  injection H as H. exact (IH H).
Qed.

Lemma string_append_inv_tail (s : string) :
  forall a b : string, (a ++ s = b ++ s)%string -> a = b.
Proof.
  induction a as [|x a IH]; intros [|y b] H.
  - reflexivity.
  - exfalso. apply (f_equal String.length) in H.
    simpl in H. rewrite string_length_append in H. lia.
  - exfalso. apply (f_equal String.length) in H.
    simpl in H. rewrite string_length_append in H. lia.
  - simpl in H. injection H as -> H. f_equal. exact (IH b H).
Qed.

(** [str] of a path with one more component. *)
Lemma str_joinpath (p : Path) (c : string) :
  str (p // c) = match p with
                 | [] => c
                 | _ => (str p ++ "/" ++ c)%string
                 end.
Proof.
  unfold str, joinpath. induction p as [|x p IH]; [reflexivity|].
  destruct p as [|y p].
  - reflexivity.
  - change (String.concat "/" ((x :: y :: p) ++ [c]))
      with (x ++ "/" ++ String.concat "/" ((y :: p) ++ [c]))%string.
    rewrite IH.
    change (String.concat "/" (x :: y :: p))
      with (x ++ "/" ++ String.concat "/" (y :: p))%string.
    rewrite !string_append_assoc. reflexivity.
Qed.

(** Two folders of one directory that hold an entry of the same name at
    the same path are the same folder. *)
Lemma same_destination dir n n' nm :
  str (dir // n // nm) = str (dir // n' // nm) -> n = n'.
Proof.
  intros H.
  assert (Hne : forall m, exists x p, dir // m = x :: p).
  { intros m. unfold joinpath. destruct dir; simpl; eauto. }
  destruct (Hne n) as (x & p & E1), (Hne n') as (x' & p' & E2).
  rewrite E1, E2, !str_joinpath in H. cbv iota in H.
  apply string_append_inv_tail in H.
  rewrite <- E1, <- E2, !str_joinpath in H.
  destruct dir as [|d dir]; [exact H|].
  apply string_append_inv_head in H.
  exact (string_append_inv_head _ _ _ H).
Qed.

Lemma replay_app {W : Type} (os : OS W) t1 t2 (w : W) :
  replay os (t1 ++ t2) w = replay os t2 (replay os t1 w).
Proof. unfold replay. apply fold_left_app. Qed.

Lemma for_each_move_replay {W : Type} (os : OS W) folder g :
  forall w : W,
    for_each g (move_chapter os folder) w
    = (move_trace folder g, replay os (move_trace folder g) w, Val tt).
Proof.
  induction g as [|src g IH]; intros w; [reflexivity|].
  cbn [for_each].
  rewrite (bind_val _ _ _ _ _ _ (move_chapter_run os folder src w)), IH.
  reflexivity.
Qed.

Lemma run_groups_replay {W : Type} (os : OS W) dir gs :
  forall fs processed (w : W),
    Forall2 (fun f g => Spec.folder_of dir g = Some f) fs gs ->
    run_groups os dir gs processed w
    = (flat_map (fun fg => batch_trace (fst fg) (snd fg)) (combine fs gs),
       replay os (flat_map (fun fg => batch_trace (fst fg) (snd fg))
                           (combine fs gs)) w,
       Val (processed ++ fs)).
Proof.
  induction gs as [|g gs IH]; intros fs processed w HF.
  - inversion HF; subst. simpl. rewrite app_nil_r. reflexivity.
  - inversion HF as [|f g' fs' gs' Hf HF']; subst.
    cbn [run_groups]. rewrite Hf.
    rewrite (bind_val (do_mkdir os f) _ w [Mkdir f] (mkdir os w f) tt eq_refl).
    rewrite (bind_val (print _) _ (mkdir os w f)
               [Stdout ("Creating batch folder: " ++ name f)]
               (mkdir os w f) tt eq_refl).
    rewrite (bind_val _ _ _ _ _ _ (for_each_move_replay os f g (mkdir os w f))).
    rewrite (IH fs' (processed ++ [f]) _ HF').
    cbn [combine flat_map fst snd]. rewrite replay_app.
    rewrite <- !app_assoc. reflexivity.
Qed.

Lemma moves_app t1 t2 : moves (t1 ++ t2) = moves t1 ++ moves t2.
Proof. unfold moves. apply flat_map_app. Qed.

Lemma moves_batch_trace folder g :
  moves (batch_trace folder g)
  = map (fun src => (str src, str (folder // name src))) g.
Proof.
  unfold batch_trace.
  change (moves (Mkdir folder :: Stdout _ :: move_trace folder g))
    with (moves (move_trace folder g)).
  induction g as [|src g IH]; [reflexivity|].
  simpl. f_equal. exact IH.
Qed.

Lemma sources_of_moves (fs : list Path) (gs : list (list Path)) :
  List.length fs = List.length gs ->
  map fst (flat_map (fun fg => map (fun src => (str src,
                                                str (fst fg // name src)))
                                   (snd fg))
                    (combine fs gs))
  = map str (List.concat gs).
Proof.
  revert gs. induction fs as [|f fs IH]; intros [|g gs] H;
    try discriminate; [reflexivity|].
  cbn [combine flat_map List.concat fst snd].
  rewrite !map_app, map_map. cbn [fst]. f_equal.
  apply IH. simpl in H. lia.
Qed.

Lemma moves_batches (fgs : list (Path * list Path)) :
  moves (flat_map (fun fg => batch_trace (fst fg) (snd fg)) fgs)
  = flat_map (fun fg => map (fun src => (str src, str (fst fg // name src)))
                            (snd fg)) fgs.
Proof.
  induction fgs as [|fg fgs IH]; [reflexivity|].
  cbn [flat_map]. rewrite moves_app, moves_batch_trace, IH. reflexivity.
Qed.

(** Whether a batch moved [src] into [folder]. *)
Lemma moved_batch_trace src folder f g :
  existsb (moved src folder) (batch_trace f g)
  = existsb (fun s => ((str s =? str src)
                       && (str (f // name s) =? str (folder // name src)))%string)
            g.
Proof.
  unfold batch_trace. cbn [existsb moved orb].
  induction g as [|s g IH]; [reflexivity|].
  cbn [move_trace flat_map app existsb moved orb]. rewrite <- IH. reflexivity.
Qed.

Lemma moved_batches src folder (fgs : list (Path * list Path)) :
  existsb (moved src folder)
          (flat_map (fun fg => batch_trace (fst fg) (snd fg)) fgs) = true <->
  exists f g s,
    In (f, g) fgs /\ In s g /\ str s = str src /\
    str (f // name s) = str (folder // name src).
Proof.
  induction fgs as [|[f g] fgs IH].
  - simpl. split; [discriminate|]. intros (f & g & s & [] & _).
  - cbn [flat_map fst snd]. rewrite existsb_app, orb_true_iff, IH.
    rewrite moved_batch_trace, existsb_exists. split.
    + intros [(s & Hs & H)|(f' & g' & s & Hin & H)].
      * apply andb_prop in H as [H1 H2].
        apply String.eqb_eq in H1, H2.
        exists f, g, s. repeat split; auto. left. reflexivity.
      * exists f', g', s. split; [right; exact Hin|exact H].
    + intros (f' & g' & s & [E|Hin] & Hs & H1 & H2).
      * injection E as <- <-. left. exists s. split; [exact Hs|].
        apply andb_true_intro. split; apply String.eqb_eq; assumption.
      * right. exists f', g', s. auto.
Qed.

Lemma combine_nth_error_In {A B : Type} (fs : list A) (gs : list B) k f g :
  nth_error fs k = Some f -> nth_error gs k = Some g ->
  In (f, g) (combine fs gs).
Proof.
  revert fs gs. induction k as [|k IH]; intros [|f0 fs] [|g0 gs] Hf Hg;
    try discriminate.
  - injection Hf as ->. injection Hg as ->. left. reflexivity.
  - right. exact (IH fs gs Hf Hg).
Qed.

Lemma combine_NoDup_fun {A B : Type} (fs : list A) (gs : list B) f g1 g2 :
  NoDup fs -> In (f, g1) (combine fs gs) -> In (f, g2) (combine fs gs) ->
  g1 = g2.
Proof.
  revert gs. induction fs as [|f0 fs IH]; intros [|g0 gs] Hnd H1 H2;
    try contradiction.
  inversion Hnd as [|? ? Hnotin Hnd']; subst.
  destruct H1 as [E1|H1], H2 as [E2|H2].
  - congruence.
  - injection E1 as -> _. apply in_combine_l in H2. contradiction.
  - injection E2 as -> _. apply in_combine_l in H1. contradiction.
  - exact (IH gs Hnd' H1 H2).
Qed.

Lemma NoDup_app_disjoint {A : Type} (a b : list A) x :
  NoDup (a ++ b) -> In x a -> In x b -> False.
Proof.
  induction a as [|y a IH]; intros Hnd Ha Hb; [contradiction|].
  inversion Hnd as [|? ? Hnotin Hnd']; subst.
  destruct Ha as [->|Ha].
  - apply Hnotin. apply in_or_app. right. exact Hb.
  - exact (IH Hnd' Ha Hb).
Qed.

Lemma filter_none {A : Type} (p : A -> bool) l :
  (forall x, In x l -> p x = false) -> filter p l = [].
Proof.
  induction l as [|a l IH]; intros H; [reflexivity|].
  cbn [filter]. rewrite (H a (or_introl eq_refl)).
  apply IH. intros x Hx. apply H. right. exact Hx.
Qed.

Lemma filter_all {A : Type} (p : A -> bool) l :
  (forall x, In x l -> p x = true) -> filter p l = l.
Proof.
  induction l as [|a l IH]; intros H; [reflexivity|].
  cbn [filter]. rewrite (H a (or_introl eq_refl)). f_equal.
  apply IH. intros x Hx. apply H. right. exact Hx.
Qed.

(** In a list without repetition, the elements that satisfy a test which
    picks the members of a segment are that segment. *)
Lemma filter_segment {A : Type} (p : A -> bool) (l1 g l2 : list A) :
  NoDup (l1 ++ g ++ l2) ->
  (forall x, In x (l1 ++ g ++ l2) -> (p x = true <-> In x g)) ->
  filter p (l1 ++ g ++ l2) = g.
Proof.
  intros Hnd Hp. rewrite !filter_app.
  rewrite (filter_none p l1), (filter_all p g), (filter_none p l2).
  - rewrite app_nil_r. reflexivity.
  - intros x Hx. destruct (p x) eqn:E; [|reflexivity]. exfalso.
    assert (Hin : In x (l1 ++ g ++ l2))
      by (apply in_or_app; right; apply in_or_app; right; exact Hx).
    apply Hp in E; [|exact Hin].
    apply NoDup_app_remove_l in Hnd.
    exact (NoDup_app_disjoint g l2 x Hnd E Hx).
  - intros x Hx. apply Hp; [|exact Hx].
    apply in_or_app. right. apply in_or_app. left. exact Hx.
  - intros x Hx. destruct (p x) eqn:E; [|reflexivity]. exfalso.
    assert (Hin : In x (l1 ++ g ++ l2)) by (apply in_or_app; left; exact Hx).
    apply Hp in E; [|exact Hin].
    apply (NoDup_app_disjoint l1 (g ++ l2) x Hnd Hx).
    apply in_or_app. left. exact E.
Qed.

(** Batches with distinct folders of one directory, made from distinct
    chapters: the chapters moved into the folder of a group are the
    members of the group. *)
Lemma moved_into_group dir (fs : list Path) (gs : list (list Path)) k f g :
  NoDup (map str (List.concat gs)) ->
  NoDup fs ->
  Forall (fun f => exists n, f = dir // n) fs ->
  nth_error fs k = Some f -> nth_error gs k = Some g ->
  moved_into (flat_map (fun fg => batch_trace (fst fg) (snd fg))
                       (combine fs gs))
             (List.concat gs) f
  = g.
Proof.
  intros Hstr Hnd Hdir Hf Hg.
  pose proof (NoDup_map_inv _ _ Hstr) as Hl.
  assert (Hinj : forall a b, In a (List.concat gs) -> In b (List.concat gs) ->
                             str a = str b -> a = b).
  { clear -Hstr. induction (List.concat gs) as [|x l IH];
      intros a b Ha Hb E; [contradiction|].
    cbn [map] in Hstr. inversion Hstr as [|? ? Hnotin Hnd']; subst.
    destruct Ha as [->|Ha], Hb as [->|Hb].
    - reflexivity.
    - exfalso. apply Hnotin. rewrite E. apply in_map. exact Hb.
    - exfalso. apply Hnotin. rewrite <- E. apply in_map. exact Ha.
    - exact (IH Hnd' a b Ha Hb E). }
  destruct (nth_error_split gs k Hg) as (gs1 & gs2 & Egs & _).
  assert (Ec : List.concat gs
               = List.concat gs1 ++ g ++ List.concat gs2).
  { rewrite Egs, concat_app. reflexivity. }
  unfold moved_into. rewrite Ec. apply filter_segment.
  { rewrite <- Ec. exact Hl. }
  rewrite <- Ec. intros src Hsrc. rewrite moved_batches. split.
  - intros (f' & g' & s & Hin & Hs & E1 & E2).
    assert (Hsl : In s (List.concat gs)).
    { apply in_concat. exists g'. split; [|exact Hs].
      exact (in_combine_r _ _ _ _ Hin). }
    assert (s = src) as -> by (apply Hinj; assumption).
    rewrite Forall_forall in Hdir.
    destruct (Hdir f' (in_combine_l _ _ _ _ Hin)) as [n' ->].
    destruct (Hdir f (nth_error_In _ _ Hf)) as [n ->].
    apply same_destination in E2. subst n'.
    rewrite (combine_NoDup_fun fs gs (dir // n) g g' Hnd
               (combine_nth_error_In _ _ _ _ _ Hf Hg) Hin).
    exact Hs.
  - intros Hin. exists f, g, src.
    split; [exact (combine_nth_error_In _ _ _ _ _ Hf Hg)|]. auto.
Qed.

(** C1.  For every ordered list of N >= 1 distinct chapter directories
    in which every directory name contains a numeral that the extraction
    pattern finds, no two groups get the same folder name and no chapter
    directory is itself the folder of a group, and every batch size
    B >= 1, the partitioner makes exactly ceil(N/B) batches, in distinct
    folders; batch k holds exactly the chapters at the ordered
    indices k*B .. min((k+1)*B, N) - 1, and these are the chapters moved
    into its folder; every batch has between 1 and B members; and the
    batches, in order, make up the list, every chapter being moved exactly
    once, so that every chapter is in exactly one batch and every batch is
    a contiguous slice of the sorted order. *)
Theorem partition_into_batches {W : Type} (os : OS W) bsize dir
        (l : list Path) (w : W) :
  1 <= bsize -> 1 <= Z.of_nat (List.length l) ->
  Forall (fun d => Re.re_search (name d) <> None) l ->
  NoDup (map str l) ->
  NoDup (map (Spec.folder_of dir) (Spec.groups bsize l)) ->
  Forall (fun d => ~ In (Some d) (map (Spec.folder_of dir)
                                      (Spec.groups bsize l))) l ->
  partitions_into_batches os bsize dir l w.
Proof.
  intros Hb Hn Hall Hstr Hfold _. unfold partitions_into_batches. cbv zeta.
  destruct (groups_have_folders bsize dir l Hb Hall) as [folders HF].
  exists folders.
  pose proof (groups_length bsize l Hb) as HL.
  pose proof (groups_concat bsize l Hb) as HC.
  pose proof (Forall2_length HF) as Hlen.
  assert (Hnamed : Forall2 (named_after dir) folders (Spec.groups bsize l)).
  { clear -HF. induction HF; constructor; auto using folder_of_named. }
  assert (Hnd : NoDup folders).
  { assert (E : map (Spec.folder_of dir) (Spec.groups bsize l)
                = map Some folders).
    { clear -HF. induction HF as [|f g fs gs Hf _ IH]; [reflexivity|].
      cbn [map]. rewrite Hf, IH. reflexivity. }
    rewrite E in Hfold. exact (NoDup_map_inv _ _ Hfold). }
  assert (Hdir : Forall (fun f => exists n, f = dir // n) folders).
  { clear -Hnamed. induction Hnamed as [|f g fs gs Hf _ IH]; constructor;
      [|exact IH].
    destruct Hf as (first & s & e & _ & _ & _ & ->). eauto. }
  split.
  { rewrite (partition_groups os bsize dir l w Hb).
    exact (run_groups_replay os dir _ folders [] w HF). }
  split; [exact Hnamed|]. split; [exact Hnd|].
  split; [rewrite moves_batches, sources_of_moves, HC by exact Hlen;
          reflexivity|].
  split; [rewrite Hlen; exact HL|]. split; [exact HL|].
  split; [|split; [apply groups_size; exact Hb|exact HC]].
  intros k Hk.
  pose proof (ceil_div_bounds (Z.of_nat (List.length l)) bsize Hb) as HB.
  split.
  - assert (Hf : nth_error folders (Z.to_nat k)
                 = Some (nth (Z.to_nat k) folders []))
      by (apply nth_error_nth'; lia).
    assert (Hg : nth_error (Spec.groups bsize l) (Z.to_nat k)
                 = Some (nth (Z.to_nat k) (Spec.groups bsize l) []))
      by (apply nth_error_nth'; lia).
    rewrite <- HC in Hstr.
    pose proof (moved_into_group dir folders (Spec.groups bsize l)
                  (Z.to_nat k) _ _ Hstr Hnd Hdir Hf Hg) as M.
    rewrite HC in M. exact M.
  - rewrite (groups_nth bsize l Hb k Hk). split.
    + rewrite slice_length by lia. nia.
    + intros i Hi. rewrite slice_nth_error by nia. f_equal. nia.
Qed.

Lemma partition_into_batches_witness :
  (1 <= 2 /\ 1 <= Z.of_nat 3 /\
   NoDup (map str [Sim.manga_dir // "c1"; Sim.manga_dir // "c2";
                   Sim.manga_dir // "c3"]) /\
   NoDup (map (Spec.folder_of Sim.manga_dir)
              (Spec.groups 2 [Sim.manga_dir // "c1"; Sim.manga_dir // "c2";
                              Sim.manga_dir // "c3"])) /\
   Forall (fun d => ~ In (Some d)
                         (map (Spec.folder_of Sim.manga_dir)
                              (Spec.groups 2 [Sim.manga_dir // "c1";
                                              Sim.manga_dir // "c2";
                                              Sim.manga_dir // "c3"])))
          [Sim.manga_dir // "c1"; Sim.manga_dir // "c2";
           Sim.manga_dir // "c3"]) /\
  partitions_into_batches (Sim.os Sim.broken) 2 Sim.manga_dir
    [Sim.manga_dir // "c1"; Sim.manga_dir // "c2"; Sim.manga_dir // "c3"]
    (Sim.machine []).
Proof.
  assert (H1 : NoDup (map str [Sim.manga_dir // "c1"; Sim.manga_dir // "c2";
                               Sim.manga_dir // "c3"])).
  { repeat constructor; simpl; intuition discriminate. }
  assert (H2 : NoDup (map (Spec.folder_of Sim.manga_dir)
                          (Spec.groups 2 [Sim.manga_dir // "c1";
                                          Sim.manga_dir // "c2";
                                          Sim.manga_dir // "c3"]))).
  { vm_compute. repeat constructor; simpl; intuition discriminate. }
  assert (H3 : Forall (fun d => ~ In (Some d)
                                     (map (Spec.folder_of Sim.manga_dir)
                                          (Spec.groups 2
                                             [Sim.manga_dir // "c1";
                                              Sim.manga_dir // "c2";
                                              Sim.manga_dir // "c3"])))
                      [Sim.manga_dir // "c1"; Sim.manga_dir // "c2";
                       Sim.manga_dir // "c3"]).
  { repeat constructor; vm_compute; intuition discriminate. }
  split; [repeat split; try discriminate; assumption|].
  apply partition_into_batches; try discriminate; try assumption.
  repeat constructor; discriminate.
Defined.

(** A chapter list that the discovery filter lets through and on which the
    partitioner makes no batch: the single directory [cover], with batch
    size 1. *)
Lemma partition_unnamed_chapter :
  (1 <= 1 /\ 1 <= Z.of_nat (List.length [Sim.manga_dir // "cover"])) /\
  startswith (lower (name (Sim.manga_dir // "cover"))) "c" = true /\
  ~ partitions_into_batches (Sim.os Sim.broken) 1 Sim.manga_dir
      [Sim.manga_dir // "cover"] (Sim.machine []).
Proof.
  split; [split; discriminate|]. split; [reflexivity|].
  intros (folders & H & _). vm_compute in H. discriminate H.
Qed.

(** The Mkdir events of a partition are the folders of the leading
    groups. *)
Lemma partition_mkdirs {W : Type} (os : OS W) bsize dir (l : list Path)
      (w : W) t w' r :
  1 <= bsize ->
  partition os bsize dir l w = (t, w', r) ->
  exists j,
    Forall2 (named_after dir) (mkdirs t) (firstn j (Spec.groups bsize l)) /\
    forall folders, r = Val folders ->
      folders = mkdirs t /\ j = List.length (Spec.groups bsize l).
Proof.
  intros Hb H. rewrite (partition_groups os bsize dir l w Hb) in H.
  apply run_groups_inv in H. exact H.
Qed.

(** C5.  Every folder the partitioner makes is named
    [{manga_name}_{start}_{end}], where [start] and [end] are the numerals
    that the pattern extracts from the names of the first and of the last
    chapter of the batch, as written (fraction included); when the
    partitioner returns, the folders it returns are the folders it made, one
    per group.  With the 45 chapters [c1] .. [c45] and batch size 20 the
    script makes the batch folders [M_1_20], [M_21_40] and [M_41_45]. *)
Theorem batch_folder_names {W : Type} (os : OS W) bsize dir
        (l : list Path) (w : W) t w' r :
  1 <= bsize ->
  partition os bsize dir l w = (t, w', r) ->
  (exists j,
     Forall2 (named_after dir) (mkdirs t) (firstn j (Spec.groups bsize l)) /\
     forall folders, r = Val folders ->
       folders = mkdirs t /\ j = List.length (Spec.groups bsize l)) /\
  Re.re_search "c12.5" = Some "12.5" /\
  (let '(t45, _, o) :=
     Sim.run (Sim.installed (Sim.chapters 45) []) Sim.args (Sim.machine []) in
   o = Exited 0 /\
   mkdirs t45 = [["manga_downloads"];
                 Sim.manga_dir // "M_1_20";
                 Sim.manga_dir // "M_21_40";
                 Sim.manga_dir // "M_41_45";
                 ["epubs"]]).
Proof.
  intros Hb H. split; [eapply partition_mkdirs; eassumption|].
  split; [reflexivity|]. vm_compute. split; reflexivity.
Qed.

Lemma batch_folder_names_witness :
  1 <= 2 /\
  exists j,
    Forall2 (named_after Sim.manga_dir)
            [Sim.manga_dir // "M_1.5_2"; Sim.manga_dir // "M_3_3"]
            (firstn j (Spec.groups 2 [Sim.manga_dir // "c1.5";
                                      Sim.manga_dir // "c2";
                                      Sim.manga_dir // "c3"])).
Proof.
  split; [discriminate|].
  destruct (batch_folder_names (Sim.os Sim.broken) 2 Sim.manga_dir
              [Sim.manga_dir // "c1.5"; Sim.manga_dir // "c2";
               Sim.manga_dir // "c3"]
              (Sim.machine [])
              (batch_trace (Sim.manga_dir // "M_1.5_2")
                 [Sim.manga_dir // "c1.5"; Sim.manga_dir // "c2"]
               ++ batch_trace (Sim.manga_dir // "M_3_3")
                    [Sim.manga_dir // "c3"])
              (snd (fst (partition (Sim.os Sim.broken) 2 Sim.manga_dir
                           [Sim.manga_dir // "c1.5"; Sim.manga_dir // "c2";
                            Sim.manga_dir // "c3"] (Sim.machine []))))
              (Val [Sim.manga_dir // "M_1.5_2"; Sim.manga_dir // "M_3_3"]))
    as [(j & HF & _) _].
  - discriminate.
  - reflexivity.
  - exists j. exact HF.
Defined.

(** C6.  A chapter directory whose name the pattern does not find: with
    the chapters [c1] and [cover] the partitioner stops on an
    [AttributeError] that nothing catches, before any folder is made and
    without any message of the script; the process ends with the
    traceback. *)
Theorem unnamed_chapter_traceback :
  (forall (W : Type) (os : OS W) (w : W),
     partition os 20 Sim.manga_dir
               [Sim.manga_dir // "c1"; Sim.manga_dir // "cover"] w
     = ([], w, Raise AttributeError)) /\
  (let '(t, _, o) := Sim.run (Sim.installed ["c1"; "cover"] []) Sim.args (Sim.machine []) in
   o = Traceback AttributeError /\
   forallb (fun ev => match ev with Stderr _ => false | _ => true end) t
   = true /\
   last t (Stdout "") = Stdout "Found 2 chapter folders.").
Proof.
  split; [intros; reflexivity|]. vm_compute. repeat split; reflexivity.
Qed.

(** ** The controller *)

Section ControllerFacts.
Context {W : Type} (os : OS W).
Variable repr : list string -> string.
Variable decode : string -> string.
Variable strip : string -> string.

(** The cleanup stage when the output root exists and the answer is not
    [y]. *)
Lemma cleanup_declined w w2 answer :
  exists_ os (after_stale_removal os w) EPUB_DIR = true ->
  input os (after_stale_removal os w) confirm_prompt = (w2, Some answer) ->
  lower answer <> "y" ->
  cleanup os w
  = (cleanup_prefix os w ++ [Stdout "Exiting without cleanup."], w2,
     Raise (SystemExit 0)).
Proof.
  unfold after_stale_removal, cleanup_prefix. intros He Hi Hl.
  apply String.eqb_neq in Hl.
  unfold cleanup, py_input, do_rmtree. open_script.
  destruct (exists_ os w DOWNLOAD_DIR); step; rewrite He; step;
    rewrite Hi; step; rewrite Hl; reflexivity.
Qed.

(** The cleanup stage when the output root exists and there is no
    answer. *)
Lemma cleanup_unanswered w w2 :
  exists_ os (after_stale_removal os w) EPUB_DIR = true ->
  input os (after_stale_removal os w) confirm_prompt = (w2, None) ->
  cleanup os w
  = (cleanup_prefix os w
       ++ [Stderr "Warning: epubs exists and cannot confirm deletion. Exiting."],
     w2, Raise (SystemExit 1)).
Proof.
  unfold after_stale_removal, cleanup_prefix. intros He Hi.
  unfold cleanup, py_input, do_rmtree. open_script.
  destruct (exists_ os w DOWNLOAD_DIR); step; rewrite He; step;
    rewrite Hi; reflexivity.
Qed.

(** A stage that raises ends [main]. *)
Lemma script_stops_in_cleanup args w t w1 code :
  preflight os args w = ([], w, Val tt) ->
  cleanup os w = (t, w1, Raise (SystemExit code)) ->
  script os repr decode strip args w = (t, w1, Exited code).
Proof.
  intros Hp Hc. unfold script, main.
  rewrite (bind_val _ _ _ _ _ _ Hp). rewrite (bind_raise _ _ _ _ _ _ Hc).
  reflexivity.
Qed.

End ControllerFacts.

(** C8.  When the preflight checks pass and the output root exists at
    pre-run cleanup, the user is asked to confirm its removal.  On any
    answer other than [y] or [Y] the process exits with code 0, and the run
    has launched nothing, made no directory and moved nothing; at end of
    input the process exits with code 1. *)
Theorem output_root_confirmation {W : Type} (os : OS W) repr decode strip
        args (w : W) :
  preflight os args w = ([], w, Val tt) ->
  exists_ os (after_stale_removal os w) EPUB_DIR = true ->
  (forall w2 answer,
     input os (after_stale_removal os w) confirm_prompt = (w2, Some answer) ->
     lower answer <> "y" ->
     script os repr decode strip args w
     = (cleanup_prefix os w ++ [Stdout "Exiting without cleanup."], w2,
        Exited 0) /\
     idle (cleanup_prefix os w ++ [Stdout "Exiting without cleanup."]) = true) /\
  (forall w2,
     input os (after_stale_removal os w) confirm_prompt = (w2, None) ->
     script os repr decode strip args w
     = (cleanup_prefix os w
          ++ [Stderr "Warning: epubs exists and cannot confirm deletion. Exiting."],
        w2, Exited 1)).
Proof.
  intros Hp He. split.
  - intros w2 answer Hi Hl. split.
    + apply script_stops_in_cleanup; [exact Hp|].
      apply (cleanup_declined os w w2 answer); assumption.
    + unfold cleanup_prefix. destruct (exists_ os w DOWNLOAD_DIR); reflexivity.
  - intros w2 Hi. apply script_stops_in_cleanup; [exact Hp|].
    apply cleanup_unanswered; assumption.
Qed.

Lemma output_root_confirmation_witness :
  (preflight (Sim.os Sim.broken) Sim.args
     (Sim.with_dirs (Sim.machine ["n"]) [["epubs"]])
   = ([], Sim.with_dirs (Sim.machine ["n"]) [["epubs"]], Val tt) /\
   exists_ (Sim.os Sim.broken)
     (after_stale_removal (Sim.os Sim.broken)
        (Sim.with_dirs (Sim.machine ["n"]) [["epubs"]])) EPUB_DIR
   = true) /\
  snd (Sim.run Sim.broken Sim.args (Sim.with_dirs (Sim.machine ["n"]) [["epubs"]]))
  = Exited 0 /\
  snd (Sim.run Sim.broken Sim.args (Sim.with_dirs (Sim.machine []) [["epubs"]]))
  = Exited 1.
Proof.
  split; [split; reflexivity|]. split.
  - destruct (output_root_confirmation (Sim.os Sim.broken) Sim.repr Sim.decode Sim.strip
                Sim.args (Sim.with_dirs (Sim.machine ["n"]) [["epubs"]])
                eq_refl eq_refl) as [Hd _].
    destruct (Hd (Sim.with_dirs (Sim.machine []) [["epubs"]]) "n"
                 eq_refl ltac:(discriminate)) as [E _].
    unfold Sim.run. rewrite E. reflexivity.
  - destruct (output_root_confirmation (Sim.os Sim.broken) Sim.repr Sim.decode Sim.strip
                Sim.args (Sim.with_dirs (Sim.machine []) [["epubs"]])
                eq_refl eq_refl) as [_ He].
    unfold Sim.run.
    rewrite (He (Sim.with_dirs (Sim.machine []) [["epubs"]]) eq_refl).
    reflexivity.
Defined.

Section ConversionFacts.
Context {W : Type} (os : OS W).
Variable decode : string -> string.
Variable strip : string -> string.
Variable args : Args.
Variable abs_epub_dir : Path.

Lemma convert_folder_skips folder w :
  is_dir os w folder = false ->
  convert_folder os decode strip args abs_epub_dir folder w = ([], w, Val tt).
Proof.
  intros H. unfold convert_folder. open_script. rewrite H. reflexivity.
Qed.




Lemma runs_app t1 t2 : runs (t1 ++ t2) = runs t1 ++ runs t2.
Proof. unfold runs. apply flat_map_app. Qed.




End ConversionFacts.

(** C10.  A batch folder that is not a directory when the conversion loop
    reaches it is passed over without any event: the converter is not
    launched, nothing is printed, and the loop goes on with the next
    folder exactly as if the folder had not been in the list. *)
Theorem vanished_folder_skipped {W : Type} (os : OS W) decode strip args
        abs_epub_dir folder (w : W) :
  is_dir os w folder = false ->
  convert_folder os decode strip args abs_epub_dir folder w = ([], w, Val tt)
  /\
  forall before after w0 t0,
    for_each before (convert_folder os decode strip args abs_epub_dir) w0
    = (t0, w, Val tt) ->
    for_each (before ++ folder :: after)
             (convert_folder os decode strip args abs_epub_dir) w0
    = for_each (before ++ after)
               (convert_folder os decode strip args abs_epub_dir) w0.
Proof.
  intros Hd.
  pose proof (convert_folder_skips os decode strip args abs_epub_dir
                folder w Hd) as Hskip.
  split; [exact Hskip|].
  intros before after w0 t0 Hb.
  rewrite !for_each_app. rewrite !(bind_val _ _ _ _ _ _ Hb).
  cbn [for_each]. rewrite (bind_val _ _ _ _ _ _ Hskip).
  destruct (for_each after _ w) as [[t2 w2] r2]. reflexivity.
Qed.

Lemma vanished_folder_skipped_witness :
  is_dir (Sim.os Sim.broken) (Sim.machine []) (Sim.manga_dir // "M_1_2") = false /\
  convert_folder (Sim.os Sim.broken) Sim.decode Sim.strip Sim.args ["epubs"]
                 (Sim.manga_dir // "M_1_2") (Sim.machine [])
  = ([], Sim.machine [], Val tt).
Proof.
  split; [reflexivity|].
  exact (proj1 (vanished_folder_skipped (Sim.os Sim.broken) Sim.decode Sim.strip Sim.args
                  ["epubs"] (Sim.manga_dir // "M_1_2") (Sim.machine [])
                  eq_refl)).
Defined.

Section DownloadFacts.
Context {W : Type} (os : OS W).
Variable repr : list string -> string.
Variable decode : string -> string.




End DownloadFacts.

Section RunFacts.
Context {W : Type} (os : OS W).
Variable repr : list string -> string.
Variable decode : string -> string.
Variable strip : string -> string.
Variable args : Args.




End RunFacts.






(** ** Scenarios *)

(** Chapters [c3], [c1.5], [c2] are ordered [c1.5], [c2], [c3]. *)
Example sorted_fractional_chapters :
  sorted chapter_sort_key [["c3"]; ["c1.5"]; ["c2"]]
  = Val [["c1.5"]; ["c2"]; ["c3"]].
Proof. reflexivity. Qed.

(** No chapter discovered: exit code 0, no batch folder, and the download
    is the only launch. *)
Example no_chapters_exit_0 :
  let '(t, _, o) := Sim.run (Sim.installed [] []) Sim.args (Sim.machine []) in
  o = Exited 0 /\ mkdirs t = [["manga_downloads"]] /\
  List.length (runs t) = 1%nat.
Proof. vm_compute. repeat split; reflexivity. Qed.

(** The converter fails on the second of three batches: the other two are
    converted, a warning names the second, and the exit code is 0. *)
Example second_batch_fails_exit_0 :
  let '(t, _, o) :=
    Sim.run (Sim.installed (Sim.chapters 45) ["M_21_40"]) Sim.args
            (Sim.machine []) in
  o = Exited 0 /\ List.length (runs t) = 4%nat /\
  filter (fun ev => match ev with Stderr _ => true | _ => false end) t
  = [Stderr "Warning: KCC processing might have failed for M_21_40.";
     Stderr "  KCC Stderr: conversion failed"].
Proof. vm_compute. repeat split; reflexivity. Qed.

(** Four chapters that share the numeral 1, in batches of two: both groups
    get the folder [M_1_1], so the one folder receives all four chapters,
    more than the batch size. *)
Example shared_batch_folder :
  let l := [Sim.manga_dir // "c1"; Sim.manga_dir // "c1a";
            Sim.manga_dir // "c1b"; Sim.manga_dir // "c1c"] in
  let '(t, _, r) :=
    partition (Sim.os Sim.broken) 2 Sim.manga_dir l (Sim.machine []) in
  r = Val [Sim.manga_dir // "M_1_1"; Sim.manga_dir // "M_1_1"] /\
  moved_into t l (Sim.manga_dir // "M_1_1") = l.
Proof. vm_compute. split; reflexivity. Qed.

(** * Further properties *)

(** ** Preflight *)

(** The preflight stage, in its two cases. *)
Lemma preflight_cases {W : Type} (os : OS W) args (w : W) :
  if preflight_ok os args w
  then preflight os args w = ([], w, Val tt)
  else exists msg,
      preflight os args w = ([Stderr msg], w, Raise (SystemExit 1)).
Proof.
  unfold preflight_ok.
  destruct (Z.ltb_spec 0 (batch_size args)) as [Hb|Hb]; cbn [andb].
  2:{ eexists; unfold preflight; open_script;
      (destruct (Z.leb_spec (batch_size args) 0); [reflexivity|lia]). }
  destruct (Z.ltb_spec 0 (custom_width args)) as [Hw|Hw]; cbn [andb].
  2:{ eexists; unfold preflight; open_script;
      (destruct (Z.leb_spec (batch_size args) 0); [lia|]); step;
      (destruct (Z.leb_spec (custom_width args) 0); [reflexivity|lia]). }
  destruct (Z.ltb_spec 0 (custom_height args)) as [Hh|Hh]; cbn [andb].
  2:{ eexists; unfold preflight; open_script;
      (destruct (Z.leb_spec (batch_size args) 0); [lia|]); step;
      (destruct (Z.leb_spec (custom_width args) 0); [lia|]); step;
      (destruct (Z.leb_spec (custom_height args) 0); [reflexivity|lia]). }
  assert (Hpos : forall (A : Type) (x y : A),
             (if batch_size args <=? 0 then x else y) = y /\
             (if custom_width args <=? 0 then x else y) = y /\
             (if custom_height args <=? 0 then x else y) = y).
  { intros A x y.
    destruct (Z.leb_spec (batch_size args) 0); [lia|].
    destruct (Z.leb_spec (custom_width args) 0); [lia|].
    destruct (Z.leb_spec (custom_height args) 0); [lia|]. auto. }
  destruct (is_file os w (kcc args)) eqn:Hk; cbn [andb].
  2:{ eexists; unfold preflight, command_exists;
      open_script;
      (destruct (Z.leb_spec (batch_size args) 0); [lia|]); step;
      (destruct (Z.leb_spec (custom_width args) 0); [lia|]); step;
      (destruct (Z.leb_spec (custom_height args) 0); [lia|]); step;
      rewrite Hk; reflexivity. }
  destruct (which os w "gallery-dl") eqn:Hg; cbn [andb].
  2:{ eexists; unfold preflight, command_exists;
      open_script;
      (destruct (Z.leb_spec (batch_size args) 0); [lia|]); step;
      (destruct (Z.leb_spec (custom_width args) 0); [lia|]); step;
      (destruct (Z.leb_spec (custom_height args) 0); [lia|]); step;
      rewrite Hk; cbn [negb]; step; rewrite Hg; reflexivity. }
  destruct (wine args) eqn:Hwine; cbn [negb orb].
  + destruct (which os w "wine") eqn:Hwn.
    * unfold preflight, command_exists. open_script.
      (destruct (Z.leb_spec (batch_size args) 0); [lia|]); step.
      (destruct (Z.leb_spec (custom_width args) 0); [lia|]); step.
      (destruct (Z.leb_spec (custom_height args) 0); [lia|]); step.
      rewrite Hk; cbn [negb]; step; rewrite Hg; cbn [negb]; step.
      rewrite Hwine; step. rewrite Hwn. reflexivity.
    * eexists; unfold preflight, command_exists;
      open_script;
      (destruct (Z.leb_spec (batch_size args) 0); [lia|]); step;
      (destruct (Z.leb_spec (custom_width args) 0); [lia|]); step;
      (destruct (Z.leb_spec (custom_height args) 0); [lia|]); step;
      rewrite Hk; cbn [negb]; step; rewrite Hg; cbn [negb]; step; rewrite Hwine; step;
      rewrite Hwn; reflexivity.
  + unfold preflight, command_exists. open_script.
    (destruct (Z.leb_spec (batch_size args) 0); [lia|]); step.
    (destruct (Z.leb_spec (custom_width args) 0); [lia|]); step.
    (destruct (Z.leb_spec (custom_height args) 0); [lia|]); step.
    rewrite Hk; cbn [negb]; step; rewrite Hg; cbn [negb]; step.
    rewrite Hwine. reflexivity.
Qed.

(** X1.  The preflight stage only reads the environment.  When the batch
    size, the width and the height are positive, the converter's path is
    a file, [gallery-dl] is on the search path and so is [wine] when it is
    asked for, the stage passes without a trace; otherwise the script
    prints one error, changes nothing and exits with code 1, and a batch
    size that is not positive is the first thing reported. *)
Theorem preflight_validates {W : Type} (os : OS W) repr decode strip args
        (w : W) :
  (if preflight_ok os args w
   then preflight os args w = ([], w, Val tt)
   else exists msg,
       preflight os args w = ([Stderr msg], w, Raise (SystemExit 1)) /\
       script os repr decode strip args w = ([Stderr msg], w, Exited 1)) /\
  (batch_size args <= 0 ->
   script os repr decode strip args w
   = ([Stderr "Error: Batch size must be a positive number."], w, Exited 1)).
Proof.
  assert (Hstop : forall msg,
             preflight os args w = ([Stderr msg], w, Raise (SystemExit 1)) ->
             script os repr decode strip args w = ([Stderr msg], w, Exited 1)).
  { intros msg H. unfold script, main.
    rewrite (bind_raise _ _ _ _ _ _ H). reflexivity. }
  split.
  - pose proof (preflight_cases os args w) as H.
    destruct (preflight_ok os args w); [exact H|].
    destruct H as [msg H]. exists msg. split; [exact H|apply Hstop, H].
  - intros Hb. apply Hstop. unfold preflight. open_script.
    destruct (Z.leb_spec (batch_size args) 0); [reflexivity|lia].
Qed.

(** ** Cleanup *)



(** X3.  When there is no output root, nothing is asked: the cleanup stage
    reads no input, removes at most the stale download root and
    returns. *)
Theorem cleanup_without_output_root {W : Type} (os : OS W) (w : W) :
  exists_ os (after_stale_removal os w) EPUB_DIR = false ->
  cleanup os w
  = ([Stdout "--- Starting Cleanup ---";
      Stdout "Removing previous manga_downloads directory (if it exists)..."]
       ++ (if exists_ os w DOWNLOAD_DIR then [Rmtree DOWNLOAD_DIR] else [])
       ++ [Stdout "epubs directory does not exist, no need to remove.";
           Stdout ("Cleanup finished." ++ nl)],
     after_stale_removal os w, Val tt).
Proof.
  unfold after_stale_removal. intros He.
  unfold cleanup, py_input, do_rmtree. open_script.
  destruct (exists_ os w DOWNLOAD_DIR); step; rewrite He; reflexivity.
Qed.

Lemma cleanup_without_output_root_witness :
  exists_ (Sim.os Sim.broken)
    (after_stale_removal (Sim.os Sim.broken)
       (Sim.with_dirs (Sim.machine []) [["manga_downloads"]]))
    EPUB_DIR = false /\
  Sim.dirs (snd (fst (cleanup (Sim.os Sim.broken)
             (Sim.with_dirs (Sim.machine []) [["manga_downloads"]]))))
  = [].
Proof.
  split; [reflexivity|].
  rewrite (cleanup_without_output_root (Sim.os Sim.broken)
             (Sim.with_dirs (Sim.machine []) [["manga_downloads"]]) eq_refl).
  reflexivity.
Defined.

(** ** The download *)

(** X4.  The download stage makes the download root and launches the
    downloader exactly once, whatever comes of it: [gallery-dl -d
    manga_downloads], then the chapter range [--chapter-range min-max],
    [min-] or [-max] when a bound is given (an empty bound counts as not
    given), then the URL. *)
Theorem download_command {W : Type} (os : OS W) repr decode args (w : W) :
  let '(t, _, _) := download os repr decode args w in
  runs t = [["gallery-dl"; "-d"; "manga_downloads"]
              ++ chapter_range_option (min_chapter args) (max_chapter args)
              ++ [manga_url args]] /\
  mkdirs t = [DOWNLOAD_DIR].
Proof.
  unfold download, run_command, subprocess_run, do_mkdir, capture, nonempty,
    chapter_range_option.
  open_script.
  destruct (truthy (min_chapter args)), (truthy (max_chapter args));
    cbn [andb]; step;
    match goal with
    | |- context [spawn os ?w0 ?c ?e] =>
        destruct (spawn os w0 c e) as [w1 [rc out err|msg]]
    end; step; try (destruct (rc =? 0)); split; reflexivity.
Qed.

(** ** Discovery and ordering *)

Lemma getitem_first {A : Type} (a : A) (l : list A) : getitem (a :: l) 0 = Val a.
Proof.
  unfold getitem. cbn [List.length nth_error].
  rewrite Nat2Z.inj_succ. change (0 <? 0) with false. cbv iota.
  destruct (Z.ltb_spec 0 (Z.succ (Z.of_nat (List.length l)))); [|lia].
  reflexivity.
Qed.

(** The rearrangement stage, case by case. *)
Lemma rearrange_cases {W : Type} (os : OS W) args (w : W) :
  rearrange os args w =
  if is_dir os w manga_base_dir
  then match manga_dirs os w with
       | [] =>
           ([rearrange_banner;
             Stderr ("Error: Could not find the manga directory in "
                       ++ str manga_base_dir
                       ++ ". No chapters downloaded or unexpected structure.")],
            w, Raise (SystemExit 1))
       | manga_name_dir :: _ =>
           match sorted chapter_sort_key (discovered os w manga_name_dir) with
           | Val [] =>
               ([rearrange_banner; found_manga manga_name_dir;
                 Stdout ("No chapter folders found starting with 'c' in "
                           ++ str manga_name_dir
                           ++ ". No chapters to rearrange.")],
                w, Raise (SystemExit 0))
           | Val chapter_dirs =>
               let '(tp, w', r) :=
                 partition os (batch_size args) manga_name_dir chapter_dirs w in
               ([rearrange_banner; found_manga manga_name_dir;
                 Stdout ("Found "
                           ++ str_int (Z.of_nat (List.length chapter_dirs))
                           ++ " chapter folders.")]
                  ++ tp
                  ++ match r with
                     | Val _ => [Stdout ("Rearranging finished." ++ nl)]
                     | _ => []
                     end,
                w', r)
           | Raise e => ([rearrange_banner; found_manga manga_name_dir], w, Raise e)
           | Diverge => ([rearrange_banner; found_manga manga_name_dir], w, Diverge)
           end
       end
  else ([rearrange_banner;
         Stderr ("Error: Expected download directory " ++ str manga_base_dir
                   ++ " not found.")],
        w, Raise (SystemExit 1)).
Proof.
  unfold rearrange, manga_dirs, discovered. cbv zeta. fold manga_base_dir.
  open_script.
  destruct (is_dir os w manga_base_dir); cbn [negb]; step; [|reflexivity].
  match goal with
  | |- context [getitem ?l 0] => destruct l as [|manga_name_dir rest]
  end; step; [reflexivity|].
  rewrite getitem_first. step.
  match goal with
  | |- context [sorted chapter_sort_key ?l] =>
      destruct (sorted chapter_sort_key l) as [[|d chapter_dirs]| |]
  end; step; try reflexivity.
  change (Z.of_nat (List.length (d :: chapter_dirs)) =? 0) with false. step.
  destruct (partition os (batch_size args) manga_name_dir (d :: chapter_dirs) w)
    as [[tp w'] [folders|e|]]; cbn [app]; rewrite ?app_nil_r; reflexivity.
Qed.

(** ** The sentinel *)

Lemma scaled_below_2_53 p q :
  0 < p -> 0 < q ->
  let s := Z.max (PyFloat.ilog2 p q - 52) (-1074) in
  fst (PyFloat.scale p q s) < snd (PyFloat.scale p q s) * 2 ^ 53 /\
  0 < snd (PyFloat.scale p q s).
Proof.
  intros Hp Hq. destruct (ilog2_spec p q Hp Hq) as [_ U].
  set (e := PyFloat.ilog2 p q) in *. cbv zeta. unfold PyFloat.scale.
  destruct (Z.leb_spec 0 (Z.max (e - 52) (-1074))) as [Hs|Hs]; cbn [fst snd].
  - replace (Z.max (e - 52) (-1074)) with (e - 52) in * by lia.
    replace (Z.max (- (e + 1)) 0) with 0 in U by lia.
    replace (Z.max (e + 1) 0) with (e + 1) in U by lia.
    pose proof (pow2_pos (e - 52) Hs).
    replace (e + 1) with ((e - 52) + 53) in U by lia.
    rewrite pow2_split in U by lia. simpl (2 ^ 0) in U. split; nia.
  - split; [|assumption].
    destruct (Z_le_gt_dec (-1074) (e - 52)) as [Hn|Hn].
    + replace (Z.max (e - 52) (-1074)) with (e - 52) by lia.
      destruct (Z_le_gt_dec 0 (e + 1)) as [He|He].
      * replace (Z.max (- (e + 1)) 0) with 0 in U by lia.
        replace (Z.max (e + 1) 0) with (e + 1) in U by lia.
        simpl (2 ^ 0) in U.
        assert (E : 2 ^ 53 = 2 ^ (e + 1) * 2 ^ (- (e - 52))).
        { rewrite <- pow2_split by lia. f_equal. lia. }
        pose proof (pow2_pos (- (e - 52)) ltac:(lia)).
        pose proof (pow2_pos (e + 1) He). nia.
      * replace (Z.max (- (e + 1)) 0) with (- (e + 1)) in U by lia.
        replace (Z.max (e + 1) 0) with 0 in U by lia.
        simpl (2 ^ 0) in U.
        assert (E : 2 ^ (- (e - 52)) = 2 ^ (- (e + 1)) * 2 ^ 53).
        { rewrite <- pow2_split by lia. f_equal. lia. }
        assert (0 < 2 ^ 53) by reflexivity. nia.
    + replace (Z.max (e - 52) (-1074)) with (-1074) by lia.
      replace (Z.max (- (e + 1)) 0) with (- (e + 1)) in U by lia.
      replace (Z.max (e + 1) 0) with 0 in U by lia.
      simpl (2 ^ 0) in U.
      assert (2 ^ 1022 <= 2 ^ (- (e + 1))) by (apply Z.pow_le_mono_r; lia).
      assert (E : 2 ^ (- -1074) = 2 ^ 1022 * 2 ^ 52) by reflexivity.
      assert (P52 : 0 < 2 ^ 52) by reflexivity.
      assert (P1022 : 0 < 2 ^ 1022) by reflexivity.
      assert (E53 : 2 ^ 53 = 2 * 2 ^ 52) by reflexivity.
      rewrite E. nia.
Qed.

(** The mantissa of a rounded value has at most 53 bits. *)
Lemma nearest_mantissa p q m s :
  0 <= p -> 0 < q -> PyFloat.nearest p q = PyFloat.Finite m s ->
  0 <= m <= 2 ^ 53.
Proof.
  intros Hp Hq. unfold PyFloat.nearest.
  destruct (Z.eqb_spec p 0) as [->|Hnz].
  { intros H. injection H as <- <-. split; [lia|apply Z.pow_nonneg; lia]. }
  destruct (1024 <=? PyFloat.ilog2 p q); [discriminate|].
  pose proof (scaled_below_2_53 p q ltac:(lia) Hq) as Hsc. cbv zeta in Hsc.
  destruct (PyFloat.scale p q (Z.max (PyFloat.ilog2 p q - 52) (-1074)))
    as [a b] eqn:Escale.
  cbn [fst snd] in Hsc. destruct Hsc as [Hab Hb].
  destruct (_ && _); [discriminate|]. intros H. injection H as <- _.
  assert (Ha : 0 <= a).
  { unfold PyFloat.scale in Escale.
    destruct (0 <=? _) in Escale; injection Escale as <- <-; [lia|].
    apply Z.mul_nonneg_nonneg; [lia|]. apply Z.pow_nonneg. lia. }
  destruct (round_half_even_bounds a b Hb) as [[Hlo Hhi] _].
  pose proof (Z.div_pos a b Ha Hb).
  assert (a / b < 2 ^ 53) by (apply Z.div_lt_upper_bound; lia).
  lia.
Qed.

(** [int(float(..))] is never [sys.maxsize]. *)
Lemma int_nearest_not_maxsize p q k :
  0 <= p -> 0 < q ->
  PyFloat.int_of_float (PyFloat.nearest p q) = Val k -> k <> maxsize.
Proof.
  intros Hp Hq. destruct (PyFloat.nearest p q) as [m s|] eqn:E;
    [|discriminate].
  pose proof (nearest_mantissa p q m s Hp Hq E) as Hm.
  assert (H53 : 2 ^ 53 < maxsize) by reflexivity.
  simpl. intros H. injection H as <-.
  destruct (Z.leb_spec 0 s) as [Hs|Hs].
  - destruct (Z.eq_dec s 0) as [->|Hs0]; [simpl (2 ^ 0); lia|].
    intros Habs.
    assert (Hev : Z.even (m * 2 ^ s) = true).
    { replace s with (Z.succ (s - 1)) by lia.
      rewrite Z.pow_succ_r by lia. rewrite Z.even_mul, Z.even_mul.
      simpl. apply orb_true_r. }
    rewrite Habs in Hev. discriminate Hev.
  - assert (0 < 2 ^ (- s)) by (apply pow2_pos; lia).
    assert (m / 2 ^ (- s) <= m) by (apply Z.div_le_upper_bound; nia).
    lia.
Qed.

(** A name that matches the pattern does not have the sentinel key. *)
Lemma matching_key_not_maxsize (dir_path : Path) g :
  Re.re_match (name dir_path) = Some g ->
  chapter_sort_key dir_path <> Val maxsize.
Proof.
  intros Hm. unfold chapter_sort_key. rewrite Hm.
  destruct (match_parses dir_path g Hm) as (ds & fs & Hp).
  unfold PyFloat.float_of_string. rewrite Hp. cbn [res_bind].
  intros H.
  assert (Hint : PyFloat.int_of_float
                   (PyFloat.nearest (PyFloat.digits_value (ds ++ fs))
                                    (10 ^ Z.of_nat (List.length fs)))
                 = Val maxsize).
  { destruct (PyFloat.nearest _ _) as [m s|]; simpl in H |- *;
      [exact H|discriminate H]. }
  apply int_nearest_not_maxsize in Hint; [contradiction| |].
  - unfold Re.re_match in Hm.
    destruct (Re.match_at _) as [g'|] eqn:Hg; [|discriminate].
    simpl in Hm. injection Hm as <-.
    destruct (match_at_inv _ _ Hg)
      as (c & ds0 & fs0 & rest & _ & -> & _ & Hne & Hds & Hfs & _).
    rewrite list_ascii_of_string_of_list_ascii in Hp.
    rewrite (parse_numeral_text ds0 fs0 Hne Hds Hfs) in Hp.
    injection Hp as <- <-.
    apply digits_value_bound. unfold all_digits.
    rewrite forallb_app. apply andb_true_intro. auto.
  - apply Z.pow_pos_nonneg; lia.
Qed.

(** X5.  The sentinel key marks exactly the names that do not match the
    chapter pattern: a name that matches never has the key
    [sys.maxsize]. *)
Theorem sentinel_iff_no_match (dir_path : Path) :
  chapter_sort_key dir_path = Val maxsize <->
  Re.re_match (name dir_path) = None.
Proof.
  split.
  - destruct (Re.re_match (name dir_path)) as [g|] eqn:Hm; [|reflexivity].
    intros H. exfalso. exact (matching_key_not_maxsize dir_path g Hm H).
  - intros H. unfold chapter_sort_key. rewrite H. reflexivity.
Qed.

(** ** The rearrangement stage *)

(** X6.  When the downloader's root [manga_downloads/weebcentral] is not a
    directory, or holds no directory, the rearrangement stage prints one
    error, changes nothing and exits with code 1. *)
Theorem missing_download_layout {W : Type} (os : OS W) args (w : W) :
  is_dir os w manga_base_dir = false \/ manga_dirs os w = [] ->
  exists msg,
    rearrange os args w
    = ([rearrange_banner; Stderr msg], w, Raise (SystemExit 1)).
Proof.
  intros H. rewrite rearrange_cases.
  destruct (is_dir os w manga_base_dir); [|eauto].
  destruct H as [H|H]; [discriminate|]. rewrite H. eauto.
Qed.

Lemma missing_download_layout_witness :
  (is_dir (Sim.os Sim.broken) (Sim.machine []) manga_base_dir = false \/
   manga_dirs (Sim.os Sim.broken) (Sim.machine []) = []) /\
  exists msg,
    rearrange (Sim.os Sim.broken) Sim.args (Sim.machine [])
    = ([rearrange_banner; Stderr msg], Sim.machine [], Raise (SystemExit 1)).
Proof.
  split; [left; reflexivity|].
  apply missing_download_layout. left. reflexivity.
Defined.

(** X7.  The manga directory is the first directory listed under the
    downloader's root.  When none of its entries is a directory whose name
    starts with [c] or [C], the stage says so and exits with code 0: no
    directory is made and nothing is moved. *)
Theorem no_chapter_clean_exit {W : Type} (os : OS W) args (w : W)
        manga_name_dir rest :
  is_dir os w manga_base_dir = true ->
  manga_dirs os w = manga_name_dir :: rest ->
  discovered os w manga_name_dir = [] ->
  rearrange os args w
  = ([rearrange_banner; found_manga manga_name_dir;
      Stdout ("No chapter folders found starting with 'c' in "
                ++ str manga_name_dir ++ ". No chapters to rearrange.")],
     w, Raise (SystemExit 0)).
Proof.
  intros Hb Hm Hd. rewrite rearrange_cases, Hb, Hm, Hd. reflexivity.
Qed.

Lemma no_chapter_clean_exit_witness :
  (is_dir (Sim.os Sim.broken)
     (Sim.with_dirs (Sim.machine [])
        [manga_base_dir; Sim.manga_dir; Sim.manga_dir // "extras"])
     manga_base_dir = true /\
   discovered (Sim.os Sim.broken)
     (Sim.with_dirs (Sim.machine [])
        [manga_base_dir; Sim.manga_dir; Sim.manga_dir // "extras"])
     Sim.manga_dir = []) /\
  snd (rearrange (Sim.os Sim.broken) Sim.args
         (Sim.with_dirs (Sim.machine [])
            [manga_base_dir; Sim.manga_dir; Sim.manga_dir // "extras"]))
  = Raise (SystemExit 0).
Proof.
  split; [split; reflexivity|].
  rewrite (no_chapter_clean_exit (Sim.os Sim.broken) Sim.args
             (Sim.with_dirs (Sim.machine [])
                [manga_base_dir; Sim.manga_dir; Sim.manga_dir // "extras"])
             Sim.manga_dir [] eq_refl eq_refl eq_refl).
  reflexivity.
Defined.

Lemma key_val_or_overflow dir_path :
  (exists k, chapter_sort_key dir_path = Val k) \/
  chapter_sort_key dir_path = Raise OverflowError.
Proof.
  unfold chapter_sort_key.
  destruct (Re.re_match (name dir_path)) as [g|]; [|left; eauto].
  unfold PyFloat.float_of_string.
  destruct (PyFloat.parse_numeral (list_ascii_of_string g)) as [[ds fs]|];
    [|left; simpl; eauto].
  simpl res_bind.
  destruct (PyFloat.nearest _ _) as [m e|]; simpl; [left; eauto|right; auto].
Qed.

(** The keys of a list are computed in order: the first failure is the
    result. *)
Lemma res_map_overflow (l : list Path) d :
  In d l -> chapter_sort_key d = Raise OverflowError ->
  res_map chapter_sort_key l = Raise OverflowError.
Proof.
  induction l as [|a t IH]; intros Hin Hd; [contradiction|].
  cbn [res_map].
  destruct (key_val_or_overflow a) as [[k Hk]|Hk]; rewrite Hk; [|reflexivity].
  cbn [res_bind]. destruct Hin as [->|Hin]; [congruence|].
  rewrite (IH Hin Hd). reflexivity.
Qed.

(** X8.  One chapter directory whose numeral is beyond the floats stops
    the run before anything is rearranged: the key function raises
    [OverflowError] inside [sorted], nothing catches it, and no directory
    has been made or moved. *)
Theorem oversized_numeral_stops_discovery {W : Type} (os : OS W) args (w : W)
        manga_name_dir rest d :
  is_dir os w manga_base_dir = true ->
  manga_dirs os w = manga_name_dir :: rest ->
  In d (discovered os w manga_name_dir) ->
  chapter_sort_key d = Raise OverflowError ->
  rearrange os args w
  = ([rearrange_banner; found_manga manga_name_dir], w, Raise OverflowError).
Proof.
  intros Hb Hm Hin Hd. rewrite rearrange_cases, Hb, Hm.
  unfold sorted. rewrite (res_map_overflow _ d Hin Hd). reflexivity.
Qed.

Lemma oversized_numeral_stops_discovery_witness :
  (In (Sim.manga_dir // overflow_name)
      (discovered (Sim.os Sim.broken)
         (Sim.with_dirs (Sim.machine [])
            [manga_base_dir; Sim.manga_dir; Sim.manga_dir // "c1";
             Sim.manga_dir // overflow_name])
         Sim.manga_dir) /\
   chapter_sort_key (Sim.manga_dir // overflow_name) = Raise OverflowError) /\
  snd (rearrange (Sim.os Sim.broken) Sim.args
         (Sim.with_dirs (Sim.machine [])
            [manga_base_dir; Sim.manga_dir; Sim.manga_dir // "c1";
             Sim.manga_dir // overflow_name]))
  = Raise OverflowError.
Proof.
  assert (Hk : chapter_sort_key (Sim.manga_dir // overflow_name)
               = Raise OverflowError) by (vm_compute; reflexivity).
  assert (Hin : In (Sim.manga_dir // overflow_name)
                   (discovered (Sim.os Sim.broken)
                      (Sim.with_dirs (Sim.machine [])
                         [manga_base_dir; Sim.manga_dir; Sim.manga_dir // "c1";
                          Sim.manga_dir // overflow_name])
                      Sim.manga_dir)).
  { vm_compute. right. left. reflexivity. }
  split; [split; assumption|].
  rewrite (oversized_numeral_stops_discovery (Sim.os Sim.broken) Sim.args
             (Sim.with_dirs (Sim.machine [])
                [manga_base_dir; Sim.manga_dir; Sim.manga_dir // "c1";
                 Sim.manga_dir // overflow_name])
             Sim.manga_dir [] (Sim.manga_dir // overflow_name)
             eq_refl eq_refl Hin Hk).
  reflexivity.
Defined.

(** ** What is moved *)

Lemma mkdirs_batch_trace folder g : mkdirs (batch_trace folder g) = [folder].
Proof.
  unfold batch_trace.
  change (mkdirs (Mkdir folder :: Stdout _ :: move_trace folder g))
    with (folder :: mkdirs (move_trace folder g)).
  f_equal. induction g; simpl; auto.
Qed.

(** The moves of a run over groups: group by group, every member into the
    folder of its group. *)
Lemma run_groups_moves {W : Type} (os : OS W) dir gs :
  forall processed (w : W) t w' r,
    run_groups os dir gs processed w = (t, w', r) ->
    exists j,
      (j <= List.length gs)%nat /\
      List.length (mkdirs t) = j /\
      moves t
      = flat_map (fun fg => map (fun src => (str src,
                                             str (fst fg // name src)))
                                (snd fg))
                 (combine (mkdirs t) (firstn j gs)) /\
      forall folders, r = Val folders -> j = List.length gs.
Proof.
  induction gs as [|g gs IH]; intros processed w t w' r H.
  - simpl in H. injection H as <- <- <-. exists O. repeat split; auto.
  - destruct (Spec.folder_of dir g) as [folder|] eqn:Hf.
    + destruct (run_groups_step os dir g gs folder processed w Hf) as [w1 E].
      rewrite E in H.
      destruct (run_groups os dir gs (processed ++ [folder]) w1)
        as [[t2 w2] r2] eqn:E2.
      assert (Et : t = batch_trace folder g ++ t2) by congruence.
      assert (Er : r = r2) by congruence. clear H. subst t r.
      destruct (IH _ _ _ _ _ E2) as (j & Hj & Hlen & Hmv & HV).
      exists (S j).
      rewrite mkdirs_app, moves_app, mkdirs_batch_trace, moves_batch_trace.
      cbn [app List.length firstn combine flat_map fst snd].
      repeat split.
      * lia.
      * lia.
      * rewrite Hmv. reflexivity.
      * intros folders Hr. rewrite (HV folders Hr). reflexivity.
    + cbn [run_groups] in H. rewrite Hf in H.
      injection H as <- <- <-. exists O. repeat split; auto; try (simpl; lia).
      intros folders E. discriminate E.
Qed.

Lemma firstn_of_seq j : forall a c,
  (j <= c)%nat -> firstn j (seq a c) = seq a j.
Proof.
  induction j as [|j IH]; intros a [|c] H; simpl; try lia; try reflexivity.
  f_equal. apply IH. lia.
Qed.

Lemma firstn_range j c :
  Z.of_nat j <= c -> firstn j (range 0 c) = range 0 (Z.of_nat j).
Proof.
  intros H. unfold range. rewrite !Z.sub_0_r, Nat2Z.id.
  rewrite firstn_map. f_equal. apply firstn_of_seq. lia.
Qed.

(** Every move of the partitioner takes a chapter of the list. *)
Lemma chapters_moved_sources {W : Type} (os : OS W) bsize dir
      (l : list Path) (w : W) t w' r :
  1 <= bsize ->
  partition os bsize dir l w = (t, w', r) ->
  Forall (fun m => exists src, In src l /\ fst m = str src) (moves t).
Proof.
  intros Hb H. rewrite (partition_groups os bsize dir l w Hb) in H.
  destruct (run_groups_moves os dir _ _ _ _ _ _ H)
    as (j & Hj & Hlen & Hmv & HV).
  rewrite Hmv. apply Forall_forall. intros m Hm.
  apply in_flat_map in Hm. destruct Hm as ([f g] & Hfg & Hm).
  apply in_map_iff in Hm. destruct Hm as (src & <- & Hsrc).
  cbn [fst snd] in *. exists src. split; [|reflexivity].
  apply in_combine_r in Hfg.
  assert (Hg : In g (Spec.groups bsize l)).
  { rewrite <- (firstn_skipn j (Spec.groups bsize l)).
    apply in_or_app. left. exact Hfg. }
  eapply groups_incl; eassumption.
Qed.

(** X9.  The partitioner moves chapters in the order of the sorted list:
    the sources of its moves are a prefix of the list, the whole list when
    it returns, and every move goes from a chapter of the list into a
    folder the partitioner has made, under the chapter's own name. *)
Theorem chapters_moved_in_order {W : Type} (os : OS W) bsize dir
        (l : list Path) (w : W) t w' r :
  1 <= bsize ->
  partition os bsize dir l w = (t, w', r) ->
  exists n,
    map fst (moves t) = map str (firstn n l) /\
    (forall folders, r = Val folders -> n = List.length l) /\
    Forall (fun m => exists src folder,
                In src l /\ In folder (mkdirs t) /\
                m = (str src, str (folder // name src)))
           (moves t).
Proof.
  intros Hb H. rewrite (partition_groups os bsize dir l w Hb) in H.
  destruct (run_groups_moves os dir _ _ _ _ _ _ H)
    as (j & Hj & Hlen & Hmv & HV).
  pose proof (groups_length bsize l Hb) as HL.
  pose proof (ceil_div_bounds (Z.of_nat (List.length l)) bsize Hb) as HC.
  exists (Z.to_nat (Z.min (Z.of_nat j * bsize) (Z.of_nat (List.length l)))).
  split; [|split].
  - rewrite Hmv, sources_of_moves by (rewrite length_firstn; lia).
    f_equal. unfold Spec.groups. rewrite firstn_map, firstn_range by lia.
    pose proof (groups_concat_upto bsize l Hb j 0 ltac:(lia) ltac:(lia)) as E.
    rewrite Z.add_0_l in E. rewrite E.
    replace (Z.min (0 * bsize) (Z.of_nat (List.length l))) with 0 by lia.
    unfold slice. rewrite Nat.sub_0_r. reflexivity.
  - intros folders Hr. rewrite (HV folders Hr). nia.
  - rewrite Hmv. apply Forall_forall. intros m Hm.
    apply in_flat_map in Hm. destruct Hm as ([f g] & Hfg & Hm).
    apply in_map_iff in Hm. destruct Hm as (src & <- & Hsrc).
    cbn [fst snd] in *. exists src, f.
    split; [|split; [|reflexivity]].
    + apply in_combine_r in Hfg.
      assert (Hg : In g (Spec.groups bsize l)).
      { rewrite <- (firstn_skipn j (Spec.groups bsize l)).
        apply in_or_app. left. exact Hfg. }
      eapply groups_incl; eassumption.
    + eapply in_combine_l. exact Hfg.
Qed.

Lemma chapters_moved_in_order_witness :
  1 <= 2 /\
  exists n,
    map fst (moves (fst (fst (partition (Sim.os Sim.broken) 2 Sim.manga_dir
                                [Sim.manga_dir // "c1"; Sim.manga_dir // "c2";
                                 Sim.manga_dir // "c3"] (Sim.machine [])))))
    = map str (firstn n [Sim.manga_dir // "c1"; Sim.manga_dir // "c2";
                         Sim.manga_dir // "c3"]) /\
    n = 3%nat.
Proof.
  split; [discriminate|].
  destruct (chapters_moved_in_order (Sim.os Sim.broken) 2 Sim.manga_dir
              [Sim.manga_dir // "c1"; Sim.manga_dir // "c2";
               Sim.manga_dir // "c3"] (Sim.machine [])
              (fst (fst (partition (Sim.os Sim.broken) 2 Sim.manga_dir
                           [Sim.manga_dir // "c1"; Sim.manga_dir // "c2";
                            Sim.manga_dir // "c3"] (Sim.machine []))))
              (snd (fst (partition (Sim.os Sim.broken) 2 Sim.manga_dir
                           [Sim.manga_dir // "c1"; Sim.manga_dir // "c2";
                            Sim.manga_dir // "c3"] (Sim.machine []))))
              (Val [Sim.manga_dir // "M_1_2"; Sim.manga_dir // "M_3_3"]))
    as (n & Hn & Hall & _).
  - discriminate.
  - reflexivity.
  - exists n. split; [exact Hn|]. exact (Hall _ eq_refl).
Defined.

Lemma moves_stdout s t : moves (Stdout s :: t) = moves t.
Proof. reflexivity. Qed.

(** X10.  Only what discovery found is ever moved: every move of the
    rearrangement stage takes an entry of the manga directory that was a
    directory and whose name starts with [c] or [C]. *)
Theorem only_chapter_directories_moved {W : Type} (os : OS W) args (w : W)
        t w' r src dst :
  1 <= batch_size args ->
  rearrange os args w = (t, w', r) ->
  In (src, dst) (moves t) ->
  exists manga_name_dir d,
    hd_error (manga_dirs os w) = Some manga_name_dir /\
    In d (map (joinpath manga_name_dir) (iterdir os w manga_name_dir)) /\
    is_dir os w d = true /\
    startswith (lower (name d)) "c" = true /\
    src = str d.
Proof.
  intros Hb H Hin. rewrite rearrange_cases in H.
  destruct (is_dir os w manga_base_dir).
  2:{ injection H as <- _ _. simpl in Hin. contradiction. }
  destruct (manga_dirs os w) as [|manga_name_dir rest] eqn:Hm.
  { injection H as <- _ _. simpl in Hin. contradiction. }
  destruct (sorted chapter_sort_key (discovered os w manga_name_dir))
    as [[|d0 l]| |] eqn:Hs;
    try (injection H as <- _ _; simpl in Hin; contradiction).
  destruct (partition os (batch_size args) manga_name_dir (d0 :: l) w)
    as [[tp wp] rp] eqn:Hp.
  injection H as Ht _ _. rewrite <- Ht in Hin.
  unfold rearrange_banner, found_manga in Hin. cbn [app] in Hin.
  rewrite !moves_stdout, moves_app in Hin.
  apply in_app_or in Hin. destruct Hin as [Hin|Hin].
  2:{ destruct rp; simpl in Hin; contradiction. }
  pose proof (chapters_moved_sources os _ _ _ _ _ _ _ Hb Hp) as Hsrc.
  rewrite Forall_forall in Hsrc. destruct (Hsrc _ Hin) as (d & Hd & E).
  destruct (sorted_spec chapter_sort_key _ _ Hs) as [HP _].
  apply (Permutation_in _ (Permutation_sym HP)) in Hd.
  unfold discovered in Hd. apply filter_In in Hd. destruct Hd as [Hd Hf].
  apply andb_prop in Hf. destruct Hf as [Hf1 Hf2].
  exists manga_name_dir, d. cbn [fst] in E. auto 10.
Qed.

Lemma only_chapter_directories_moved_witness :
  (1 <= batch_size Sim.args /\
   In ("manga_downloads/weebcentral/M/c1",
       "manga_downloads/weebcentral/M/M_1_1/c1")
      (moves (fst (fst (rearrange (Sim.os Sim.broken) Sim.args
                          (Sim.with_dirs (Sim.machine [])
                             [manga_base_dir; Sim.manga_dir;
                              Sim.manga_dir // "c1";
                              Sim.manga_dir // "notes"])))))) /\
  exists manga_name_dir d,
    hd_error (manga_dirs (Sim.os Sim.broken)
                (Sim.with_dirs (Sim.machine [])
                   [manga_base_dir; Sim.manga_dir; Sim.manga_dir // "c1";
                    Sim.manga_dir // "notes"]))
    = Some manga_name_dir /\
    In d (map (joinpath manga_name_dir)
              (iterdir (Sim.os Sim.broken)
                 (Sim.with_dirs (Sim.machine [])
                    [manga_base_dir; Sim.manga_dir; Sim.manga_dir // "c1";
                     Sim.manga_dir // "notes"])
                 manga_name_dir)) /\
    is_dir (Sim.os Sim.broken)
      (Sim.with_dirs (Sim.machine [])
         [manga_base_dir; Sim.manga_dir; Sim.manga_dir // "c1";
          Sim.manga_dir // "notes"]) d = true /\
    startswith (lower (name d)) "c" = true /\
    "manga_downloads/weebcentral/M/c1" = str d.
Proof.
  assert (Hin : In ("manga_downloads/weebcentral/M/c1",
                    "manga_downloads/weebcentral/M/M_1_1/c1")
                   (moves (fst (fst (rearrange (Sim.os Sim.broken) Sim.args
                                       (Sim.with_dirs (Sim.machine [])
                                          [manga_base_dir; Sim.manga_dir;
                                           Sim.manga_dir // "c1";
                                           Sim.manga_dir // "notes"])))))).
  { vm_compute. left. reflexivity. }
  split; [split; [discriminate|exact Hin]|].
  apply (only_chapter_directories_moved (Sim.os Sim.broken) Sim.args
           (Sim.with_dirs (Sim.machine [])
              [manga_base_dir; Sim.manga_dir; Sim.manga_dir // "c1";
               Sim.manga_dir // "notes"])
           (fst (fst (rearrange (Sim.os Sim.broken) Sim.args
                        (Sim.with_dirs (Sim.machine [])
                           [manga_base_dir; Sim.manga_dir;
                            Sim.manga_dir // "c1";
                            Sim.manga_dir // "notes"]))))
           (snd (fst (rearrange (Sim.os Sim.broken) Sim.args
                        (Sim.with_dirs (Sim.machine [])
                           [manga_base_dir; Sim.manga_dir;
                            Sim.manga_dir // "c1";
                            Sim.manga_dir // "notes"]))))
           (snd (rearrange (Sim.os Sim.broken) Sim.args
                   (Sim.with_dirs (Sim.machine [])
                      [manga_base_dir; Sim.manga_dir;
                       Sim.manga_dir // "c1";
                       Sim.manga_dir // "notes"])))
           _ "manga_downloads/weebcentral/M/M_1_1/c1").
  - discriminate.
  - destruct (rearrange _ _ _) as [[t w'] r]. reflexivity.
  - exact Hin.
Defined.

(** ** Keys and batch names *)

(** Where the anchored pattern matches, the search finds the same
    numeral. *)
Lemma match_then_search name g :
  Re.re_match name = Some g -> Re.re_search name = Some g.
Proof.
  unfold Re.re_match, Re.re_search.
  destruct (list_ascii_of_string name) as [|c t]; [discriminate|].
  cbn [Re.search_at].
  destruct (Re.match_at (c :: t)) as [g'|]; [auto|discriminate].
Qed.

(** X11.  Chapters whose keys are never the sentinel all carry a numeral
    that the extraction pattern finds: every group of the partition has a
    folder name, and the partitioner does not end in the [AttributeError]
    of a missing numeral. *)
Theorem keyed_chapters_have_folder_names {W : Type} (os : OS W) bsize dir
        (l : list Path) (w : W) :
  1 <= bsize ->
  Forall (fun d => exists k, chapter_sort_key d = Val k /\ k <> maxsize) l ->
  (exists folders,
     Forall2 (fun f g => Spec.folder_of dir g = Some f)
             folders (Spec.groups bsize l)) /\
  snd (partition os bsize dir l w) <> Raise AttributeError.
Proof.
  intros Hb Hall.
  assert (Hs : Forall (fun d => Re.re_search (name d) <> None) l).
  { eapply Forall_impl; [|exact Hall]. intros d (k & Hk & Hne).
    destruct (Re.re_match (name d)) as [g|] eqn:Hm.
    - rewrite (match_then_search _ _ Hm). discriminate.
    - exfalso. apply Hne. unfold chapter_sort_key in Hk. rewrite Hm in Hk.
      congruence. }
  destruct (groups_have_folders bsize dir l Hb Hs) as [folders HF].
  split; [exists folders; exact HF|].
  destruct (run_groups_ok os dir _ folders [] w HF) as [w' Hrun].
  rewrite (partition_groups os bsize dir l w Hb), Hrun. discriminate.
Qed.

Lemma keyed_chapters_have_folder_names_witness :
  (1 <= 2 /\
   Forall (fun d => exists k, chapter_sort_key d = Val k /\ k <> maxsize)
          [Sim.manga_dir // "c1"; Sim.manga_dir // "C2.5";
           Sim.manga_dir // "c3 extra"]) /\
  (exists folders,
     Forall2 (fun f g => Spec.folder_of Sim.manga_dir g = Some f) folders
             (Spec.groups 2 [Sim.manga_dir // "c1"; Sim.manga_dir // "C2.5";
                             Sim.manga_dir // "c3 extra"])) /\
  snd (partition (Sim.os Sim.broken) 2 Sim.manga_dir
                 [Sim.manga_dir // "c1"; Sim.manga_dir // "C2.5";
                  Sim.manga_dir // "c3 extra"] (Sim.machine []))
  <> Raise AttributeError.
Proof.
  assert (H : Forall (fun d => exists k,
                          chapter_sort_key d = Val k /\ k <> maxsize)
                     [Sim.manga_dir // "c1"; Sim.manga_dir // "C2.5";
                      Sim.manga_dir // "c3 extra"]).
  { repeat constructor.
    - exists 1. split; [reflexivity|discriminate].
    - exists 2. split; [reflexivity|discriminate].
    - exists 3. split; [reflexivity|discriminate]. }
  split; [split; [discriminate|exact H]|].
  apply keyed_chapters_have_folder_names; [discriminate|exact H].
Defined.

(** ** The conversion *)

(** The conversion of one folder: what it can leave in the trace and how
    it can end. *)
Lemma convert_folder_cases {W : Type} (os : OS W) decode strip args
      abs_epub_dir folder (w : W) :
  let '(t, _, r) :=
    convert_folder os decode strip args abs_epub_dir folder w in
  Forall (conversion_event args abs_epub_dir) t /\
  (List.length (runs t) <= 1)%nat /\
  (r = Val tt \/ exists msg, r = Raise (FileNotFoundError msg)).
Proof.
  unfold convert_folder, subprocess_run, conversion_warning, decode_ignore,
    capture, nonempty.
  open_script.
  destruct (is_dir os w folder); step.
  2:{ split; [constructor|]. split; [simpl; lia|left; reflexivity]. }
  destruct (spawn os w _ _) as [w1 [rc out err|msg]]; step.
  - destruct (rc =? 0); step; [|destruct (err =? "")%string; step];
      (split; [repeat (constructor; [simpl; eauto 6|]); constructor|]);
      (split; [simpl; lia|left; reflexivity]).
  - split; [repeat (constructor; [simpl; eauto 6|]); constructor|].
    split; [simpl; lia|right; eauto].
Qed.

Lemma conversion_loop_cases {W : Type} (os : OS W) decode strip args
      abs_epub_dir folders :
  forall w : W,
    let '(t, _, r) :=
      for_each folders (convert_folder os decode strip args abs_epub_dir) w in
    Forall (conversion_event args abs_epub_dir) t /\
    (List.length (runs t) <= List.length folders)%nat /\
    (r = Val tt \/ exists msg, r = Raise (FileNotFoundError msg)).
Proof.
  induction folders as [|f fs IH]; intros w.
  - simpl. split; [constructor|]. split; [lia|left; reflexivity].
  - cbn [for_each]. unfold bind.
    pose proof (convert_folder_cases os decode strip args abs_epub_dir f w)
      as H1.
    destruct (convert_folder os decode strip args abs_epub_dir f w)
      as [[t1 w1] r1].
    destruct H1 as (F1 & L1 & [->|[msg ->]]).
    + specialize (IH w1).
      destruct (for_each fs _ w1) as [[t2 w2] r2].
      destruct IH as (F2 & L2 & R2).
      split; [apply Forall_app; split; assumption|].
      split; [|exact R2].
      rewrite runs_app, length_app. cbn [List.length]. lia.
    + split; [exact F1|]. split; [cbn [List.length]; lia|right; eauto].
Qed.

(** X12.  The conversion stage makes the output root first and after that
    only prints and launches the converter: every launch is the
    converter's command line on some folder, with the output discarded,
    the error output captured and the converter's environment; there are
    at most as many launches as batch folders; nothing is moved or
    removed. *)
Theorem conversion_stage_effects {W : Type} (os : OS W) decode strip args
        folders (w : W) :
  let '(t, _, _) := kcc_processing os decode strip args folders w in
  exists t',
    t = Stdout "--- Starting KCC Processing ---" :: Mkdir EPUB_DIR :: t' /\
    Forall (conversion_event args (resolve os (mkdir os w EPUB_DIR) EPUB_DIR))
           t' /\
    (List.length (runs t') <= List.length folders)%nat.
Proof.
  unfold kcc_processing, do_mkdir. open_script.
  destruct folders as [|f fs]; step.
  - eexists. split; [reflexivity|].
    split; [repeat constructor|]. simpl. lia.
  - pose proof (conversion_loop_cases os decode strip args
                  (resolve os (mkdir os w EPUB_DIR) EPUB_DIR) (f :: fs)
                  (mkdir os w EPUB_DIR)) as H.
    destruct (for_each (f :: fs) _ (mkdir os w EPUB_DIR)) as [[t1 w1] r1].
    destruct H as (F & L & [->|[msg ->]]); step;
      (eexists; split; [reflexivity|]).
    + split.
      * constructor; [exact I|]. constructor; [exact I|].
        apply Forall_app. split; [exact F|]. repeat constructor.
      * rewrite !runs_app, !length_app. simpl in *. lia.
    + split.
      * constructor; [exact I|]. constructor; [exact I|]. exact F.
      * exact L.
Qed.

(** The conversion of a folder when the converter cannot be launched. *)
Lemma convert_folder_missing {W : Type} (os : OS W) decode strip args
      abs_epub_dir folder (w w1 : W) msg :
  is_dir os w folder = true ->
  spawn os w (convert_cmd args abs_epub_dir (resolve os w folder))
        (convert_env args) = (w1, NoSuchFile msg) ->
  convert_folder os decode strip args abs_epub_dir folder w
  = ([Stdout ("Processing folder: " ++ name folder);
      Run (convert_cmd args abs_epub_dir (resolve os w folder))
          Devnull Pipe (convert_env args)],
     w1, Raise (FileNotFoundError msg)).
Proof.
  intros Hd Hs. unfold convert_folder, subprocess_run.
  open_script. rewrite Hd. step. rewrite Hs. reflexivity.
Qed.

(** X13.  The conversion loop handles only a converter that ran and
    failed.  When the converter cannot be launched for a folder, the
    [FileNotFoundError] passes through the loop: the folders after it are
    not converted, the final cleanup does not run and the download root is
    left in place. *)
Theorem missing_converter_stops_run {W : Type} (os : OS W) decode strip args
        before folder after (w w1 w2 : W) t0 msg :
  for_each before
    (convert_folder os decode strip args
                    (resolve os (mkdir os w EPUB_DIR) EPUB_DIR))
    (mkdir os w EPUB_DIR)
  = (t0, w1, Val tt) ->
  is_dir os w1 folder = true ->
  spawn os w1
        (convert_cmd args (resolve os (mkdir os w EPUB_DIR) EPUB_DIR)
                     (resolve os w1 folder))
        (convert_env args)
  = (w2, NoSuchFile msg) ->
  bind (kcc_processing os decode strip args (before ++ folder :: after))
       (fun _ => final_cleanup os) w
  = (conversion_header os w (before ++ folder :: after)
       ++ t0
       ++ [Stdout ("Processing folder: " ++ name folder);
           Run (convert_cmd args (resolve os (mkdir os w EPUB_DIR) EPUB_DIR)
                            (resolve os w1 folder))
               Devnull Pipe (convert_env args)],
     w2, Raise (FileNotFoundError msg)).
Proof.
  intros Hb Hd Hs.
  pose proof (convert_folder_missing os decode strip args _ folder w1 w2 msg
                Hd Hs) as Hm.
  assert (Hloop :
            for_each (before ++ folder :: after)
              (convert_folder os decode strip args
                              (resolve os (mkdir os w EPUB_DIR) EPUB_DIR))
              (mkdir os w EPUB_DIR)
            = (t0 ++ [Stdout ("Processing folder: " ++ name folder);
                      Run (convert_cmd args
                             (resolve os (mkdir os w EPUB_DIR) EPUB_DIR)
                             (resolve os w1 folder))
                          Devnull Pipe (convert_env args)],
               w2, Raise (FileNotFoundError msg))).
  { rewrite for_each_app. rewrite (bind_val _ _ _ _ _ _ Hb).
    cbn [for_each]. rewrite (bind_raise _ _ _ _ _ _ Hm). reflexivity. }
  unfold kcc_processing, do_mkdir, conversion_header. open_script.
  destruct (before ++ folder :: after) as [|f fs] eqn:E.
  { destruct before; discriminate E. }
  step. rewrite Hloop. reflexivity.
Qed.

Lemma missing_converter_stops_run_witness :
  is_dir (Sim.os Sim.missing)
         (mkdir (Sim.os Sim.missing)
                (Sim.with_dirs (Sim.machine [])
                   [["manga_downloads"]; Sim.manga_dir // "M_1_2";
                    Sim.manga_dir // "M_3_3"])
                EPUB_DIR)
         (Sim.manga_dir // "M_1_2") = true /\
  runs (fst (fst (bind (kcc_processing (Sim.os Sim.missing) Sim.decode
                          Sim.strip Sim.args
                          ([] ++ Sim.manga_dir // "M_1_2"
                              :: [Sim.manga_dir // "M_3_3"]))
                       (fun _ => final_cleanup (Sim.os Sim.missing))
                       (Sim.with_dirs (Sim.machine [])
                          [["manga_downloads"]; Sim.manga_dir // "M_1_2";
                           Sim.manga_dir // "M_3_3"]))))
  = [["kcc"; "--manga-style"; "--profile=OTHER"; "--splitter=2";
      "--cropping=2"; "--customwidth=1264"; "--customheight=1680";
      "--format=EPUB"; "--stretch"; "-o"; "/work/epubs";
      "/work/manga_downloads/weebcentral/M/M_1_2"]] /\
  Sim.dirs (snd (fst (bind (kcc_processing (Sim.os Sim.missing) Sim.decode
                              Sim.strip Sim.args
                              ([] ++ Sim.manga_dir // "M_1_2"
                                  :: [Sim.manga_dir // "M_3_3"]))
                           (fun _ => final_cleanup (Sim.os Sim.missing))
                           (Sim.with_dirs (Sim.machine [])
                              [["manga_downloads"]; Sim.manga_dir // "M_1_2";
                               Sim.manga_dir // "M_3_3"]))))
  = [["manga_downloads"]; Sim.manga_dir // "M_1_2"; Sim.manga_dir // "M_3_3";
     ["epubs"]].
Proof.
  split; [reflexivity|].
  rewrite (missing_converter_stops_run (Sim.os Sim.missing) Sim.decode
             Sim.strip Sim.args [] (Sim.manga_dir // "M_1_2")
             [Sim.manga_dir // "M_3_3"]
             (Sim.with_dirs (Sim.machine [])
                [["manga_downloads"]; Sim.manga_dir // "M_1_2";
                 Sim.manga_dir // "M_3_3"])
             _ _ [] "[Errno 2] No such file or directory"
             eq_refl eq_refl eq_refl).
  split; reflexivity.
Defined.

(** ** [run_command] *)

(** X14.  [run_command] launches its command exactly once, leaves the
    state that the launch left, and returns exactly when the child ran and
    exited with code 0, whatever is captured. *)
Theorem run_command_single_launch {W : Type} (os : OS W) repr decode command
        capture_output text (w : W) :
  let '(t, w', r) := run_command os repr decode command capture_output text w in
  runs t = [command] /\
  w' = fst (spawn os w command []) /\
  (r = Val tt <-> failed (snd (spawn os w command [])) = false).
Proof.
  unfold run_command, subprocess_run, capture, nonempty, decode_ignore.
  open_script.
  destruct (spawn os w command []) as [w1 [rc out err|msg]]; step.
  - destruct rc as [|p|p]; cbn [Z.eqb failed snd fst]; step.
    + repeat split; auto.
    + destruct capture_output, text; step;
        try (destruct (out =? "")%string; cbn [negb]; step);
        try (destruct (err =? "")%string; cbn [negb]; step);
        (split; [reflexivity|]); (split; [reflexivity|]);
        split; discriminate.
    + destruct capture_output, text; step;
        try (destruct (out =? "")%string; cbn [negb]; step);
        try (destruct (err =? "")%string; cbn [negb]; step);
        (split; [reflexivity|]); (split; [reflexivity|]);
        split; discriminate.
  - destruct (getitem command 0); step;
      (split; [reflexivity|]); (split; [reflexivity|]);
      split; discriminate.
Qed.

(** X15.  What [run_command] does with the captured output of a child that
    exits with a code other than 0.  Captured as bytes, the output that is
    not empty is decoded and printed after the report, and the process
    exits with code 1.  Captured as text, output that is not empty has no
    [decode]: the handler ends in [AttributeError] after the report,
    before any output is printed, and the process does not exit with
    code 1. *)
Theorem run_command_captured_failure {W : Type} (os : OS W) repr decode
        command (w w1 : W) rc out err :
  spawn os w command [] = (w1, Ran rc out err) ->
  rc <> 0 ->
  run_command os repr decode command true false w
  = (captured_failure repr command rc
       ++ (if (out =? "")%string then []
           else [Stderr ("Stdout: " ++ decode out)])
       ++ (if (err =? "")%string then []
           else [Stderr ("Stderr: " ++ decode err)]),
     w1, Raise (SystemExit 1)) /\
  (out <> "" \/ err <> "" ->
   run_command os repr decode command true true w
   = (captured_failure repr command rc, w1, Raise AttributeError)).
Proof.
  intros Hs Hrc. apply Z.eqb_neq in Hrc.
  unfold run_command, subprocess_run, capture, nonempty, decode_ignore,
    captured_failure.
  open_script. rewrite Hs. step. rewrite Hrc. step. split.
  - destruct (out =? "")%string, (err =? "")%string; reflexivity.
  - intros Hne.
    destruct (String.eqb_spec out "") as [->|Ho]; cbn [negb]; step;
      [|reflexivity].
    destruct (String.eqb_spec err "") as [->|He]; cbn [negb]; step;
      [|reflexivity].
    destruct Hne as [Hne|Hne]; contradiction Hne; reflexivity.
Qed.

Lemma run_command_captured_failure_witness :
  (2 <> 0 /\ ("partial" <> "" \/ "" <> "")) /\
  snd (run_command (Sim.os (fun _ ds => (ds, Ran 2 "partial" "")))
         Sim.repr Sim.decode ["gallery-dl"; "x"] true true (Sim.machine []))
  = Raise AttributeError /\
  snd (run_command (Sim.os (fun _ ds => (ds, Ran 2 "partial" "")))
         Sim.repr Sim.decode ["gallery-dl"; "x"] true false (Sim.machine []))
  = Raise (SystemExit 1).
Proof.
  assert (Hrc : 2 <> 0) by discriminate.
  assert (Hout : "partial" <> "" \/ "" <> "") by (left; discriminate).
  split; [split; assumption|].
  destruct (run_command_captured_failure
              (Sim.os (fun _ ds => (ds, Ran 2 "partial" "")))
              Sim.repr Sim.decode ["gallery-dl"; "x"]
              (Sim.machine []) (Sim.machine []) 2 "partial" ""
              eq_refl Hrc) as [Hb Ht].
  rewrite Hb, (Ht Hout). split; reflexivity.
Defined.

(** ** How the stages end *)

Lemma kcc_processing_result {W : Type} (os : OS W) decode strip args
      folders (w : W) :
  snd (kcc_processing os decode strip args folders w) = Val tt \/
  (snd (kcc_processing os decode strip args folders w) = Raise (SystemExit 0)
   /\ folders = []) \/
  exists msg,
    snd (kcc_processing os decode strip args folders w)
    = Raise (FileNotFoundError msg).
Proof.
  unfold kcc_processing, do_mkdir. open_script.
  destruct folders as [|f fs]; step; [auto|].
  pose proof (conversion_loop_cases os decode strip args
                (resolve os (mkdir os w EPUB_DIR) EPUB_DIR) (f :: fs)
                (mkdir os w EPUB_DIR)) as H.
  destruct (for_each (f :: fs) _ (mkdir os w EPUB_DIR)) as [[t1 w1] r1].
  destruct H as (_ & _ & [->|[msg ->]]); step; cbn [snd]; eauto.
Qed.

Lemma preflight_result {W : Type} (os : OS W) args (w : W) :
  (preflight os args w = ([], w, Val tt) /\ 1 <= batch_size args) \/
  snd (preflight os args w) = Raise (SystemExit 1).
Proof.
  pose proof (preflight_cases os args w) as H.
  destruct (preflight_ok os args w) eqn:E.
  - left. split; [exact H|]. unfold preflight_ok in E.
    destruct (Z.ltb_spec 0 (batch_size args)); [lia|discriminate E].
  - right. destruct H as [msg ->]. reflexivity.
Qed.

(** X16.  With a positive batch size the batch loop ends, however it
    ends, and it has made at most [ceil(N/B)] batch folders for the [N]
    chapters it was given. *)
Theorem batch_loop_terminates {W : Type} (os : OS W) bsize dir
        (l : list Path) (w : W) t w' r :
  1 <= bsize ->
  partition os bsize dir l w = (t, w', r) ->
  r <> Diverge /\
  Z.of_nat (List.length (mkdirs t))
  <= Spec.ceil_div (Z.of_nat (List.length l)) bsize.
Proof.
  intros Hb H. split.
  - pose proof (partition_ends os bsize dir l w Hb) as He.
    rewrite H in He. exact He.
  - destruct (partition_mkdirs os bsize dir l w t w' r Hb H) as (j & HF & _).
    rewrite (Forall2_length HF), length_firstn.
    rewrite <- (groups_length bsize l Hb). lia.
Qed.

Lemma batch_loop_terminates_witness :
  1 <= 1 /\
  snd (partition (Sim.os Sim.broken) 1 Sim.manga_dir
         [Sim.manga_dir // "c1"; Sim.manga_dir // "cover";
          Sim.manga_dir // "c3"] (Sim.machine []))
  = Raise AttributeError /\
  Z.of_nat (List.length
              (mkdirs (fst (fst (partition (Sim.os Sim.broken) 1 Sim.manga_dir
                                   [Sim.manga_dir // "c1";
                                    Sim.manga_dir // "cover";
                                    Sim.manga_dir // "c3"]
                                   (Sim.machine []))))))
  <= Spec.ceil_div (Z.of_nat 3) 1.
Proof.
  assert (Hb : 1 <= 1) by discriminate.
  split; [exact Hb|]. split; [vm_compute; reflexivity|].
  destruct (batch_loop_terminates (Sim.os Sim.broken) 1 Sim.manga_dir
              [Sim.manga_dir // "c1"; Sim.manga_dir // "cover";
               Sim.manga_dir // "c3"] (Sim.machine [])
              (fst (fst (partition (Sim.os Sim.broken) 1 Sim.manga_dir
                           [Sim.manga_dir // "c1"; Sim.manga_dir // "cover";
                            Sim.manga_dir // "c3"] (Sim.machine []))))
              (snd (fst (partition (Sim.os Sim.broken) 1 Sim.manga_dir
                           [Sim.manga_dir // "c1"; Sim.manga_dir // "cover";
                            Sim.manga_dir // "c3"] (Sim.machine []))))
              (snd (partition (Sim.os Sim.broken) 1 Sim.manga_dir
                      [Sim.manga_dir // "c1"; Sim.manga_dir // "cover";
                       Sim.manga_dir // "c3"] (Sim.machine [])))
              Hb) as [_ Hm].
  - destruct (partition _ _ _ _ _) as [[t w'] r]. reflexivity.
  - exact Hm.
Defined.

(** ** What the rearrangement hands to the conversion *)

(** X17.  When the rearrangement stage returns, it returns at least one
    batch folder: the folders are the directories it made, in order, and
    there are [ceil(N/B)] of them for the [N] chapter directories it
    discovered.  The exit of the conversion stage for an empty list of
    batch folders is therefore never taken after it. *)
Theorem rearrange_returns_batches {W : Type} (os : OS W) decode strip args
        (w : W) t w' folders :
  1 <= batch_size args ->
  rearrange os args w = (t, w', Val folders) ->
  folders <> [] /\
  folders = mkdirs t /\
  (exists manga_name_dir,
     hd_error (manga_dirs os w) = Some manga_name_dir /\
     Z.of_nat (List.length folders)
     = Spec.ceil_div
         (Z.of_nat (List.length (discovered os w manga_name_dir)))
         (batch_size args)) /\
  forall w2,
    snd (kcc_processing os decode strip args folders w2)
    <> Raise (SystemExit 0).
Proof.
  intros Hb H. rewrite rearrange_cases in H.
  destruct (is_dir os w manga_base_dir); [|discriminate H].
  destruct (manga_dirs os w) as [|manga_name_dir rest]; [discriminate H|].
  destruct (sorted chapter_sort_key (discovered os w manga_name_dir))
    as [[|d l']| |] eqn:E; try discriminate H.
  destruct (partition os (batch_size args) manga_name_dir (d :: l') w)
    as [[tp w1] r] eqn:P.
  assert (Hr : r = Val folders) by congruence. subst r.
  assert (Ht : t = [rearrange_banner; found_manga manga_name_dir;
                    Stdout ("Found "
                              ++ str_int (Z.of_nat (List.length (d :: l')))
                              ++ " chapter folders.")]
                     ++ tp ++ [Stdout ("Rearranging finished." ++ nl)])
    by congruence.
  clear H.
  destruct (partition_mkdirs os (batch_size args) manga_name_dir (d :: l')
              w tp w1 (Val folders) Hb P) as (j & HF & Hv).
  destruct (Hv folders eq_refl) as [Hfold Hj].
  assert (Hm : mkdirs t = mkdirs tp).
  { rewrite Ht, !mkdirs_app. cbn [mkdirs flat_map rearrange_banner found_manga app].
    apply app_nil_r. }
  assert (Hlen : Z.of_nat (List.length folders)
                 = Spec.ceil_div (Z.of_nat (List.length (d :: l')))
                                 (batch_size args)).
  { rewrite Hfold, (Forall2_length HF), Hj, firstn_all.
    apply groups_length. exact Hb. }
  assert (Hne : folders <> []).
  { intros ->. cbn [List.length] in Hlen.
    pose proof (ceil_div_bounds (Z.of_nat (S (List.length l')))
                  (batch_size args) Hb) as B.
    rewrite <- Hlen in B. lia. }
  split; [exact Hne|]. split; [congruence|]. split.
  - exists manga_name_dir. split; [reflexivity|].
    destruct (sorted_spec chapter_sort_key _ _ E) as [HP _].
    rewrite (Permutation_length HP). exact Hlen.
  - intros w2.
    destruct (kcc_processing_result os decode strip args folders w2)
      as [Hk|[[_ Hk]|[msg Hk]]]; [rewrite Hk; discriminate|contradiction|].
    rewrite Hk. discriminate.
Qed.

Lemma rearrange_returns_batches_witness :
  1 <= batch_size Sim.args /\
  snd (rearrange (Sim.os Sim.broken) Sim.args
         (Sim.with_dirs (Sim.machine [])
            [manga_base_dir; Sim.manga_dir; Sim.manga_dir // "c1";
             Sim.manga_dir // "c2"]))
  = Val [Sim.manga_dir // "M_1_2"] /\
  [Sim.manga_dir // "M_1_2"] <> [] /\
  forall w2,
    snd (kcc_processing (Sim.os Sim.broken) Sim.decode Sim.strip Sim.args
           [Sim.manga_dir // "M_1_2"] w2)
    <> Raise (SystemExit 0).
Proof.
  assert (Hb : 1 <= batch_size Sim.args) by discriminate.
  split; [exact Hb|]. split; [reflexivity|].
  destruct (rearrange_returns_batches (Sim.os Sim.broken) Sim.decode
              Sim.strip Sim.args
              (Sim.with_dirs (Sim.machine [])
                 [manga_base_dir; Sim.manga_dir; Sim.manga_dir // "c1";
                  Sim.manga_dir // "c2"])
              (fst (fst (rearrange (Sim.os Sim.broken) Sim.args
                           (Sim.with_dirs (Sim.machine [])
                              [manga_base_dir; Sim.manga_dir;
                               Sim.manga_dir // "c1";
                               Sim.manga_dir // "c2"]))))
              (snd (fst (rearrange (Sim.os Sim.broken) Sim.args
                           (Sim.with_dirs (Sim.machine [])
                              [manga_base_dir; Sim.manga_dir;
                               Sim.manga_dir // "c1";
                               Sim.manga_dir // "c2"]))))
              [Sim.manga_dir // "M_1_2"]
              Hb eq_refl) as (Hne & _ & _ & Hk).
  split; assumption.
Defined.

(** ** Discovery and the key *)

Lemma lower_char_c c : lower_char c = "c"%char -> is_c c = true.
Proof.
  destruct c as [[] [] [] [] [] [] [] []]; vm_compute; intros H;
    first [reflexivity|discriminate H].
Qed.

Lemma group_at_none s :
  Re.group_at s = None <-> starts_with_digit s = false.
Proof.
  unfold Re.group_at. destruct s as [|c1 r]; [simpl; tauto|].
  cbn [Re.span_digits starts_with_digit].
  destruct (is_digit c1); [|tauto].
  destruct (Re.span_digits r) as [d' r'].
  split; [|discriminate].
  destruct r' as [|c r'']; [discriminate|].
  destruct (Ascii.eqb c "."); [|discriminate].
  destruct (Re.span_digits r'') as [[|f fs] ?]; discriminate.
Qed.

(** X18.  Discovery keeps the directories whose name starts with [c] or
    [C], and the key pattern asks for a digit right after it: among the
    discovered directories, the ones that get the sentinel key are
    exactly those whose second character is not a digit. *)
Theorem discovered_sentinel (d : Path) :
  startswith (lower (name d)) "c" = true ->
  (chapter_sort_key d = Val maxsize <->
   starts_with_digit (tl (list_ascii_of_string (name d))) = false).
Proof.
  intros Hs.
  assert (Hm : Re.re_match (name d) = None <->
               starts_with_digit (tl (list_ascii_of_string (name d))) = false).
  { unfold Re.re_match, startswith, lower in *.
    destruct (name d) as [|c0 rest]; [discriminate Hs|].
    cbn [list_ascii_of_string map string_of_list_ascii prefix tl] in *.
    destruct (ascii_dec "c" (lower_char c0)) as [Hc|]; [|discriminate Hs].
    cbn [Re.match_at]. rewrite (lower_char_c c0 (eq_sym Hc)).
    rewrite <- group_at_none.
    destruct (Re.group_at (list_ascii_of_string rest)); simpl;
      split; congruence. }
  rewrite <- Hm. split.
  - destruct (Re.re_match (name d)) as [g|] eqn:E; [|reflexivity].
    intros H. exfalso. exact (matching_key_not_maxsize d g E H).
  - intros H. unfold chapter_sort_key. rewrite H. reflexivity.
Qed.

Lemma discovered_sentinel_witness :
  startswith (lower (name (Sim.manga_dir // "Cover"))) "c" = true /\
  chapter_sort_key (Sim.manga_dir // "Cover") = Val maxsize.
Proof.
  split; [reflexivity|].
  exact (proj2 (discovered_sentinel (Sim.manga_dir // "Cover") eq_refl)
               eq_refl).
Defined.

(** X19.  The text that the pattern captures is always a numeral [float]
    accepts, so the handler of [ValueError] in the key function is never
    entered: the key of a matching name is [int(float(..))] of the
    captured text, which is a number that is not negative or the
    [OverflowError] of a numeral beyond the floats. *)
Theorem key_value_error_unreachable (d : Path) g :
  Re.re_match (name d) = Some g ->
  (exists x, PyFloat.float_of_string g = Val x) /\
  chapter_sort_key d
  = res_bind (PyFloat.float_of_string g) PyFloat.int_of_float /\
  ((exists k, chapter_sort_key d = Val k /\ 0 <= k) \/
   chapter_sort_key d = Raise OverflowError).
Proof.
  intros Hm.
  assert (Hg : exists ds fs,
             PyFloat.parse_numeral (list_ascii_of_string g) = Some (ds, fs) /\
             all_digits ds = true /\ all_digits fs = true).
  { unfold Re.re_match in Hm.
    destruct (Re.match_at (list_ascii_of_string (name d))) as [g'|] eqn:Hg;
      [|discriminate].
    simpl in Hm. injection Hm as <-.
    destruct (match_at_inv _ _ Hg)
      as (c & ds & fs & rest & _ & -> & _ & Hne & Hds & Hfs & _).
    exists ds, fs. rewrite list_ascii_of_string_of_list_ascii.
    split; [apply parse_numeral_text; assumption|auto]. }
  destruct Hg as (ds & fs & Hp & Hds & Hfs).
  unfold chapter_sort_key. rewrite Hm.
  unfold PyFloat.float_of_string. rewrite Hp. cbn [res_bind].
  split; [eauto|].
  assert (H0 : 0 <= PyFloat.digits_value (ds ++ fs)).
  { apply digits_value_bound. unfold all_digits in *.
    rewrite forallb_app, Hds, Hfs. reflexivity. }
  assert (Hq : 0 < 10 ^ Z.of_nat (List.length fs))
    by (apply Z.pow_pos_nonneg; lia).
  destruct (PyFloat.nearest (PyFloat.digits_value (ds ++ fs))
                            (10 ^ Z.of_nat (List.length fs)))
    as [m s|] eqn:E.
  - destruct (nearest_mantissa _ _ m s H0 Hq E) as [Hm0 _].
    cbn [PyFloat.int_of_float except_ValueError].
    split; [reflexivity|]. left. eexists. split; [reflexivity|].
    destruct (Z.leb_spec 0 s).
    + assert (0 < 2 ^ s) by (apply Z.pow_pos_nonneg; lia). nia.
    + assert (0 < 2 ^ (- s)) by (apply Z.pow_pos_nonneg; lia).
      apply Z.div_pos; lia.
  - cbn [PyFloat.int_of_float except_ValueError].
    split; [reflexivity|]. right. reflexivity.
Qed.

Lemma key_value_error_unreachable_witness :
  Re.re_match (name (Sim.manga_dir // "c12.5 extra")) = Some "12.5" /\
  PyFloat.float_of_string "12.5" = Val (PyFloat.Finite 7036874417766400 (-49))
  /\ chapter_sort_key (Sim.manga_dir // "c12.5 extra") = Val 12.
Proof.
  split; [reflexivity|].
  destruct (key_value_error_unreachable (Sim.manga_dir // "c12.5 extra")
              "12.5" eq_refl) as (_ & Hk & _).
  split; [vm_compute; reflexivity|]. rewrite Hk. vm_compute. reflexivity.
Defined.

(** ** The footprint of a run *)

Lemma rmtrees_app t1 t2 : rmtrees (t1 ++ t2) = rmtrees t1 ++ rmtrees t2.
Proof. unfold rmtrees. apply flat_map_app. Qed.

Lemma inputs_app t1 t2 : inputs (t1 ++ t2) = inputs t1 ++ inputs t2.
Proof. unfold inputs. apply flat_map_app. Qed.

Lemma bind_trace {W A B : Type} (m : M W A) (f : A -> M W B) (w : W) :
  trace (bind m f w)
  = trace (m w) ++ match snd (m w) with
                   | Val a => trace (f a (snd (fst (m w))))
                   | _ => []
                   end.
Proof.
  unfold bind, trace. destruct (m w) as [[t1 w1] [a|e|]]; cbn [fst snd];
    [|rewrite app_nil_r; reflexivity..].
  destruct (f a w1) as [[t2 w2] r2]. reflexivity.
Qed.

Lemma preflight_footprint {W : Type} (os : OS W) args (w : W) :
  runs (trace (preflight os args w)) = [] /\
  rmtrees (trace (preflight os args w)) = [] /\
  inputs (trace (preflight os args w)) = [].
Proof.
  pose proof (preflight_cases os args w) as H.
  destruct (preflight_ok os args w); [|destruct H as [msg H]]; rewrite H;
    repeat split.
Qed.

Lemma cleanup_footprint {W : Type} (os : OS W) (w : W) :
  runs (trace (cleanup os w)) = [] /\
  Forall (fun p => p = DOWNLOAD_DIR \/ p = EPUB_DIR)
         (rmtrees (trace (cleanup os w))) /\
  (In EPUB_DIR (rmtrees (trace (cleanup os w))) -> confirmed os w) /\
  (inputs (trace (cleanup os w)) = [] \/
   inputs (trace (cleanup os w)) = [confirm_prompt]).
Proof.
  unfold confirmed, after_stale_removal, cleanup, py_input, do_rmtree.
  open_script.
  assert (Hne : forall P : Prop, In EPUB_DIR [DOWNLOAD_DIR] -> P).
  { intros P [H|[]]. discriminate H. }
  destruct (exists_ os w DOWNLOAD_DIR); step;
    match goal with
    | |- context [exists_ os ?w0 EPUB_DIR] =>
        destruct (exists_ os w0 EPUB_DIR); step;
        [destruct (input os w0 confirm_prompt) as [w2 [a|]] eqn:Hi; step;
         [destruct (lower a =? "y")%string eqn:Ha; step|]|]
    end;
    cbn [trace fst snd app runs rmtrees inputs flat_map In];
    (split; [reflexivity|]);
    (split; [repeat constructor; auto|]);
    (split; [|auto]);
    try (apply String.eqb_eq in Ha);
    try (intros [H|[H|[]]]; try discriminate H; eauto);
    try (intros [H|[]]; try discriminate H; eauto);
    try (intros []).
Qed.

Lemma download_footprint {W : Type} (os : OS W) repr decode args (w : W) :
  runs (trace (download os repr decode args w)) = [gallery_dl_command args] /\
  rmtrees (trace (download os repr decode args w)) = [] /\
  inputs (trace (download os repr decode args w)) = [].
Proof.
  unfold download, run_command, subprocess_run, do_mkdir, capture, nonempty,
    gallery_dl_command, chapter_range_option.
  open_script.
  destruct (truthy (min_chapter args)), (truthy (max_chapter args));
    cbn [andb]; step;
    match goal with
    | |- context [spawn os ?w0 ?c ?e] =>
        destruct (spawn os w0 c e) as [w1 [rc out err|msg]]
    end; step; try (destruct (rc =? 0); step); cbn [app];
    rewrite ?getitem_first; step; repeat split.
Qed.

Lemma batch_trace_footprint folder g :
  runs (batch_trace folder g) = [] /\
  rmtrees (batch_trace folder g) = [] /\
  inputs (batch_trace folder g) = [].
Proof.
  unfold batch_trace.
  change (runs (move_trace folder g) = [] /\
          rmtrees (move_trace folder g) = [] /\
          inputs (move_trace folder g) = []).
  induction g as [|src g IH]; [repeat split|]. exact IH.
Qed.

Lemma run_groups_footprint {W : Type} (os : OS W) dir gs :
  forall processed (w : W),
    runs (trace (run_groups os dir gs processed w)) = [] /\
    rmtrees (trace (run_groups os dir gs processed w)) = [] /\
    inputs (trace (run_groups os dir gs processed w)) = [].
Proof.
  induction gs as [|g gs IH]; intros processed w.
  - repeat split.
  - destruct (Spec.folder_of dir g) as [folder|] eqn:Hf.
    + destruct (run_groups_step os dir g gs folder processed w Hf) as [w1 E].
      rewrite E. specialize (IH (processed ++ [folder]) w1).
      destruct (run_groups os dir gs (processed ++ [folder]) w1)
        as [[t2 w2] r2].
      cbn [trace fst snd] in *.
      destruct (batch_trace_footprint folder g) as (B1 & B2 & B3).
      destruct IH as (I1 & I2 & I3).
      rewrite runs_app, rmtrees_app, inputs_app, B1, B2, B3, I1, I2, I3.
      repeat split.
    + cbn [run_groups]. rewrite Hf. repeat split.
Qed.

Lemma rearrange_footprint {W : Type} (os : OS W) args (w : W) :
  1 <= batch_size args ->
  runs (trace (rearrange os args w)) = [] /\
  rmtrees (trace (rearrange os args w)) = [] /\
  inputs (trace (rearrange os args w)) = [].
Proof.
  intros Hb. rewrite rearrange_cases.
  destruct (is_dir os w manga_base_dir); [|repeat split].
  destruct (manga_dirs os w) as [|manga_name_dir rest]; [repeat split|].
  destruct (sorted chapter_sort_key (discovered os w manga_name_dir))
    as [[|d l']| |]; try (repeat split; fail).
  pose proof (run_groups_footprint os manga_name_dir
                (Spec.groups (batch_size args) (d :: l')) [] w) as H.
  rewrite <- (partition_groups os (batch_size args) manga_name_dir
                (d :: l') w Hb) in H.
  destruct (partition os (batch_size args) manga_name_dir (d :: l') w)
    as [[tp w'] r].
  cbn [trace fst snd] in *. destruct H as (H1 & H2 & H3).
  rewrite !runs_app, !rmtrees_app, !inputs_app, H1, H2, H3.
  destruct r; repeat split.
Qed.

Lemma conversion_events_footprint args abs_epub_dir t :
  Forall (conversion_event args abs_epub_dir) t ->
  Forall (converter_command args) (runs t) /\
  rmtrees t = [] /\ inputs t = [].
Proof.
  induction 1 as [|ev t Hev _ IH]; [repeat split; constructor|].
  destruct IH as (I1 & I2 & I3).
  destruct ev; cbn [conversion_event] in Hev; try contradiction;
    cbn [runs rmtrees inputs flat_map app]; fold (runs t) (rmtrees t) (inputs t);
    (split; [|split; assumption]); try exact I1.
  constructor; [|exact I1].
  destruct Hev as ((p & ->) & _). exists abs_epub_dir, p. reflexivity.
Qed.

Lemma kcc_processing_footprint {W : Type} (os : OS W) decode strip args
      folders (w : W) :
  Forall (converter_command args)
         (runs (trace (kcc_processing os decode strip args folders w))) /\
  rmtrees (trace (kcc_processing os decode strip args folders w)) = [] /\
  inputs (trace (kcc_processing os decode strip args folders w)) = [].
Proof.
  unfold kcc_processing, do_mkdir. open_script.
  destruct folders as [|f fs]; step; [repeat split; constructor|].
  pose proof (conversion_loop_cases os decode strip args
                (resolve os (mkdir os w EPUB_DIR) EPUB_DIR) (f :: fs)
                (mkdir os w EPUB_DIR)) as H.
  destruct (for_each (f :: fs) _ (mkdir os w EPUB_DIR)) as [[t1 w1] r1].
  destruct H as (F & _ & _).
  destruct (conversion_events_footprint _ _ _ F) as (C1 & C2 & C3).
  destruct r1 as [[]|e|]; step; cbn [trace fst snd];
    rewrite ?runs_app, ?rmtrees_app, ?inputs_app, ?C2, ?C3;
    cbn [runs rmtrees inputs flat_map app]; rewrite ?app_nil_r;
    repeat split; auto.
Qed.

(** What the stages after the cleanup leave in the trace. *)
Lemma after_cleanup_footprint {W : Type} (os : OS W) repr decode strip args
      (w : W) :
  1 <= batch_size args ->
  let t := trace ((download os repr decode args ;;
                   processed_batch_folders <- rearrange os args ;;
                   kcc_processing os decode strip args processed_batch_folders ;;
                   final_cleanup os)%py w) in
  (exists rest, runs t = gallery_dl_command args :: rest /\
                Forall (converter_command args) rest) /\
  (rmtrees t = [] \/ rmtrees t = [DOWNLOAD_DIR]) /\
  inputs t = [].
Proof.
  intros Hb. cbv zeta. rewrite bind_trace.
  destruct (download_footprint os repr decode args w) as (D1 & D2 & D3).
  rewrite runs_app, rmtrees_app, inputs_app, D1, D2, D3. cbn [app].
  destruct (snd (download os repr decode args w)) as [[]|e|];
    [|repeat split; eauto..].
  set (w1 := snd (fst (download os repr decode args w))).
  rewrite bind_trace.
  destruct (rearrange_footprint os args w1 Hb) as (R1 & R2 & R3).
  rewrite runs_app, rmtrees_app, inputs_app, R1, R2, R3. cbn [app].
  destruct (snd (rearrange os args w1)) as [folders|e|];
    [|repeat split; eauto..].
  set (w2 := snd (fst (rearrange os args w1))).
  rewrite bind_trace.
  destruct (kcc_processing_footprint os decode strip args folders w2)
    as (K1 & K2 & K3).
  rewrite runs_app, rmtrees_app, inputs_app, K2, K3. cbn [app].
  destruct (snd (kcc_processing os decode strip args folders w2))
    as [[]|e|]; cbn [trace fst snd final_cleanup];
    rewrite ?app_nil_r; repeat split; eauto.
Qed.

Lemma script_trace {W : Type} (os : OS W) repr decode strip args (w : W) :
  trace (script os repr decode strip args w)
  = trace (main os repr decode strip args w).
Proof.
  unfold script. destruct (main os repr decode strip args w) as [[t w'] r].
  reflexivity.
Qed.

(** The trace of the whole script, by what the stages leave in it. *)
Lemma script_footprint {W : Type} (os : OS W) repr decode strip args
      (w : W) :
  let t := trace (script os repr decode strip args w) in
  (runs t = [] \/
   exists rest, runs t = gallery_dl_command args :: rest /\
                Forall (converter_command args) rest) /\
  (rmtrees t = [] \/
   exists last, (last = [] \/ last = [DOWNLOAD_DIR]) /\
                rmtrees t = rmtrees (trace (cleanup os w)) ++ last) /\
  (inputs t = [] \/ inputs t = [confirm_prompt]).
Proof.
  cbv zeta. rewrite script_trace. unfold main. rewrite bind_trace.
  destruct (preflight_footprint os args w) as (P1 & P2 & P3).
  destruct (cleanup_footprint os w) as (C1 & _ & _ & C4).
  rewrite runs_app, rmtrees_app, inputs_app, P1, P2, P3. cbn [app].
  destruct (preflight_result os args w) as [[Hp Hb]|Hp]; rewrite Hp;
    [|repeat split; auto].
  cbn [fst snd]. rewrite bind_trace.
  rewrite runs_app, rmtrees_app, inputs_app, C1. cbn [app].
  destruct (snd (cleanup os w)) as [[]|e|].
  - destruct (after_cleanup_footprint os repr decode strip args
                (snd (fst (cleanup os w))) Hb) as (A1 & A2 & A3).
    cbv zeta in A1, A2, A3. rewrite A3, app_nil_r.
    split; [right; exact A1|]. split; [|exact C4].
    right. destruct A2 as [A2|A2]; rewrite A2; eauto.
  - rewrite !app_nil_r. split; [auto|]. split; [|exact C4].
    right. exists []. rewrite app_nil_r. auto.
  - rewrite !app_nil_r. split; [auto|]. split; [|exact C4].
    right. exists []. rewrite app_nil_r. auto.
Qed.

(** X20.  The script removes nothing but its own two directories: every
    tree it removes is the download root [manga_downloads] or the output
    root [epubs], and the output root is removed only when the user
    answered [y] or [Y] to the question of the cleanup stage.  Standard
    input is read at most once, for that question. *)
Theorem removes_only_its_directories {W : Type} (os : OS W) repr decode
        strip args (w : W) :
  Forall (fun p => p = DOWNLOAD_DIR \/ p = EPUB_DIR)
         (rmtrees (trace (script os repr decode strip args w))) /\
  (In EPUB_DIR (rmtrees (trace (script os repr decode strip args w))) ->
   confirmed os w) /\
  (inputs (trace (script os repr decode strip args w)) = [] \/
   inputs (trace (script os repr decode strip args w)) = [confirm_prompt]).
Proof.
  destruct (script_footprint os repr decode strip args w) as (_ & R & I).
  cbv zeta in R, I.
  destruct (cleanup_footprint os w) as (_ & C2 & C3 & _).
  split; [|split; [|exact I]].
  - destruct R as [->|(last & Hl & ->)]; [constructor|].
    apply Forall_app. split; [exact C2|].
    destruct Hl as [->| ->]; repeat constructor.
  - destruct R as [->|(last & Hl & ->)]; [intros []|].
    intros Hin. apply in_app_or in Hin. destruct Hin as [Hin|Hin];
      [exact (C3 Hin)|].
    destruct Hl as [->| ->]; [destruct Hin|].
    destruct Hin as [Hin|[]]. discriminate Hin.
Qed.

(** X21.  The script launches nothing but the downloader and the
    converter: a run that launches anything launches the downloader
    first, once, with the command line of the download stage, and every
    later launch is a command line of the converter. *)
Theorem launches_downloader_then_converter {W : Type} (os : OS W) repr
        decode strip args (w : W) :
  runs (trace (script os repr decode strip args w)) = [] \/
  exists rest,
    runs (trace (script os repr decode strip args w))
    = gallery_dl_command args :: rest /\
    Forall (converter_command args) rest.
Proof.
  destruct (script_footprint os repr decode strip args w) as (R & _).
  exact R.
Qed.

(** ** A run that completes *)

Lemma bind_val_inv {W A B : Type} (m : M W A) (f : A -> M W B) (w w' : W)
      t b :
  bind m f w = (t, w', Val b) ->
  exists t1 w1 a t2,
    m w = (t1, w1, Val a) /\ f a w1 = (t2, w', Val b) /\ t = t1 ++ t2.
Proof.
  unfold bind. destruct (m w) as [[t1 w1] [a|e|]]; try discriminate.
  destruct (f a w1) as [[t2 w2] r2] eqn:E. intros H.
  exists t1, w1, a, t2. repeat split; congruence.
Qed.

(** X22.  A run that falls off the end of [main] ends with the final
    cleanup: the last events of its trace are those of the final cleanup,
    and the state it leaves is one from which the download root has just
    been removed. *)
Theorem completed_run_cleans_up {W : Type} (os : OS W) repr decode strip
        args (w w' : W) t :
  main os repr decode strip args w = (t, w', Val tt) ->
  exists t0 w0,
    t = t0 ++ final_cleanup_trace /\ w' = rmtree os w0 DOWNLOAD_DIR.
Proof.
  unfold main. intros H.
  apply bind_val_inv in H as (t1 & w1 & [] & t1' & _ & H & ->).
  apply bind_val_inv in H as (t2 & w2 & [] & t2' & _ & H & ->).
  apply bind_val_inv in H as (t3 & w3 & [] & t3' & _ & H & ->).
  apply bind_val_inv in H as (t4 & w4 & folders & t4' & _ & H & ->).
  apply bind_val_inv in H as (t5 & w5 & [] & t5' & _ & H & ->).
  assert (E : final_cleanup os w5
              = (final_cleanup_trace, rmtree os w5 DOWNLOAD_DIR, Val tt))
    by reflexivity.
  rewrite E in H.
  exists (t1 ++ t2 ++ t3 ++ t4 ++ t5), w5. split; [|congruence].
  assert (t5' = final_cleanup_trace) as -> by congruence.
  rewrite <- !app_assoc. reflexivity.
Qed.

Lemma completed_run_cleans_up_witness :
  snd (main (Sim.os (Sim.installed ["c1"; "c2"] [])) Sim.repr Sim.decode
         Sim.strip Sim.args (Sim.machine []))
  = Val tt /\
  exists t0 w0,
    trace (main (Sim.os (Sim.installed ["c1"; "c2"] [])) Sim.repr Sim.decode
             Sim.strip Sim.args (Sim.machine []))
    = t0 ++ final_cleanup_trace /\
    snd (fst (main (Sim.os (Sim.installed ["c1"; "c2"] [])) Sim.repr
                Sim.decode Sim.strip Sim.args (Sim.machine [])))
    = rmtree (Sim.os (Sim.installed ["c1"; "c2"] [])) w0 DOWNLOAD_DIR.
Proof.
  assert (E : snd (main (Sim.os (Sim.installed ["c1"; "c2"] [])) Sim.repr
                     Sim.decode Sim.strip Sim.args (Sim.machine []))
              = Val tt) by (vm_compute; reflexivity).
  split; [exact E|].
  apply (completed_run_cleans_up (Sim.os (Sim.installed ["c1"; "c2"] []))
           Sim.repr Sim.decode Sim.strip Sim.args (Sim.machine [])).
  destruct (main (Sim.os (Sim.installed ["c1"; "c2"] [])) Sim.repr
              Sim.decode Sim.strip Sim.args (Sim.machine []))
    as [[t w'] r].
  cbn [snd] in E. rewrite E. reflexivity.
Defined.

(** ** Chapters with equal keys *)

Lemma filter_insert_keyed {A : Type} (k : Z) (x : Z * A) (l : list (Z * A)) :
  filter (fun p => fst p =? k) (insert_keyed x l)
  = if fst x =? k
    then x :: filter (fun p => fst p =? k) l
    else filter (fun p => fst p =? k) l.
Proof.
  induction l as [|y t IH]; [reflexivity|].
  cbn [insert_keyed]. destruct (Z.leb_spec (fst x) (fst y)) as [Hle|Hgt].
  - reflexivity.
  - cbn [filter]. rewrite IH.
    destruct (Z.eqb_spec (fst x) k) as [Hx|Hx]; [|reflexivity].
    destruct (Z.eqb_spec (fst y) k) as [Hy|Hy]; [lia|reflexivity].
Qed.

Lemma filter_sort_keyed {A : Type} (k : Z) (l : list (Z * A)) :
  filter (fun p => fst p =? k) (fold_right insert_keyed [] l)
  = filter (fun p => fst p =? k) l.
Proof.
  induction l as [|x t IH]; [reflexivity|].
  cbn [fold_right filter]. rewrite filter_insert_keyed, IH. reflexivity.
Qed.

Lemma filter_has_key (k : Z) (S : list (Z * Path)) :
  Forall (fun p => chapter_sort_key (snd p) = Val (fst p)) S ->
  filter (has_key k) (map snd S) = map snd (filter (fun p => fst p =? k) S).
Proof.
  induction 1 as [|p S Hp _ IH]; [reflexivity|].
  cbn [map filter]. unfold has_key at 1. rewrite Hp, IH.
  destruct (fst p =? k); reflexivity.
Qed.

Lemma map_snd_combine {A B : Type} (ks : list A) (l : list B) :
  List.length ks = List.length l -> map snd (combine ks l) = l.
Proof.
  revert ks. induction l as [|a t IH]; intros [|k ks] H; simpl in *;
    try discriminate; [reflexivity|]. f_equal. apply IH. lia.
Qed.

(** X23.  The key drops the fraction of a numeral and the sort is stable,
    so the chapters that share a key come out of the sort in the order of
    the directory listing, whatever their fractions: for every key, the
    chapters with that key are the same sequence before and after the
    sort. *)
Theorem equal_keys_keep_listing_order {W : Type} (os : OS W) (w : W)
        manga_name_dir chapter_dirs k :
  sorted chapter_sort_key (discovered os w manga_name_dir) = Val chapter_dirs ->
  filter (has_key k) chapter_dirs
  = filter (has_key k) (discovered os w manga_name_dir).
Proof.
  generalize (discovered os w manga_name_dir) as l. intros l.
  unfold sorted.
  destruct (res_map chapter_sort_key l) as [ks| |] eqn:Hks; try discriminate.
  cbn [res_bind]. intros H. injection H as <-.
  apply res_map_Forall2 in Hks.
  assert (Hlen : List.length ks = List.length l)
    by (symmetry; eapply Forall2_length; eassumption).
  assert (HC : Forall (fun p => chapter_sort_key (snd p) = Val (fst p))
                      (combine ks l)).
  { apply Forall_forall. intros [k' a] Hin.
    exact (Forall2_combine _ _ _ Hks k' a Hin). }
  assert (HS : Forall (fun p => chapter_sort_key (snd p) = Val (fst p))
                      (fold_right insert_keyed [] (combine ks l))).
  { rewrite Forall_forall in *. intros p Hp. apply HC.
    eapply Permutation_in; [apply sort_keyed_perm|exact Hp]. }
  rewrite (filter_has_key k _ HS), filter_sort_keyed.
  rewrite <- (filter_has_key k _ HC), map_snd_combine by exact Hlen.
  reflexivity.
Qed.

Lemma equal_keys_keep_listing_order_witness :
  sorted chapter_sort_key
    (discovered (Sim.os Sim.broken)
       (Sim.with_dirs (Sim.machine [])
          [Sim.manga_dir // "c12.5"; Sim.manga_dir // "c3";
           Sim.manga_dir // "c12.1"])
       Sim.manga_dir)
  = Val [Sim.manga_dir // "c3"; Sim.manga_dir // "c12.5";
         Sim.manga_dir // "c12.1"] /\
  filter (has_key 12)
         [Sim.manga_dir // "c3"; Sim.manga_dir // "c12.5";
          Sim.manga_dir // "c12.1"]
  = [Sim.manga_dir // "c12.5"; Sim.manga_dir // "c12.1"].
Proof.
  assert (E : sorted chapter_sort_key
                (discovered (Sim.os Sim.broken)
                   (Sim.with_dirs (Sim.machine [])
                      [Sim.manga_dir // "c12.5"; Sim.manga_dir // "c3";
                       Sim.manga_dir // "c12.1"])
                   Sim.manga_dir)
              = Val [Sim.manga_dir // "c3"; Sim.manga_dir // "c12.5";
                     Sim.manga_dir // "c12.1"])
    by (vm_compute; reflexivity).
  split; [exact E|].
  rewrite (equal_keys_keep_listing_order (Sim.os Sim.broken) _ _ _ 12 E).
  vm_compute. reflexivity.
Defined.
